(** * scg-database: the repository / query-builder core, its type bridge,
      its registries and the Connect facade

    A shallow embedding of the Go sources

      - package gorm: utils.go (bridge helpers, clause validation), the
        fluent repository, query_builder.go (the fluent query builder)
      - package db: the adapter registry, query_builder_registry.go,
        connection.go (the Connect facade) and the structured errors
      - package config: [Config] and its [Validate]

    Part I holds the definitions, Part II the lemmas and theorems.

    Conventions.  A Go [error] value is an [option error] ([None] is nil).
    A Go [int] is a [Z]; the code only compares such integers, it never
    does arithmetic on them.  A function that can panic returns a
    [result], whose third outcome is the panic.  Pointers are indices
    into an explicit heap.  A builder is given twice: by the statement
    its handle carries at a call, for what the call returns and hands to
    the backend, and, in the module [Shared], with its handle as the
    pointer it is, for what a call does to the builders that share the
    handle. *)

From Stdlib Require Import ZArith Ascii String.
From stdpp Require Import gmap strings list pretty.

Open Scope string_scope.
Open Scope list_scope.

(* ===================================================================== *)
(** * Part I: definitions                                                 *)
(* ===================================================================== *)

(** ** Errors and results *)

(** The error values the code builds: [errors.New] and [fmt.Errorf]
    without a wrapped cause, [fmt.Errorf] with a trailing [%w], and the
    structured [*db.Error] of db/errors.go. *)
#[warnings="-register-all"]
Inductive error : Type :=
| errors_New (msg : string)
| fmt_Errorf_w (prefix : string) (cause : error)
| db_Error (Operation Message : string) (Err : option error).

(** [Error()]: the message of an error.  For [*db.Error] this is the
    method of db/errors.go. *)
Fixpoint Error (e : error) : string :=
  match e with
  | errors_New msg => msg
  | fmt_Errorf_w prefix cause => prefix ++ Error cause
  | db_Error op msg None =>
      "db operation '" ++ op ++ "' failed: " ++ msg
  | db_Error op msg (Some err) =>
      "db operation '" ++ op ++ "' failed: " ++ msg ++ ": " ++ Error err
  end.

Definition NewError (operation message : string) (err : option error) : error :=
  db_Error operation message err.

Definition NewConfigValidationError (err : error) : error :=
  NewError "Connect" "config validation failed" (Some err).

Definition ErrInvalidAdapter : error := errors_New "invalid adapter type".

Definition NewInvalidAdapterError : error :=
  NewError "Connect" "invalid adapter type provided in config" (Some ErrInvalidAdapter).

Definition NewAdapterLookupError (err : error) : error :=
  NewError "Connect" "adapter lookup failed" (Some err).

Definition NewAdapterConnectError (err : error) : error :=
  NewError "Connect" "adapter connect failed" (Some err).

Definition NewConnectionPingError (err : error) : error :=
  NewError "Connect" "initial database ping failed" (Some err).

(** The outcome of a call that may return a value, return an error, or
    panic. *)
Inductive result (A : Type) : Type :=
| Ok (a : A)
| Err (e : error)
| Panic (msg : string).

Arguments Ok {A} a.
Arguments Err {A} e.
Arguments Panic {A} msg.

(** ** Package strings *)

(** Go strings are byte strings.  [strings.ToUpper] and
    [strings.TrimSpace] have an ASCII fast path, written out here; for a
    string holding a byte of 0x80 or more they go through the Unicode
    tables of the Go runtime, which are no part of this repository and are
    taken as parameters, as is the quoting of the [%q] verb. *)
Class GoRuntime : Type := {
  unicode_ToUpper : string -> string;
  unicode_TrimSpace : string -> string;
  (** [strconv.Quote], the [%q] verb of package fmt. *)
  strconv_Quote : string -> string
}.

Definition byte_in (lo hi c : ascii) : bool :=
  Nat.leb (nat_of_ascii lo) (nat_of_ascii c) && Nat.leb (nat_of_ascii c) (nat_of_ascii hi).

Definition is_lower (c : ascii) : bool := byte_in "a" "z" c.
Definition is_upper (c : ascii) : bool := byte_in "A" "Z" c.
Definition is_digit (c : ascii) : bool := byte_in "0" "9" c.

(** [c < utf8.RuneSelf] *)
Definition is_ascii_byte (c : ascii) : bool := Nat.ltb (nat_of_ascii c) 128.

Fixpoint isASCII (s : string) : bool :=
  match s with
  | EmptyString => true
  | String c r => is_ascii_byte c && isASCII r
  end.

(** [c -= 'a' - 'A'] for a lower-case ASCII letter. *)
Definition upper_byte (c : ascii) : ascii :=
  if is_lower c then ascii_of_nat (nat_of_ascii c - 32) else c.

Fixpoint map_bytes (f : ascii -> ascii) (s : string) : string :=
  match s with
  | EmptyString => EmptyString
  | String c r => String (f c) (map_bytes f r)
  end.

Definition ToUpper `{GoRuntime} (s : string) : string :=
  if isASCII s then map_bytes upper_byte s else unicode_ToUpper s.

(** The table [asciiSpace]: tab, newline, vertical tab, form feed,
    carriage return and space. *)
Definition asciiSpace (c : ascii) : bool :=
  let n := nat_of_ascii c in
  (Nat.leb 9 n && Nat.leb n 13) || Nat.eqb n 32.

Fixpoint trim_left (s : string) : string :=
  match s with
  | EmptyString => EmptyString
  | String c r => if asciiSpace c then trim_left r else s
  end.

Fixpoint trim_right (s : string) : string :=
  match s with
  | EmptyString => EmptyString
  | String c r =>
      match trim_right r with
      | EmptyString => if asciiSpace c then EmptyString else String c EmptyString
      | r' => String c r'
      end
  end.

Definition TrimSpace `{GoRuntime} (s : string) : string :=
  if isASCII s then trim_right (trim_left s) else unicode_TrimSpace s.

(** ** Package regexp *)

(** Regular expressions over bytes, matched with Brzozowski derivatives.
    Only what [validColumnNameRegex] uses: character classes,
    concatenation and the star.  The pattern is anchored by [^] and [$]
    (without the multi-line flag), so [MatchString] is a match of the whole
    string. *)
Inductive regex : Type :=
| Never
| Eps
| Class (p : ascii -> bool)
| Cat (r1 r2 : regex)
| Alt (r1 r2 : regex)
| Star (r : regex).

Fixpoint nullable (r : regex) : bool :=
  match r with
  | Never => false
  | Eps => true
  | Class _ => false
  | Cat r1 r2 => nullable r1 && nullable r2
  | Alt r1 r2 => nullable r1 || nullable r2
  | Star _ => true
  end.

Fixpoint deriv (c : ascii) (r : regex) : regex :=
  match r with
  | Never => Never
  | Eps => Never
  | Class p => if p c then Eps else Never
  | Cat r1 r2 =>
      if nullable r1
      then Alt (Cat (deriv c r1) r2) (deriv c r2)
      else Cat (deriv c r1) r2
  | Alt r1 r2 => Alt (deriv c r1) (deriv c r2)
  | Star r1 => Cat (deriv c r1) (Star r1)
  end.

Fixpoint MatchString (r : regex) (s : string) : bool :=
  match s with
  | EmptyString => nullable r
  | String c s' => MatchString (deriv c r) s'
  end.

(** What a pattern denotes: the strings it matches as a whole. *)
Inductive matches : regex -> string -> Prop :=
| matches_Eps : matches Eps EmptyString
| matches_Class (p : ascii -> bool) (c : ascii) :
    p c = true -> matches (Class p) (String c EmptyString)
| matches_Cat (r1 r2 : regex) (s1 s2 : string) :
    matches r1 s1 -> matches r2 s2 -> matches (Cat r1 r2) (s1 +:+ s2)
| matches_Alt_l (r1 r2 : regex) (s : string) :
    matches r1 s -> matches (Alt r1 r2) s
| matches_Alt_r (r1 r2 : regex) (s : string) :
    matches r2 s -> matches (Alt r1 r2) s
| matches_Star_nil (r : regex) : matches (Star r) EmptyString
| matches_Star_more (r : regex) (s1 s2 : string) :
    matches r s1 -> matches (Star r) s2 -> matches (Star r) (s1 +:+ s2).

(** [[a-zA-Z_]] *)
Definition ident_start (c : ascii) : bool :=
  is_lower c || is_upper c || Ascii.eqb c "_".

(** [[a-zA-Z0-9_]] *)
Definition ident_char (c : ascii) : bool :=
  is_lower c || is_upper c || is_digit c || Ascii.eqb c "_".

(** [\.] *)
Definition is_dot (c : ascii) : bool := Ascii.eqb c ".".

(** One identifier: [ident_start], then [ident_char] any number of times. *)
Definition identifier_re : regex := Cat (Class ident_start) (Star (Class ident_char)).

(** The pattern of [validColumnNameRegex]: an identifier, then any number
    of groups made of a dot and an identifier, between the anchors. *)
Definition validColumnNameRegex : regex :=
  Cat identifier_re (Star (Cat (Class is_dot) identifier_re)).

(** The state the matcher is in once it is inside an identifier. *)
Definition inside_identifier : regex :=
  Cat (Star (Class ident_char)) (Star (Cat (Class is_dot) identifier_re)).

(** ** utils.go: validation *)

Definition validateColumnName (column : string) : bool :=
  MatchString validColumnNameRegex column.

Definition validateOrderDirection `{GoRuntime} (direction defaultDirection : string) : string :=
  let direction := ToUpper (TrimSpace direction) in
  if negb (String.eqb direction "ASC") && negb (String.eqb direction "DESC")
  then defaultDirection
  else direction.

(** The safe-identifier grammar in words: one or more parts separated by
    single dots, each part a letter or underscore followed by letters,
    digits and underscores.  A two-state recogniser: [inside] tells
    whether the current part already has its first character. *)
Fixpoint safe_identifier_from (inside : bool) (s : string) : bool :=
  match s with
  | EmptyString => inside
  | String c r =>
      if inside
      then if ident_char c then safe_identifier_from true r
           else if is_dot c then safe_identifier_from false r
           else false
      else if ident_start c then safe_identifier_from true r
           else false
  end.

Definition safe_identifier (s : string) : bool := safe_identifier_from false s.

(** ** Package reflect, and the values behind [contract.Model] *)

(** Type descriptors ([reflect.Type]): a defined type of a kind other than
    pointer, or a pointer type.  [Kind() == reflect.Ptr] holds exactly of
    the second. *)
Inductive rtype : Type :=
| TNamed (name : string)
| TPtr (elem : rtype).

Fixpoint rtype_eqb (a b : rtype) : bool :=
  match a, b with
  | TNamed n, TNamed m => String.eqb n m
  | TPtr x, TPtr y => rtype_eqb x y
  | _, _ => false
  end.

(** [Type.String()], as printed by [%s] and [%T]. *)
Fixpoint type_String (t : rtype) : string :=
  match t with
  | TNamed name => name
  | TPtr elem => "*" ++ type_String elem
  end.

Definition is_Ptr (t : rtype) : bool :=
  match t with TPtr _ => true | TNamed _ => false end.

(** [Type.Elem()]; the code calls it only behind [Kind() == reflect.Ptr]. *)
Definition Type_Elem (t : rtype) : rtype :=
  match t with TPtr elem => elem | TNamed _ => t end.

(** The fields of a struct value, by name. *)
Definition content : Type := list (string * string).

(** Go values: a value of a defined type with its fields, or a pointer,
    nil or pointing at a value. *)
#[warnings="-register-all"]
Inductive value : Type :=
| VNamed (name : string) (fields : content)
| VPtr (elem : rtype) (target : option value).

(** A [contract.Model] interface value: [None] is the nil interface,
    [Some v] holds the dynamic value [v].  [Some (VPtr t None)] is an
    interface holding a nil pointer: it is not equal to nil in Go. *)
Abbreviation Model := (option value) (only parsing).

Definition TypeOf (v : value) : rtype :=
  match v with
  | VNamed name _ => TNamed name
  | VPtr elem _ => TPtr elem
  end.

(** [Value.Elem()] on a pointer: the value pointed at, and the zero
    [reflect.Value] ([None]) for a nil pointer. *)
Definition Value_Elem (v : value) : option value :=
  match v with
  | VPtr _ target => target
  | VNamed _ _ => Some v
  end.

(** The zero value of a type, as [reflect.MakeSlice] leaves it in every
    slot. *)
Definition zero_value (t : rtype) : value :=
  match t with
  | TNamed name => VNamed name []
  | TPtr elem => VPtr elem None
  end.

(** A slice seen through reflection: element type and elements. *)
Record slice : Type := mkSlice {
  slice_elem : rtype;
  slice_items : list value
}.

Definition MakeSlice (elem : rtype) (len : nat) : slice :=
  mkSlice elem (replicate len (zero_value elem)).

(** [slice.Index(i).Set(v)] *)
Definition Index_Set (s : slice) (i : nat) (v : value) : slice :=
  mkSlice (slice_elem s) (<[i := v]> (slice_items s)).

(** What the type declarations of the program decide: assignability
    between types, which holds of identical types and otherwise depends on
    their method sets, and whether a type has every method of
    [contract.Model] (a type with pointer receivers has not, its pointer
    type has); and what a model's [Relationships()] method returns: a map
    from the name of a relation to its descriptor, [None] for an entry
    that holds a nil [Relationship] and [Some ty] for a descriptor whose
    [Type()] returns [ty]. *)
Class TypeInfo : Type := {
  AssignableTo : rtype -> rtype -> bool;
  implementsModel : rtype -> bool;
  Relationships : value -> gmap string (option string)
}.

(** The type assertion [item.(contract.Model)]. *)
Definition assert_Model `{TypeInfo} (item : value) : option value :=
  if implementsModel (TypeOf item) then Some item else None.

(** ** utils.go: the bridge *)

Definition getModelType (model : Model) : result rtype :=
  match model with
  | None => Panic "runtime error: invalid memory address or nil pointer dereference"
  | Some v =>
      let modelType := TypeOf v in
      if is_Ptr modelType then Ok (Type_Elem modelType) else Ok modelType
  end.

(** The loop of [convertModelsToSlice], from index [i] on. *)
Fixpoint convertModelsToSlice_loop `{TypeInfo}
    (modelType : rtype) (i : nat) (models : list Model) (s : slice) : result slice :=
  match models with
  | [] => Ok s
  | model :: rest =>
      match model with
      | None =>
          Err (errors_New ("model at index " ++ pretty i ++ " cannot be nil"))
      | Some v =>
          let modelValue := if is_Ptr (TypeOf v) then Value_Elem v else Some v in
          match modelValue with
          | None => Panic "reflect: call of reflect.Value.Type on zero Value"
          | Some mv =>
              if negb (AssignableTo (TypeOf mv) modelType)
              then Err (errors_New ("model at index " ++ pretty i
                          ++ " is not assignable to expected type "
                          ++ type_String modelType))
              else convertModelsToSlice_loop modelType (S i) rest (Index_Set s i mv)
          end
      end
  end.

Definition convertModelsToSlice `{TypeInfo}
    (models : list Model) (modelType : rtype) : result slice :=
  if Nat.eqb (length models) 0
  then Err (errors_New "models slice cannot be empty")
  else
    let modelType := if is_Ptr modelType then Type_Elem modelType else modelType in
    let s := MakeSlice modelType (length models) in
    convertModelsToSlice_loop modelType 0 models s.

(** The loop of [convertSliceToModels]: [models] is the result slice,
    written at index [i]. *)
Fixpoint convertSliceToModels_loop `{TypeInfo}
    (i : nat) (items : list value) (models : list Model) : result (list Model) :=
  match items with
  | [] => Ok models
  | item :: rest =>
      match assert_Model item with
      | Some model => convertSliceToModels_loop (S i) rest (<[i := Some model]> models)
      | None =>
          Err (errors_New ("failed to assert item at index " ++ pretty i
                 ++ " to contract.Model, got type " ++ type_String (TypeOf item)))
      end
  end.

Definition convertSliceToModels `{TypeInfo} (sliceValue : slice) : result (list Model) :=
  let models := replicate (length (slice_items sliceValue)) (None : Model) in
  convertSliceToModels_loop 0 (slice_items sliceValue) models.

Definition optimizeCreateOperation (models : list Model) : bool * Model * option error :=
  match models with
  | [] => (false, None, None)
  | [m] =>
      match m with
      | None => (false, None, Some (errors_New "model cannot be nil"))
      | Some _ => (true, m, None)
      end
  | _ => (false, None, None)
  end.

(** ** The gorm handle *)

(** Arguments of static type [any]. *)
#[warnings="-register-all"]
Inductive any : Type :=
| any_string (s : string)
| any_int (n : Z)
| any_value (v : Model)
| any_list (l : list any).

(** The clauses a gorm statement accumulates. *)
Inductive clause : Type :=
| PreloadClause (query : string)
| WhereClause (query : any) (args : list any)
| OrClause (query : any) (args : list any)
| SelectClause (columns : list string)
| JoinsClause (query : string)
| OrderClause (value : string)
| GroupClause (name : string)
| HavingClause (query : any) (args : list any)
| RawClause (sql : string) (args : list any)
| UnscopedClause.

(** Modelled from the spec: the statement a [*gorm.DB] carries, and what
    the chain methods of the library gorm.io/gorm, which is outside this
    repository, add to it.  The spec describes the state of a builder as
    its accumulated clauses (filters, ordering, limit and offset,
    eager-load hints, scoping).  So a statement is the model, the clauses
    in the order they were added, and the limit and offset, and a chain
    method is given here by the statement it leaves, as a function of the
    statement it finds.  On which handle it leaves it, the receiver's or a
    new one, is the matter of the section on shared handles below.  The
    context given to [WithContext] is left out. *)
Record gorm_DB : Type := mkDB {
  stmt_Model : Model;
  stmt_Clauses : list clause;
  stmt_Limit : option Z;
  stmt_Offset : option Z
}.

Definition add_clause (tx : gorm_DB) (c : clause) : gorm_DB :=
  mkDB (stmt_Model tx) (stmt_Clauses tx ++ [c]) (stmt_Limit tx) (stmt_Offset tx).

Definition gorm_Model (tx : gorm_DB) (value : Model) : gorm_DB :=
  mkDB value (stmt_Clauses tx) (stmt_Limit tx) (stmt_Offset tx).

Definition gorm_Preload (tx : gorm_DB) (query : string) : gorm_DB :=
  add_clause tx (PreloadClause query).

Definition gorm_Where (tx : gorm_DB) (query : any) (args : list any) : gorm_DB :=
  add_clause tx (WhereClause query args).

Definition gorm_Or (tx : gorm_DB) (query : any) (args : list any) : gorm_DB :=
  add_clause tx (OrClause query args).

Definition gorm_Select (tx : gorm_DB) (columns : list string) : gorm_DB :=
  add_clause tx (SelectClause columns).

Definition gorm_Joins (tx : gorm_DB) (query : string) : gorm_DB :=
  add_clause tx (JoinsClause query).

Definition gorm_Order (tx : gorm_DB) (value : string) : gorm_DB :=
  add_clause tx (OrderClause value).

Definition gorm_Group (tx : gorm_DB) (name : string) : gorm_DB :=
  add_clause tx (GroupClause name).

Definition gorm_Having (tx : gorm_DB) (query : any) (args : list any) : gorm_DB :=
  add_clause tx (HavingClause query args).

Definition gorm_Raw (tx : gorm_DB) (sql : string) (args : list any) : gorm_DB :=
  add_clause tx (RawClause sql args).

Definition gorm_Unscoped (tx : gorm_DB) : gorm_DB :=
  add_clause tx UnscopedClause.

(** [Scopes()] without scope functions adds none. *)
Definition gorm_Scopes (tx : gorm_DB) : gorm_DB := tx.

Definition gorm_Limit (tx : gorm_DB) (limit : Z) : gorm_DB :=
  mkDB (stmt_Model tx) (stmt_Clauses tx) (Some limit) (stmt_Offset tx).

Definition gorm_Offset (tx : gorm_DB) (offset : Z) : gorm_DB :=
  mkDB (stmt_Model tx) (stmt_Clauses tx) (stmt_Limit tx) (Some offset).

(** The ordering clauses of a handle, oldest first. *)
Definition orderings (tx : gorm_DB) : list string :=
  omap (fun c => match c with OrderClause v => Some v | _ => None end) (stmt_Clauses tx).

(** ** utils.go: clause helpers *)

(** The relationship types of package contract. *)
Definition HasOne : string := "HasOne".
Definition HasMany : string := "HasMany".
Definition BelongsTo : string := "BelongsTo".
Definition BelongsToMany : string := "BelongsToMany".
Definition Many2Many : string := "Many2Many".

Definition validateAndApplyLimit (tx : gorm_DB) (limit : Z) : gorm_DB :=
  if (limit <? 0)%Z then tx else gorm_Limit tx limit.

Definition validateAndApplyOffset (tx : gorm_DB) (offset : Z) : gorm_DB :=
  if (offset <? 0)%Z then tx else gorm_Offset tx offset.

Definition applyOrderBy `{GoRuntime} (tx : gorm_DB) (column direction : string) : gorm_DB :=
  if negb (validateColumnName column) then tx
  else
    let normalizedDirection := validateOrderDirection direction "ASC" in
    gorm_Order tx (column ++ " " ++ normalizedDirection).

(** ** The heap of builders *)

(** [&T{...}] allocates: a pointer is an index into the list of the
    objects allocated so far, and allocation appends. *)
Definition ptr : Type := nat.

Definition alloc {A : Type} (x : A) (h : list A) : ptr * list A :=
  (length h, (h ++ [x])%list).

Definition nil_dereference : string :=
  "runtime error: invalid memory address or nil pointer dereference".

(** ** The repository (package gorm) *)

(** A repository as one call sees it: the statement its handle carries
    when the call is made, and the model.  This is what a finisher hands
    to the backend and what a clause operation builds on; the statements
    about the builder a call returns are made on it.  The struct holds
    the handle itself, a pointer that several builders may share: what a
    call does to the receiver and to the other builders is stated on the
    heap of the section on shared handles. *)
Record repository : Type := mkRepository {
  repo_db : gorm_DB;
  repo_mdl : Model
}.

Definition repository_Limit (r : ptr) (limit : Z)
    (h : list repository) : result (ptr * list repository) :=
  match h !! r with
  | None => Panic nil_dereference
  | Some rv =>
      let tx := validateAndApplyLimit (repo_db rv) limit in
      Ok (alloc (mkRepository tx (repo_mdl rv)) h)
  end.

Definition repository_Offset (r : ptr) (offset : Z)
    (h : list repository) : result (ptr * list repository) :=
  match h !! r with
  | None => Panic nil_dereference
  | Some rv =>
      let tx := validateAndApplyOffset (repo_db rv) offset in
      Ok (alloc (mkRepository tx (repo_mdl rv)) h)
  end.

Definition repository_OrderBy `{GoRuntime} (r : ptr) (column direction : string)
    (h : list repository) : result (ptr * list repository) :=
  match h !! r with
  | None => Panic nil_dereference
  | Some rv =>
      let tx := applyOrderBy (repo_db rv) column direction in
      Ok (alloc (mkRepository tx (repo_mdl rv)) h)
  end.

(** The method [convertModelsToSlice] of the repository. *)
Definition repository_convertModelsToSlice `{TypeInfo}
    (rv : repository) (models : list Model) : result slice :=
  match getModelType (repo_mdl rv) with
  | Ok modelType => convertModelsToSlice models modelType
  | Err e => Err e
  | Panic msg => Panic msg
  end.

(** What is handed to a gorm finisher: one model, or a concrete slice. *)
Inductive gorm_value : Type :=
| value_model (m : Model)
| value_slice (s : slice).

(** The calls that reach the backend. *)
Inductive backend_call : Type :=
| call_Create (tx : gorm_DB) (v : gorm_value)
| call_CreateInBatches (tx : gorm_DB) (v : gorm_value) (batchSize : Z).

(** The [Error] field a finisher leaves, which is the backend's business. *)
Class Backend : Type := {
  backend_Error : backend_call -> option error
}.

(** A write operation yields the backend calls it made, in order, and
    its outcome. *)
Definition write_outcome : Type := list backend_call * result (option error).

Definition repository_Create `{TypeInfo} `{Backend}
    (rv : repository) (models : list Model) : write_outcome :=
  let '(useSingleOptimization, singleModel, err) := optimizeCreateOperation models in
  match err with
  | Some e => ([], Ok (Some e))
  | None =>
      if Nat.eqb (length models) 0 then ([], Ok None)
      else if useSingleOptimization then
        let c := call_Create (repo_db rv) (value_model singleModel) in
        ([c], Ok (backend_Error c))
      else
        match repository_convertModelsToSlice rv models with
        | Err e => ([], Ok (Some (fmt_Errorf_w "failed to convert models: " e)))
        | Panic msg => ([], Panic msg)
        | Ok s =>
            let c := call_Create (repo_db rv) (value_slice s) in
            ([c], Ok (backend_Error c))
        end
  end.

Definition repository_CreateInBatches `{TypeInfo} `{Backend}
    (rv : repository) (models : list Model) (batchSize : Z) : write_outcome :=
  if Nat.eqb (length models) 0 then ([], Ok None)
  else if (batchSize <=? 0)%Z then ([], Ok (Some (errors_New "batch size must be positive")))
  else
    match repository_convertModelsToSlice rv models with
    | Err e => ([], Ok (Some (fmt_Errorf_w "failed to convert models: " e)))
    | Panic msg => ([], Panic msg)
    | Ok s =>
        let c := call_CreateInBatches (repo_db rv) (value_slice s) batchSize in
        ([c], Ok (backend_Error c))
    end.

(** ** query_builder.go *)

Definition OrderDirectionASC : string := "ASC".
Definition OrderDirectionDESC : string := "DESC".

(** A query builder as one call sees it, like [repository]. *)
Record gormQueryBuilder : Type := mkQueryBuilder {
  qb_db : gorm_DB;
  qb_model : Model
}.

Definition newGormQueryBuilder (model : Model) (gormDB : gorm_DB)
    (h : list gormQueryBuilder) : ptr * list gormQueryBuilder :=
  alloc (mkQueryBuilder (gorm_Model gormDB model) model) h.

(** The shape shared by the methods that return
    [&gormQueryBuilder{db: ..., model: q.model}]. *)
Definition qb_derive (q : ptr) (f : gorm_DB -> gorm_DB)
    (h : list gormQueryBuilder) : result (ptr * list gormQueryBuilder) :=
  match h !! q with
  | None => Panic nil_dereference
  | Some qv => Ok (alloc (mkQueryBuilder (f (qb_db qv)) (qb_model qv)) h)
  end.

Definition gormQueryBuilder_OrderBy `{GoRuntime} (q : ptr) (column direction : string) :=
  let direction := ToUpper (TrimSpace direction) in
  let direction :=
    if negb (String.eqb direction OrderDirectionASC)
       && negb (String.eqb direction OrderDirectionDESC)
    then OrderDirectionASC else direction in
  qb_derive q (fun db => gorm_Order db (column ++ " " ++ direction)).

Definition gormQueryBuilder_Limit (q : ptr) (limit : Z)
    (h : list gormQueryBuilder) : result (ptr * list gormQueryBuilder) :=
  if (limit <? 0)%Z then Ok (q, h)
  else qb_derive q (fun db => gorm_Limit db limit) h.

Definition gormQueryBuilder_Offset (q : ptr) (offset : Z)
    (h : list gormQueryBuilder) : result (ptr * list gormQueryBuilder) :=
  if (offset <? 0)%Z then Ok (q, h)
  else qb_derive q (fun db => gorm_Offset db offset) h.

(** ** Calls through the contracts *)

(** The clause operations of [contract.Repository], with their
    arguments. *)
Inductive repository_op : Type :=
| Repo_With (relations : list string)
| Repo_Where (query : any) (args : list any)
| Repo_Unscoped
| Repo_Limit (limit : Z)
| Repo_Offset (offset : Z)
| Repo_OrderBy (column direction : string).

(** The clause operations of [contract.QueryBuilder], with their
    arguments. *)
Inductive querybuilder_op : Type :=
| QB_Select (columns : list string)
| QB_Where (condition : string) (args : list any)
| QB_WhereIn (column : string) (values : list any)
| QB_WhereNotIn (column : string) (values : list any)
| QB_WhereNull (column : string)
| QB_WhereNotNull (column : string)
| QB_WhereBetween (column : string) (start end_ : any)
| QB_OrWhere (condition : string) (args : list any)
| QB_Join (table condition : string)
| QB_LeftJoin (table condition : string)
| QB_RightJoin (table condition : string)
| QB_InnerJoin (table condition : string)
| QB_OrderBy (column direction : string)
| QB_GroupBy (columns : list string)
| QB_Having (condition : string) (args : list any)
| QB_Limit (limit : Z)
| QB_Offset (offset : Z)
| QB_With (relations : list string)
| QB_WithCount (relations : list string)
| QB_Scoped
| QB_Unscoped
| QB_Raw (sql : string) (args : list any).

(** The operations of the query builder that hand back the receiver
    itself. *)
Definition returns_receiver (op : querybuilder_op) : bool :=
  match op with
  | QB_Limit limit => (limit <? 0)%Z
  | QB_Offset offset => (offset <? 0)%Z
  | QB_WithCount _ => true
  | _ => false
  end.

(** ** Handles shared between builders *)

(** The structs of this package hold a [*gorm.DB], which is a pointer: two
    builders may hold the same handle, and what one adds to its statement
    the other sees.  Modelled after the library (gorm.io/gorm is outside
    this repository), by its rule of method chaining: every chain method
    ([Model], [Where], [Order], [Limit], ...) begins with [getInstance].
    On a handle whose counter [clone] is 0, which is what a chain method
    returns, it works on the statement of the receiver and returns the
    receiver itself; on a handle with counter 1, which [gorm.Open] returns,
    it returns a new handle with an empty statement; on a handle with a
    larger counter, which [Session] and [WithContext] return, a new handle
    with a copy of the statement.  The finishers are reached through
    [WithContext] and so work on a copy. *)
Module Shared.

Record DB : Type := mkHandle {
  Statement : gorm_DB;
  clone : nat
}.

Record repository : Type := mkRepository {
  repo_db : ptr;
  repo_mdl : Model
}.

Record gormQueryBuilder : Type := mkQueryBuilder {
  qb_db : ptr;
  qb_model : Model
}.

(** The objects allocated so far. *)
Record heap : Type := mkHeap {
  handles : list DB;
  repositories : list repository;
  builders : list gormQueryBuilder
}.

(** A computation on the heap yields its outcome and the heap it leaves,
    also when it panics. *)
Definition M (A : Type) : Type := heap -> result A * heap.

Definition ret {A : Type} (a : A) : M A := fun h => (Ok a, h).

Definition panic {A : Type} (msg : string) : M A := fun h => (Panic msg, h).

Definition bind {A B : Type} (m : M A) (k : A -> M B) : M B :=
  fun h =>
    match m h with
    | (Ok a, h') => k a h'
    | (Err e, h') => (Err e, h')
    | (Panic msg, h') => (Panic msg, h')
    end.

Notation "'do' x <- m ; k" := (bind m (fun x => k))
  (at level 10, x name, m at level 100, k at level 200).

(** Dereferencing a pointer; a nil pointer is one that points at no
    object. *)
Definition deref {A : Type} (objects : heap -> list A) (p : ptr) : M A :=
  fun h =>
    match objects h !! p with
    | Some x => (Ok x, h)
    | None => (Panic nil_dereference, h)
    end.

Definition new_handle (o : DB) : M ptr :=
  fun h =>
    let '(p, hs) := alloc o (handles h) in
    (Ok p, mkHeap hs (repositories h) (builders h)).

Definition set_Statement (p : ptr) (s : gorm_DB) : M unit :=
  fun h =>
    (Ok tt, mkHeap (alter (fun o => mkHandle s (clone o)) p (handles h))
              (repositories h) (builders h)).

Definition new_repository (v : repository) : M ptr :=
  fun h =>
    let '(p, rs) := alloc v (repositories h) in
    (Ok p, mkHeap (handles h) rs (builders h)).

Definition new_builder (v : gormQueryBuilder) : M ptr :=
  fun h =>
    let '(p, bs) := alloc v (builders h) in
    (Ok p, mkHeap (handles h) (repositories h) bs).

(** *** The chain methods of the library *)

Definition getInstance (db : ptr) : M ptr :=
  do o <- deref handles db;
  match clone o with
  | 0 => ret db
  | 1 => new_handle (mkHandle (mkDB None [] None None) 0)
  | _ => new_handle (mkHandle (Statement o) 0)
  end.

(** A chain method: [getInstance], then the clause on the statement of the
    handle so obtained, which is returned. *)
Definition chain (clause : gorm_DB -> gorm_DB) (db : ptr) : M ptr :=
  do tx <- getInstance db;
  do o <- deref handles tx;
  do _ <- set_Statement tx (clause (Statement o));
  ret tx.

Definition DB_Model (db : ptr) (value : Model) : M ptr :=
  chain (fun s => gorm_Model s value) db.

Definition DB_Preload (db : ptr) (query : string) : M ptr :=
  chain (fun s => gorm_Preload s query) db.

Definition DB_Where (db : ptr) (query : any) (args : list any) : M ptr :=
  chain (fun s => gorm_Where s query args) db.

Definition DB_Or (db : ptr) (query : any) (args : list any) : M ptr :=
  chain (fun s => gorm_Or s query args) db.

Definition DB_Select (db : ptr) (columns : list string) : M ptr :=
  chain (fun s => gorm_Select s columns) db.

Definition DB_Joins (db : ptr) (query : string) : M ptr :=
  chain (fun s => gorm_Joins s query) db.

Definition DB_Order (db : ptr) (value : string) : M ptr :=
  chain (fun s => gorm_Order s value) db.

Definition DB_Group (db : ptr) (name : string) : M ptr :=
  chain (fun s => gorm_Group s name) db.

Definition DB_Having (db : ptr) (query : any) (args : list any) : M ptr :=
  chain (fun s => gorm_Having s query args) db.

Definition DB_Raw (db : ptr) (sql : string) (args : list any) : M ptr :=
  chain (fun s => gorm_Raw s sql args) db.

Definition DB_Unscoped (db : ptr) : M ptr := chain gorm_Unscoped db.

Definition DB_Scopes (db : ptr) : M ptr := chain gorm_Scopes db.

Definition DB_Limit (db : ptr) (limit : Z) : M ptr :=
  chain (fun s => gorm_Limit s limit) db.

Definition DB_Offset (db : ptr) (offset : Z) : M ptr :=
  chain (fun s => gorm_Offset s offset) db.

(** *** utils.go: the clause helpers, on handles *)

(** The loop of [handleRelationshipPreload]; [modelRelations] maps a
    relation name to its descriptor, [None] for a nil [Relationship] and
    [Some ty] for one whose [Type()] is [ty]. *)
Fixpoint handleRelationshipPreload_loop
    (tx : ptr) (modelRelations : gmap string (option string)) (relations : list string)
    : M ptr :=
  match relations with
  | [] => ret tx
  | rel :: rest =>
      do tx <-
        match modelRelations !! rel with
        | Some relationship =>
            match relationship with
            | None => panic nil_dereference
            | Some ty =>
                if String.eqb ty HasOne || String.eqb ty BelongsTo then DB_Preload tx rel
                else if String.eqb ty HasMany || String.eqb ty BelongsToMany
                then DB_Preload tx rel
                else if String.eqb ty Many2Many then DB_Preload tx rel
                else DB_Preload tx rel
            end
        | None => DB_Preload tx rel
        end;
      handleRelationshipPreload_loop tx modelRelations rest
  end.

Definition handleRelationshipPreload `{TypeInfo}
    (tx : ptr) (model : Model) (relations : list string) : M ptr :=
  if Nat.eqb (length relations) 0 then ret tx
  else
    match model with
    | None => panic nil_dereference
    | Some v => handleRelationshipPreload_loop tx (Relationships v) relations
    end.

Definition validateAndApplyLimit (tx : ptr) (limit : Z) : M ptr :=
  if (limit <? 0)%Z then ret tx else DB_Limit tx limit.

Definition validateAndApplyOffset (tx : ptr) (offset : Z) : M ptr :=
  if (offset <? 0)%Z then ret tx else DB_Offset tx offset.

Definition applyOrderBy `{GoRuntime} (tx : ptr) (column direction : string) : M ptr :=
  if negb (validateColumnName column) then ret tx
  else
    let normalizedDirection := validateOrderDirection direction "ASC" in
    DB_Order tx (column +:+ " " +:+ normalizedDirection).

(** *** The repository *)

Definition newGormRepository (database : ptr) (mdl : Model) : M ptr :=
  do tx <- DB_Model database mdl;
  new_repository (mkRepository tx mdl).

(** [NewRepository] on a connection whose handle is [c_db].  A model is a
    struct value or a pointer; [reflect.Value.IsNil] panics on a struct. *)
Definition connection_NewRepository (c_db : ptr) (model : Model) : M ptr :=
  match model with
  | None => fun h => (Err (errors_New "model cannot be nil"), h)
  | Some (VPtr _ None) => fun h => (Err (errors_New "model cannot be nil"), h)
  | Some (VPtr _ (Some _)) => newGormRepository c_db model
  | Some (VNamed _ _) => panic "reflect: call of reflect.Value.IsNil on struct Value"
  end.

Definition repository_With `{TypeInfo} (r : ptr) (relations : list string) : M ptr :=
  do rv <- deref repositories r;
  do tx <- handleRelationshipPreload (repo_db rv) (repo_mdl rv) relations;
  new_repository (mkRepository tx (repo_mdl rv)).

Definition repository_Where (r : ptr) (query : any) (args : list any) : M ptr :=
  do rv <- deref repositories r;
  do tx <- DB_Where (repo_db rv) query args;
  new_repository (mkRepository tx (repo_mdl rv)).

Definition repository_Unscoped (r : ptr) : M ptr :=
  do rv <- deref repositories r;
  do tx <- DB_Unscoped (repo_db rv);
  new_repository (mkRepository tx (repo_mdl rv)).

Definition repository_Limit (r : ptr) (limit : Z) : M ptr :=
  do rv <- deref repositories r;
  do tx <- validateAndApplyLimit (repo_db rv) limit;
  new_repository (mkRepository tx (repo_mdl rv)).

Definition repository_Offset (r : ptr) (offset : Z) : M ptr :=
  do rv <- deref repositories r;
  do tx <- validateAndApplyOffset (repo_db rv) offset;
  new_repository (mkRepository tx (repo_mdl rv)).

Definition repository_OrderBy `{GoRuntime} (r : ptr) (column direction : string) : M ptr :=
  do rv <- deref repositories r;
  do tx <- applyOrderBy (repo_db rv) column direction;
  new_repository (mkRepository tx (repo_mdl rv)).

Definition repository_call `{GoRuntime} `{TypeInfo} (op : repository_op) (r : ptr) : M ptr :=
  match op with
  | Repo_With relations => repository_With r relations
  | Repo_Where query args => repository_Where r query args
  | Repo_Unscoped => repository_Unscoped r
  | Repo_Limit limit => repository_Limit r limit
  | Repo_Offset offset => repository_Offset r offset
  | Repo_OrderBy column direction => repository_OrderBy r column direction
  end.

(** A chain of clause operations, each applied to the builder the one
    before returned. *)
Fixpoint repository_chain `{GoRuntime} `{TypeInfo} (ops : list repository_op) (r : ptr)
    : M ptr :=
  match ops with
  | [] => ret r
  | op :: rest =>
      do r' <- repository_call op r;
      repository_chain rest r'
  end.

(** *** query_builder.go *)

Definition newGormQueryBuilder (model : Model) (gormDB : ptr) : M ptr :=
  do tx <- DB_Model gormDB model;
  new_builder (mkQueryBuilder tx model).

(** The shape shared by the methods that return
    [&gormQueryBuilder{db: q.db.Method(...), model: q.model}]. *)
Definition qb_derive (q : ptr) (method : ptr -> M ptr) : M ptr :=
  do qv <- deref builders q;
  do tx <- method (qb_db qv);
  new_builder (mkQueryBuilder tx (qb_model qv)).

Definition gormQueryBuilder_Select (q : ptr) (columns : list string) : M ptr :=
  qb_derive q (fun db => DB_Select db columns).

Definition gormQueryBuilder_Where (q : ptr) (condition : string) (args : list any) : M ptr :=
  qb_derive q (fun db => DB_Where db (any_string condition) args).

Definition gormQueryBuilder_WhereIn (q : ptr) (column : string) (values : list any) : M ptr :=
  qb_derive q (fun db => DB_Where db (any_string (column +:+ " IN ?")) [any_list values]).

Definition gormQueryBuilder_WhereNotIn (q : ptr) (column : string) (values : list any)
    : M ptr :=
  qb_derive q (fun db => DB_Where db (any_string (column +:+ " NOT IN ?")) [any_list values]).

Definition gormQueryBuilder_WhereNull (q : ptr) (column : string) : M ptr :=
  qb_derive q (fun db => DB_Where db (any_string (column +:+ " IS NULL")) []).

Definition gormQueryBuilder_WhereNotNull (q : ptr) (column : string) : M ptr :=
  qb_derive q (fun db => DB_Where db (any_string (column +:+ " IS NOT NULL")) []).

Definition gormQueryBuilder_WhereBetween (q : ptr) (column : string) (start end_ : any)
    : M ptr :=
  qb_derive q (fun db =>
    DB_Where db (any_string (column +:+ " BETWEEN ? AND ?")) [start; end_]).

Definition gormQueryBuilder_OrWhere (q : ptr) (condition : string) (args : list any) : M ptr :=
  qb_derive q (fun db => DB_Or db (any_string condition) args).

Definition gormQueryBuilder_Join (q : ptr) (table condition : string) : M ptr :=
  qb_derive q (fun db => DB_Joins db ("JOIN " +:+ table +:+ " ON " +:+ condition)).

Definition gormQueryBuilder_LeftJoin (q : ptr) (table condition : string) : M ptr :=
  qb_derive q (fun db => DB_Joins db ("LEFT JOIN " +:+ table +:+ " ON " +:+ condition)).

Definition gormQueryBuilder_RightJoin (q : ptr) (table condition : string) : M ptr :=
  qb_derive q (fun db => DB_Joins db ("RIGHT JOIN " +:+ table +:+ " ON " +:+ condition)).

Definition gormQueryBuilder_InnerJoin (q : ptr) (table condition : string) : M ptr :=
  qb_derive q (fun db => DB_Joins db ("INNER JOIN " +:+ table +:+ " ON " +:+ condition)).

Definition gormQueryBuilder_OrderBy `{GoRuntime} (q : ptr) (column direction : string)
    : M ptr :=
  let direction := ToUpper (TrimSpace direction) in
  let direction :=
    if negb (String.eqb direction OrderDirectionASC)
       && negb (String.eqb direction OrderDirectionDESC)
    then OrderDirectionASC else direction in
  qb_derive q (fun db => DB_Order db (column +:+ " " +:+ direction)).

Definition gormQueryBuilder_GroupBy (q : ptr) (columns : list string) : M ptr :=
  qb_derive q (fun db => DB_Group db (String.concat ", " columns)).

Definition gormQueryBuilder_Having (q : ptr) (condition : string) (args : list any) : M ptr :=
  qb_derive q (fun db => DB_Having db (any_string condition) args).

Definition gormQueryBuilder_Limit (q : ptr) (limit : Z) : M ptr :=
  if (limit <? 0)%Z then ret q
  else qb_derive q (fun db => DB_Limit db limit).

Definition gormQueryBuilder_Offset (q : ptr) (offset : Z) : M ptr :=
  if (offset <? 0)%Z then ret q
  else qb_derive q (fun db => DB_Offset db offset).

(** The loop of [With]. *)
Fixpoint preload_each (db : ptr) (relations : list string) : M ptr :=
  match relations with
  | [] => ret db
  | relation :: rest =>
      do db <- DB_Preload db relation;
      preload_each db rest
  end.

Definition gormQueryBuilder_With (q : ptr) (relations : list string) : M ptr :=
  qb_derive q (fun db => preload_each db relations).

Definition gormQueryBuilder_WithCount (q : ptr) (relations : list string) : M ptr :=
  ret q.

Definition gormQueryBuilder_Scoped (q : ptr) : M ptr := qb_derive q DB_Scopes.

Definition gormQueryBuilder_Unscoped (q : ptr) : M ptr := qb_derive q DB_Unscoped.

Definition gormQueryBuilder_Raw (q : ptr) (sql : string) (args : list any) : M ptr :=
  qb_derive q (fun db => DB_Raw db sql args).

Definition querybuilder_call `{GoRuntime} (op : querybuilder_op) (q : ptr) : M ptr :=
  match op with
  | QB_Select columns => gormQueryBuilder_Select q columns
  | QB_Where condition args => gormQueryBuilder_Where q condition args
  | QB_WhereIn column values => gormQueryBuilder_WhereIn q column values
  | QB_WhereNotIn column values => gormQueryBuilder_WhereNotIn q column values
  | QB_WhereNull column => gormQueryBuilder_WhereNull q column
  | QB_WhereNotNull column => gormQueryBuilder_WhereNotNull q column
  | QB_WhereBetween column start end_ => gormQueryBuilder_WhereBetween q column start end_
  | QB_OrWhere condition args => gormQueryBuilder_OrWhere q condition args
  | QB_Join table condition => gormQueryBuilder_Join q table condition
  | QB_LeftJoin table condition => gormQueryBuilder_LeftJoin q table condition
  | QB_RightJoin table condition => gormQueryBuilder_RightJoin q table condition
  | QB_InnerJoin table condition => gormQueryBuilder_InnerJoin q table condition
  | QB_OrderBy column direction => gormQueryBuilder_OrderBy q column direction
  | QB_GroupBy columns => gormQueryBuilder_GroupBy q columns
  | QB_Having condition args => gormQueryBuilder_Having q condition args
  | QB_Limit limit => gormQueryBuilder_Limit q limit
  | QB_Offset offset => gormQueryBuilder_Offset q offset
  | QB_With relations => gormQueryBuilder_With q relations
  | QB_WithCount relations => gormQueryBuilder_WithCount q relations
  | QB_Scoped => gormQueryBuilder_Scoped q
  | QB_Unscoped => gormQueryBuilder_Unscoped q
  | QB_Raw sql args => gormQueryBuilder_Raw q sql args
  end.

(** *** Reading the heap *)

(** The statement a handle carries. *)
Definition statement_of (h : heap) (db : ptr) : option gorm_DB :=
  option_map Statement (handles h !! db).

(** The accumulated state of a repository, respectively of a query
    builder: the statement of the handle it holds. *)
Definition repository_state (h : heap) (r : ptr) : option gorm_DB :=
  match repositories h !! r with
  | Some rv => statement_of h (repo_db rv)
  | None => None
  end.

Definition builder_state (h : heap) (q : ptr) : option gorm_DB :=
  match builders h !! q with
  | Some qv => statement_of h (qb_db qv)
  | None => None
  end.

(** The heap once the statement of the handle [db] is [s]. *)
Definition with_Statement (db : ptr) (s : gorm_DB) (h : heap) : heap :=
  mkHeap (alter (fun o => mkHandle s (clone o)) db (handles h)) (repositories h) (builders h).

End Shared.

(** *** What a clause operation adds to a statement *)

(** A relation is described when the map of the model has no nil
    descriptor for it.  [handleRelationshipPreload] gets through the
    relations when there is none, or when the model is not nil and every
    relation named is described. *)
Definition described (modelRelations : gmap string (option string)) (rel : string) : bool :=
  match modelRelations !! rel with
  | Some None => false
  | _ => true
  end.

Definition preloadable `{TypeInfo} (model : Model) (relations : list string) : bool :=
  match relations with
  | [] => true
  | _ =>
      match model with
      | None => false
      | Some v => forallb (described (Relationships v)) relations
      end
  end.

Definition repository_returns `{TypeInfo} (model : Model) (op : repository_op) : bool :=
  match op with
  | Repo_With relations => preloadable model relations
  | _ => true
  end.

(** The statement after a clause operation of the repository, from the
    statement before it. *)
Definition repository_effect `{GoRuntime} (op : repository_op) (s : gorm_DB) : gorm_DB :=
  match op with
  | Repo_With relations => foldl gorm_Preload s relations
  | Repo_Where query args => gorm_Where s query args
  | Repo_Unscoped => gorm_Unscoped s
  | Repo_Limit limit => if (limit <? 0)%Z then s else gorm_Limit s limit
  | Repo_Offset offset => if (offset <? 0)%Z then s else gorm_Offset s offset
  | Repo_OrderBy column direction =>
      if safe_identifier column
      then gorm_Order s (column +:+ " " +:+
             (if String.eqb (ToUpper (TrimSpace direction)) "DESC" then "DESC" else "ASC"))
      else s
  end.

(** The same for the query builder. *)
Definition querybuilder_effect `{GoRuntime} (op : querybuilder_op) (s : gorm_DB) : gorm_DB :=
  match op with
  | QB_Select columns => add_clause s (SelectClause columns)
  | QB_Where condition args => add_clause s (WhereClause (any_string condition) args)
  | QB_WhereIn column values =>
      add_clause s (WhereClause (any_string (column +:+ " IN ?")) [any_list values])
  | QB_WhereNotIn column values =>
      add_clause s (WhereClause (any_string (column +:+ " NOT IN ?")) [any_list values])
  | QB_WhereNull column => add_clause s (WhereClause (any_string (column +:+ " IS NULL")) [])
  | QB_WhereNotNull column =>
      add_clause s (WhereClause (any_string (column +:+ " IS NOT NULL")) [])
  | QB_WhereBetween column start end_ =>
      add_clause s (WhereClause (any_string (column +:+ " BETWEEN ? AND ?")) [start; end_])
  | QB_OrWhere condition args => add_clause s (OrClause (any_string condition) args)
  | QB_Join table condition =>
      add_clause s (JoinsClause ("JOIN " +:+ table +:+ " ON " +:+ condition))
  | QB_LeftJoin table condition =>
      add_clause s (JoinsClause ("LEFT JOIN " +:+ table +:+ " ON " +:+ condition))
  | QB_RightJoin table condition =>
      add_clause s (JoinsClause ("RIGHT JOIN " +:+ table +:+ " ON " +:+ condition))
  | QB_InnerJoin table condition =>
      add_clause s (JoinsClause ("INNER JOIN " +:+ table +:+ " ON " +:+ condition))
  | QB_OrderBy column direction =>
      add_clause s (OrderClause (column +:+ " " +:+
        (if String.eqb (ToUpper (TrimSpace direction)) "DESC" then "DESC" else "ASC")))
  | QB_GroupBy columns => add_clause s (GroupClause (String.concat ", " columns))
  | QB_Having condition args => add_clause s (HavingClause (any_string condition) args)
  | QB_Limit limit =>
      if (limit <? 0)%Z
      then s
      else mkDB (stmt_Model s) (stmt_Clauses s) (Some limit) (stmt_Offset s)
  | QB_Offset offset =>
      if (offset <? 0)%Z
      then s
      else mkDB (stmt_Model s) (stmt_Clauses s) (stmt_Limit s) (Some offset)
  | QB_With relations =>
      mkDB (stmt_Model s) (stmt_Clauses s ++ map PreloadClause relations)
        (stmt_Limit s) (stmt_Offset s)
  | QB_WithCount _ => s
  | QB_Scoped => s
  | QB_Unscoped => add_clause s UnscopedClause
  | QB_Raw sql args => add_clause s (RawClause sql args)
  end.

(** ** The registries *)

(** A procedure that mutates the registry and may panic yields the
    registry as it is when the procedure ends, and the panic if there was
    one.  The locks are not modelled: calls are taken one at a time. *)
Definition registry_outcome (A : Type) : Type := gmap string A * option string.

(** The loop of [RegisterAdapter]. *)
Fixpoint RegisterAdapter_loop {A : Type}
    (adapter : A) (names : list string) (adapters : gmap string A) : registry_outcome A :=
  match names with
  | [] => (adapters, None)
  | name :: rest =>
      if String.eqb name ""
      then (adapters, Some "cannot register adapter with an empty name")
      else RegisterAdapter_loop adapter rest (<[name := adapter]> adapters)
  end.

(** [RegisterAdapter(adapter, names...)]; a nil [adapter] is [None]. *)
Definition RegisterAdapter {A : Type}
    (adapter : option A) (names : list string) (adapters : gmap string A) : registry_outcome A :=
  match adapter with
  | None => (adapters, Some "cannot register a nil database adapter")
  | Some a =>
      if Nat.eqb (length names) 0
      then (adapters, Some "cannot register adapter without at least one name")
      else RegisterAdapter_loop a names adapters
  end.

Definition GetAdapter `{GoRuntime} {A : Type}
    (name : string) (adapters : gmap string A) : result A :=
  match adapters !! name with
  | None =>
      Err (errors_New ("unknown database adapter " ++ strconv_Quote name
             ++ " (is the adapter package imported?)"))
  | Some adapter => Ok adapter
  end.

Definition queryBuilderRegistry_Register {F : Type}
    (adapterName : string) (factory : option F) (factories : gmap string F) : registry_outcome F :=
  if String.eqb adapterName ""
  then (factories, Some "adapter name cannot be empty")
  else
    match factory with
    | None => (factories, Some "factory cannot be nil")
    | Some f => (<[adapterName := f]> factories, None)
    end.

Definition queryBuilderRegistry_Get {F : Type}
    (adapterName : string) (factories : gmap string F) : result F :=
  match factories !! adapterName with
  | None =>
      Err (errors_New ("query builder factory not found for adapter: " ++ adapterName))
  | Some factory => Ok factory
  end.

(** [List]: the keys of the map, in the order the iteration yields them,
    which Go leaves unspecified. *)
Definition queryBuilderRegistry_List {F : Type} (factories : gmap string F) : list string :=
  (map_to_list factories).*1.

(** ** config.go and the Connect facade *)

(** The calls made on the objects behind the contracts, in order.  An
    implementation answers a call from the history of calls so far, so an
    object with state of its own is covered. *)
Inductive event : Type :=
| ev_Connect (adapter : nat)
| ev_Ping (conn : nat)
| ev_Close (conn : nat).

(** A [contract.Connection], as far as the facade uses it. *)
Record Connection : Type := mkConnection {
  conn_id : nat;
  conn_Ping : list event -> option error;
  conn_Close : list event -> option error
}.

(** The fields of [config.Config] other than the injected adapter; the
    open [Settings] bag is left out. *)
Record ConfigFields : Type := mkFields {
  Driver : string;
  DSN : string;
  MigrationsPath : string;
  ModelsPath : string;
  MaxIdleConns : Z;
  MaxOpenConns : Z
}.

(** A [contract.DBAdapter]; [Connect] may return a connection, an error,
    both or neither. *)
Record DBAdapter : Type := mkAdapter {
  adapter_id : nat;
  adapter_Name : string;
  adapter_Connect : ConfigFields -> list event -> option Connection * option error
}.

(** The [Adapter any] field once it is not nil: a [contract.DBAdapter] or
    a value of some other type. *)
Inductive injected : Type :=
| injected_adapter (a : DBAdapter)
| injected_other.

Record Config : Type := mkConfig {
  cfg_fields : ConfigFields;
  cfg_Adapter : option injected
}.

Definition Validate (c : Config) : option error :=
  if String.eqb (Driver (cfg_fields c)) "" then Some (errors_New "database driver is required")
  else if String.eqb (DSN (cfg_fields c)) "" then Some (errors_New "database dsn is required")
  else None.

(** [WithAdapter] of db/options.go.  The adapter is an interface value:
    [None] is nil, and assigning it leaves the field [Adapter] nil. *)
Definition WithAdapter (adapter : option DBAdapter) : Config -> Config :=
  fun cfg => mkConfig (cfg_fields cfg) (option_map injected_adapter adapter).

(** The options of [Connect], applied in order to the configuration. *)
Definition apply_options (cfg : Config) (opts : list (Config -> Config)) : Config :=
  foldl (fun c opt => opt c) cfg opts.

(** The step of [Connect] that determines the adapter, from the injected
    value or from the registry. *)
Definition resolve_adapter `{GoRuntime}
    (cfg : Config) (adapters : gmap string DBAdapter) : result DBAdapter :=
  match cfg_Adapter cfg with
  | Some (injected_adapter a) => Ok a
  | Some injected_other => Err NewInvalidAdapterError
  | None =>
      match GetAdapter (Driver (cfg_fields cfg)) adapters with
      | Ok a => Ok a
      | Err err => Err (NewAdapterLookupError err)
      | Panic msg => Panic msg
      end
  end.

(** [Connect(cfg, opts...)], run on the adapter registry [adapters] after
    the calls [log]; it yields its result and the log it leaves. *)
Definition Connect `{GoRuntime}
    (cfg : Config) (opts : list (Config -> Config))
    (adapters : gmap string DBAdapter) (log : list event)
    : result Connection * list event :=
  let cfg := apply_options cfg opts in
  match Validate cfg with
  | Some err => (Err (NewConfigValidationError err), log)
  | None =>
      match resolve_adapter cfg adapters with
      | Err e => (Err e, log)
      | Panic msg => (Panic msg, log)
      | Ok adapter =>
          let log1 := (log ++ [ev_Connect (adapter_id adapter)])%list in
          match adapter_Connect adapter (cfg_fields cfg) log with
          | (_, Some err) => (Err (NewAdapterConnectError err), log1)
          | (None, None) => (Panic nil_dereference, log1)
          | (Some conn, None) =>
              let log2 := (log1 ++ [ev_Ping (conn_id conn)])%list in
              match conn_Ping conn log1 with
              | Some err =>
                  let log3 := (log2 ++ [ev_Close (conn_id conn)])%list in
                  (Err (NewConnectionPingError err), log3)
              | None => (Ok conn, log2)
              end
          end
      end
  end.

(** How often a connection was closed in a log. *)
Definition is_close (conn : nat) (e : event) : bool :=
  match e with
  | ev_Close c => Nat.eqb c conn
  | _ => false
  end.

Definition closes (conn : nat) (log : list event) : nat :=
  length (List.filter (is_close conn) log).

(** ** Vocabulary of the statements *)

(** Equality of two strings up to the case of ASCII letters. *)
Definition EqualFold (a b : string) : bool :=
  String.eqb (map_bytes upper_byte a) (map_bytes upper_byte b).

(** The value a model holds once a pointer is followed, as
    [convertModelsToSlice] stores it: [None] for a nil pointer. *)
Definition concrete (v : value) : option value :=
  if is_Ptr (TypeOf v) then Value_Elem v else Some v.

(** The element type of the homogeneous collection built for a target
    type: the target itself, or what it points at. *)
Definition element_type (modelType : rtype) : rtype :=
  if is_Ptr modelType then Type_Elem modelType else modelType.

(** An entity the bridge takes: not nil, not a nil pointer, and of a
    concrete type assignable to the element type. *)
Definition accepted `{TypeInfo} (elemType : rtype) (m : Model) : bool :=
  match m with
  | None => false
  | Some v =>
      match concrete v with
      | None => false
      | Some mv => AssignableTo (TypeOf mv) elemType
      end
  end.

(** The stored form of an accepted entity. *)
Definition stored (m : Model) : value :=
  match m with
  | Some v => match concrete v with Some mv => mv | None => v end
  | None => VNamed "" []
  end.

(** Whether a message holds the decimal form of an index. *)
Definition names_index (msg : string) (i : nat) : bool :=
  match String.index 0 (pretty i) msg with
  | Some _ => true
  | None => false
  end.

(** What [convertModelsToSlice] does at an entity it does not take, met at
    index [i]. *)
Definition rejection `{TypeInfo} (elemType : rtype) (i : nat) (m : Model) : result slice :=
  match m with
  | None => Err (errors_New ("model at index " ++ pretty i ++ " cannot be nil"))
  | Some v =>
      match concrete v with
      | None => Panic "reflect: call of reflect.Value.Type on zero Value"
      | Some mv =>
          Err (errors_New ("model at index " ++ pretty i
                 ++ " is not assignable to expected type " ++ type_String elemType))
      end
  end.

(** An entity of concrete type [name]: a value of that type, or a pointer
    that is not nil to such a value. *)
Definition of_type (name : string) (m : Model) : bool :=
  match m with
  | Some v =>
      match concrete v with
      | Some (VNamed n _) => String.eqb n name
      | _ => false
      end
  | None => false
  end.

(** The content of an entity: the fields of the value behind it. *)
Definition fields_of (m : Model) : option content :=
  match m with
  | Some v =>
      match concrete v with
      | Some (VNamed _ fields) => Some fields
      | _ => None
      end
  | None => None
  end.

(** Strings made of ASCII bytes that are no white space. *)
Fixpoint plain (s : string) : bool :=
  match s with
  | EmptyString => true
  | String c r => is_ascii_byte c && negb (asciiSpace c) && plain r
  end.

Fixpoint all_upper (s : string) : bool :=
  match s with
  | EmptyString => true
  | String c r => is_upper c && all_upper r
  end.

(** The builder a clause operation hands back: the object its result
    points at. *)
Definition built {A : Type} (res : result (ptr * list A)) : option A :=
  match res with
  | Ok (p, h) => h !! p
  | _ => None
  end.


(** What [Create] and [CreateInBatches] make of a conversion that did
    not succeed: the error wrapped and no call to the backend, or the
    panic. *)
Definition conversion_failure (res : result slice) : write_outcome :=
  match res with
  | Err e => ([], Ok (Some (fmt_Errorf_w "failed to convert models: " e)))
  | Panic msg => ([], Panic msg)
  | Ok _ => ([], Ok None)
  end.

(** The registry once an adapter is entered under each name of a list,
    in order. *)
Definition entered {A : Type} (adapter : A) (names : list string)
    (adapters : gmap string A) : gmap string A :=
  foldl (fun m name => <[name := adapter]> m) adapters names.

(** No name of the list is empty. *)
Definition no_empty_name (names : list string) : bool :=
  forallb (fun name => negb (String.eqb name "")) names.

(** ** Test doubles, after the repository's tests *)

Definition double_quote : string := String (ascii_of_nat 34) EmptyString.

(** A runtime for strings of ASCII letters, digits and spaces, which is
    what the examples use: such strings never reach the Unicode tables, and
    quoting them only adds the quotes. *)
Definition ascii_runtime : GoRuntime := {|
  unicode_ToUpper := fun s => s;
  unicode_TrimSpace := fun s => s;
  strconv_Quote := fun s => double_quote +:+ s +:+ double_quote
|}.

(** The types of utils/reflection_test.go: [TestModel] and
    [AnotherTestModel] have a pointer receiver on [SetID], so only their
    pointer types implement [contract.Model]; [ValueModel] stands for a
    type whose methods all have value receivers.  No type is an interface,
    so assignability is identity; [Relationships()] returns nil. *)
Definition TestModel : rtype := TNamed "utils.TestModel".
Definition AnotherTestModel : rtype := TNamed "utils.AnotherTestModel".
Definition ValueModel : rtype := TNamed "utils.ValueModel".

Definition test_types : TypeInfo := {|
  AssignableTo := rtype_eqb;
  implementsModel := fun t =>
    rtype_eqb t (TPtr TestModel) || rtype_eqb t (TPtr AnotherTestModel)
    || rtype_eqb t ValueModel || rtype_eqb t (TPtr ValueModel);
  Relationships := fun _ => ∅
|}.

(** [&TestModel{ID: id, Name: name}] *)
Definition new_TestModel (id name : string) : Model :=
  Some (VPtr TestModel (Some (VNamed "utils.TestModel" [("ID", id); ("Name", name)]))).

(** [ValueModel{ID: id}] *)
Definition a_ValueModel (id : string) : Model :=
  Some (VNamed "utils.ValueModel" [("ID", id)]).

(** A nil pointer to [TestModel], held in the interface. *)
Definition nil_TestModel : Model := Some (VPtr TestModel None).

(** A backend that reports no error. *)
Definition quiet_backend : Backend := {| backend_Error := fun _ => None |}.

Definition empty_DB : gorm_DB := mkDB None [] None None.

(** The repository [conn.NewRepository(&TestModel{})] builds. *)
Definition test_repository : repository :=
  mkRepository (gorm_Model empty_DB (new_TestModel "0" "")) (new_TestModel "0" "").

Definition test_builder : gormQueryBuilder :=
  mkQueryBuilder (gorm_Model empty_DB (new_TestModel "0" "")) (new_TestModel "0" "").

(** [fakeConn] and [fakeAdapter] of db/connection_test.go. *)
Definition fakeConn (pingErr closeErr : option error) : Connection :=
  mkConnection 1 (fun _ => pingErr) (fun _ => closeErr).

Definition fakeAdapter (conn : option Connection) (connectErr : option error) : DBAdapter :=
  mkAdapter 0 "fake" (fun _ _ => (conn, connectErr)).

Definition fake_config : Config :=
  mkConfig (mkFields "fake" "any" "" "" 0 0) None.

(** ** Further code of the same packages *)

(** *** Errors: unwrapping *)

(** [errors.Unwrap]: the [Unwrap] method of [*db.Error] returns its [Err]
    field, an error built with [%w] returns its cause, and an error of
    [errors.New] has no such method. *)
Definition Unwrap (e : error) : option error :=
  match e with
  | errors_New _ => None
  | fmt_Errorf_w _ cause => Some cause
  | db_Error _ _ err => err
  end.

(** *** Package strings: Split *)

(** [strings.Split(s, sep)] for a separator of one ASCII byte: the parts
    between the occurrences of the separator, one part more than there are
    occurrences. *)
Fixpoint Split (s : string) (sep : ascii) : list string :=
  match s with
  | EmptyString => [EmptyString]
  | String c r =>
      if Ascii.eqb c sep then EmptyString :: Split r sep
      else
        match Split r sep with
        | part :: parts => String c part :: parts
        | [] => [String c EmptyString]
        end
  end.

(** *** The gorm adapter: dialects *)

Definition DriverMySQL : string := "mysql".
Definition DriverPostgres : string := "postgres".
Definition DriverSQLite : string := "sqlite".

Definition GormDriverMySQL : string := "gorm:mysql".
Definition GormDriverPostgres : string := "gorm:postgres".
Definition GormDriverSQLite : string := "gorm:sqlite".

Record DialectStrategy : Type := mkDialectStrategy {
  dialectName : string
}.

(** What [mysql.Open], [postgres.Open] and [sqlite.Open] return: a
    dialector that holds the connection string. *)
Inductive Dialector : Type :=
| mysql_Open (dsn : string)
| postgres_Open (dsn : string)
| sqlite_Open (dsn : string).

Definition invalid_driver_format (driver : string) : error :=
  errors_New ("invalid gorm driver format: " ++ driver ++ " (expected 'gorm:dialect')").

Definition NewDialectStrategy (driver : string) : result DialectStrategy :=
  let driverParts := Split driver ":" in
  if negb (Nat.eqb (length driverParts) 2)
  then Err (invalid_driver_format driver)
  else Ok (mkDialectStrategy (nth 1 driverParts EmptyString)).

Definition CreateDialector (g : DialectStrategy) (dsn : string) : result Dialector :=
  if String.eqb (dialectName g) DriverMySQL then Ok (mysql_Open dsn)
  else if String.eqb (dialectName g) DriverPostgres then Ok (postgres_Open dsn)
  else if String.eqb (dialectName g) DriverSQLite then Ok (sqlite_Open dsn)
  else Err (errors_New ("unsupported gorm dialect: " ++ dialectName g)).

Definition ValidateDriver (g : DialectStrategy) (driver : string) : option error :=
  let driverParts := Split driver ":" in
  if negb (Nat.eqb (length driverParts) 2)
  then Some (invalid_driver_format driver)
  else
    let dialectName := nth 1 driverParts EmptyString in
    if String.eqb dialectName DriverMySQL || String.eqb dialectName DriverPostgres
       || String.eqb dialectName DriverSQLite
    then None
    else Some (errors_New ("unsupported gorm dialect: " ++ dialectName)).

(** [ValidateDriverFormat] of package utils. *)
Definition ValidateDriverFormat (driver : string) : result string :=
  let parts := Split driver ":" in
  if negb (Nat.eqb (length parts) 2)
  then Err (invalid_driver_format driver)
  else Ok (nth 1 parts EmptyString).

(** A dialect the adapter has a driver for. *)
Definition supported_dialect (d : string) : bool :=
  String.eqb d DriverMySQL || String.eqb d DriverPostgres || String.eqb d DriverSQLite.

(** The number of occurrences of a byte in a string. *)
Fixpoint occurrences (sep : ascii) (s : string) : nat :=
  match s with
  | EmptyString => 0
  | String c r => (if Ascii.eqb c sep then 1 else 0) + occurrences sep r
  end.

(** *** The connection pool *)

(** [time.Duration] is a number of nanoseconds. *)
Definition time_Second : Z := 1000000000.

Record ConnectionPoolOptions : Type := mkPoolOptions {
  opt_MaxOpenConns : Z;
  opt_MaxIdleConns : Z;
  opt_ConnMaxLifetime : Z
}.

Definition ConnectionPoolOption : Type := ConnectionPoolOptions -> ConnectionPoolOptions.

(** The setters of [*sql.DB] the code calls. *)
Inductive sql_call : Type :=
| SetConnMaxLifetime (d : Z)
| SetMaxIdleConns (n : Z)
| SetMaxOpenConns (n : Z).

Definition withMaxOpenConns (maxConns : Z) : ConnectionPoolOption :=
  fun opts => mkPoolOptions maxConns (opt_MaxIdleConns opts) (opt_ConnMaxLifetime opts).

Definition withMaxIdleConns (maxConns : Z) : ConnectionPoolOption :=
  fun opts => mkPoolOptions (opt_MaxOpenConns opts) maxConns (opt_ConnMaxLifetime opts).

Definition withConnMaxLifetime (lifetime : Z) : ConnectionPoolOption :=
  fun opts => mkPoolOptions (opt_MaxOpenConns opts) (opt_MaxIdleConns opts) lifetime.

(** The setters called for the options as they stand at the end. *)
Definition pool_setters (opts : ConnectionPoolOptions) : list sql_call :=
  (if (0 <? opt_ConnMaxLifetime opts)%Z then [SetConnMaxLifetime (opt_ConnMaxLifetime opts)] else [])
  ++ (if (0 <? opt_MaxIdleConns opts)%Z then [SetMaxIdleConns (opt_MaxIdleConns opts)] else [])
  ++ (if (0 <? opt_MaxOpenConns opts)%Z then [SetMaxOpenConns (opt_MaxOpenConns opts)] else []).

(** [applyConnectionPoolOptions(sqlDB, options...)]: the calls made on
    [sqlDB], in order. *)
Definition applyConnectionPoolOptions (options : list ConnectionPoolOption) : list sql_call :=
  let opts := mkPoolOptions 0 0 (10 * time_Second) in
  let opts := foldl (fun o option => option o) opts options in
  pool_setters opts.

(** [configFromOptions(cfg)].  The field [ConnMaxLifetime] of the
    configuration, which [ConfigFields] leaves out, is passed beside it. *)
Definition configFromOptions (cfg : ConfigFields) (ConnMaxLifetime : Z)
    : list ConnectionPoolOption :=
  (if (0 <? MaxOpenConns cfg)%Z then [withMaxOpenConns (MaxOpenConns cfg)] else [])
  ++ (if (0 <? MaxIdleConns cfg)%Z then [withMaxIdleConns (MaxIdleConns cfg)] else [])
  ++ (if (0 <? ConnMaxLifetime)%Z then [withConnMaxLifetime ConnMaxLifetime] else []).

(** [ConfigureConnectionPool(sqlDB, cfg)] of package utils: the calls made
    on [sqlDB], in order. *)
Definition ConfigureConnectionPool (cfg : ConfigFields) (ConnMaxLifetime : Z) : list sql_call :=
  let defaultConnMaxLifetime := (10 * time_Second)%Z in
  let lifetime := if (0 <? ConnMaxLifetime)%Z then ConnMaxLifetime else defaultConnMaxLifetime in
  [SetConnMaxLifetime lifetime]
  ++ (if (0 <? MaxIdleConns cfg)%Z then [SetMaxIdleConns (MaxIdleConns cfg)] else [])
  ++ (if (0 <? MaxOpenConns cfg)%Z then [SetMaxOpenConns (MaxOpenConns cfg)] else []).

(** The options the package builds, by the setting they write. *)
Inductive pool_setting : Type :=
| set_MaxOpenConns (maxConns : Z)
| set_MaxIdleConns (maxConns : Z)
| set_ConnMaxLifetime (lifetime : Z).

Definition pool_option (s : pool_setting) : ConnectionPoolOption :=
  match s with
  | set_MaxOpenConns maxConns => withMaxOpenConns maxConns
  | set_MaxIdleConns maxConns => withMaxIdleConns maxConns
  | set_ConnMaxLifetime lifetime => withConnMaxLifetime lifetime
  end.

Definition written_MaxOpenConns (s : pool_setting) : option Z :=
  match s with set_MaxOpenConns n => Some n | _ => None end.

Definition written_MaxIdleConns (s : pool_setting) : option Z :=
  match s with set_MaxIdleConns n => Some n | _ => None end.

Definition written_ConnMaxLifetime (s : pool_setting) : option Z :=
  match s with set_ConnMaxLifetime d => Some d | _ => None end.

(** The value of a setting after a list of options: what the last
    option that writes the setting gives it, and [initial] when no option
    of the list writes it. *)
Definition last_written (written : pool_setting -> option Z) (initial : Z)
    (settings : list pool_setting) : Z :=
  default initial (last (omap written settings)).

(** The argument of a setter call. *)
Definition sql_argument (c : sql_call) : Z :=
  match c with
  | SetConnMaxLifetime d => d
  | SetMaxIdleConns n => n
  | SetMaxOpenConns n => n
  end.

(** *** Package utils: validators *)

Definition ValidateConfigForMigration `{GoRuntime} (cfg : ConfigFields) : option error :=
  if String.eqb (TrimSpace (MigrationsPath cfg)) "" then Some (errors_New "migrations path is required")
  else if String.eqb (TrimSpace (DSN cfg)) "" then Some (errors_New "database dsn is required")
  else if String.eqb (TrimSpace (Driver cfg)) "" then Some (errors_New "database driver is required")
  else None.

(** The loop of [ValidateModelsSlice], from index [i] on; an element of
    the slice of [interface{}] is nil ([None]) or holds a value. *)
Fixpoint ValidateModelsSlice_loop {A : Type}
    (i : nat) (models : list (option A)) (operation : string) : option error :=
  match models with
  | [] => None
  | model :: rest =>
      match model with
      | None =>
          Some (errors_New ("model at index " ++ pretty i ++ " cannot be nil for "
                  ++ operation ++ " operation"))
      | Some _ => ValidateModelsSlice_loop (S i) rest operation
      end
  end.

Definition ValidateModelsSlice {A : Type} (models : list (option A)) (operation : string)
    : option error :=
  if Nat.eqb (length models) 0
  then Some (errors_New ("models slice cannot be empty for " ++ operation ++ " operation"))
  else ValidateModelsSlice_loop 0 models operation.

(** [ValidateModelsSliceForOperation], which takes the empty slice. *)
Definition ValidateModelsSliceForOperation (models : list Model) (operation : string)
    : option error :=
  if Nat.eqb (length models) 0 then None
  else ValidateModelsSlice_loop 0 models operation.

(** *** Package contract: relationships *)

(** The four relationship structs, each with its fields. *)
Inductive Relationship : Type :=
| HasOneRelationship (related : Model) (foreignKey ownerKey : string)
| HasManyRelationship (related : Model) (foreignKey ownerKey : string)
| BelongsToRelationship (related : Model) (foreignKey ownerKey : string)
| BelongsToManyRelationship (related : Model) (joinTable : string).

Definition NewHasOne (related : Model) (foreignKey ownerKey : string) : Relationship :=
  HasOneRelationship related foreignKey ownerKey.

Definition NewHasMany (related : Model) (foreignKey ownerKey : string) : Relationship :=
  HasManyRelationship related foreignKey ownerKey.

Definition NewBelongsTo (related : Model) (foreignKey ownerKey : string) : Relationship :=
  BelongsToRelationship related foreignKey ownerKey.

Definition NewBelongsToMany (related : Model) (joinTable : string) : Relationship :=
  BelongsToManyRelationship related joinTable.

Definition Relationship_Type (r : Relationship) : string :=
  match r with
  | HasOneRelationship _ _ _ => HasOne
  | HasManyRelationship _ _ _ => HasMany
  | BelongsToRelationship _ _ _ => BelongsTo
  | BelongsToManyRelationship _ _ => BelongsToMany
  end.

Definition RelatedModel (r : Relationship) : Model :=
  match r with
  | HasOneRelationship related _ _ => related
  | HasManyRelationship related _ _ => related
  | BelongsToRelationship related _ _ => related
  | BelongsToManyRelationship related _ => related
  end.

Definition ForeignKey (r : Relationship) : string :=
  match r with
  | HasOneRelationship _ foreignKey _ => foreignKey
  | HasManyRelationship _ foreignKey _ => foreignKey
  | BelongsToRelationship _ foreignKey _ => foreignKey
  | BelongsToManyRelationship _ _ => ""
  end.

Definition OwnerKey (r : Relationship) : string :=
  match r with
  | HasOneRelationship _ _ ownerKey => ownerKey
  | HasManyRelationship _ _ ownerKey => ownerKey
  | BelongsToRelationship _ _ ownerKey => ownerKey
  | BelongsToManyRelationship _ _ => ""
  end.

Definition ManyToManyJoinTable (r : Relationship) : string :=
  match r with
  | BelongsToManyRelationship _ joinTable => joinTable
  | _ => ""
  end.

(** *** utils.go: the reflection helpers of the read path *)

(** [createEntityFromModel].  [reflect.TypeOf(model).Elem()] panics for a
    struct type, and for a nil interface there is no type to ask;
    [reflect.New(t).Interface()] is a pointer to the zero value of [t]. *)
Definition createEntityFromModel `{TypeInfo} (model : Model) : result value :=
  match model with
  | None => Panic nil_dereference
  | Some v =>
      match TypeOf v with
      | TNamed _ => Panic ("reflect: Elem of invalid type " ++ type_String (TypeOf v))
      | TPtr elem =>
          let newInstance := VPtr elem (Some (zero_value elem)) in
          match assert_Model newInstance with
          | Some result => Ok result
          | None => Err (errors_New "failed to assert created instance to contract.Model")
          end
      end
  end.

(** [createSliceOfModelType]: a pointer to an empty slice of pointers;
    the slice it points at is what the executor fills. *)
Definition createSliceOfModelType (modelType : rtype) : slice :=
  mkSlice (TPtr modelType) [].

(** [executeQueryAndConvertToModels]; the executor gets the destination
    and yields its error and the destination as it leaves it. *)
Definition executeQueryAndConvertToModels `{TypeInfo}
    (model : Model) (queryExecutor : slice -> option error * slice) : result (list Model) :=
  match getModelType model with
  | Panic msg => Panic msg
  | Err e => Err e
  | Ok modelType =>
      let dest := createSliceOfModelType modelType in
      match queryExecutor dest with
      | (Some err, _) => Err err
      | (None, val) => convertSliceToModels val
      end
  end.

Definition handleFindOrFailError (model : Model) (err : option error) : Model * option error :=
  match err with
  | Some e => (None, Some e)
  | None =>
      match model with
      | None => (None, Some (errors_New "record not found"))
      | Some _ => (model, None)
      end
  end.

(** *** The repository: read and write operations *)

(** The methods of a model the repository calls.  They are code of the
    model's package: here they return for every receiver. *)
Class ModelMethods : Type := {
  PrimaryKey : value -> string;
  GetID : value -> any
}.

(** The finishers the further operations reach, with the handle they
    are called on. *)
Inductive store_call : Type :=
| call_First (tx : gorm_DB) (dest : value) (conds : list any)
| call_Find (tx : gorm_DB) (dest : slice)
| call_Updates (tx : gorm_DB) (values : Model)
| call_Delete (tx : gorm_DB) (v : gorm_value).

(** What the backend answers: the [Error] field a finisher leaves,
    whether an error is [gorm.ErrRecordNotFound] for [errors.Is], the
    fields [First] decodes into its destination and the rows [Find]
    appends to its destination. *)
Class Store : Type := {
  store_Error : store_call -> option error;
  is_ErrRecordNotFound : error -> bool;
  store_fields : store_call -> content;
  store_rows : store_call -> list value
}.

(** [db.ErrRecordNotFound] *)
Definition ErrRecordNotFound : error := errors_New "record not found".

(** The destination of [First] once the backend has decoded a row into
    it. *)
Definition decoded (dest : value) (fields : content) : value :=
  match dest with
  | VPtr elem (Some (VNamed name _)) => VPtr elem (Some (VNamed name fields))
  | _ => dest
  end.

(** The body shared by [Find] ([conds] is the id) and [First] (no
    condition). *)
Definition repository_first `{TypeInfo} `{Store}
    (rv : repository) (conds : list any) : list store_call * result (Model * option error) :=
  match createEntityFromModel (repo_mdl rv) with
  | Panic msg => ([], Panic msg)
  | Err err =>
      ([], Ok (None, Some (fmt_Errorf_w "failed to create entity from model: " err)))
  | Ok entity =>
      let c := call_First (repo_db rv) entity conds in
      let err := store_Error c in
      match err with
      | Some e =>
          if is_ErrRecordNotFound e then ([c], Ok (None, None))
          else ([c], Ok (Some (decoded entity (store_fields c)), err))
      | None => ([c], Ok (Some (decoded entity (store_fields c)), err))
      end
  end.

Definition repository_Find `{TypeInfo} `{Store} (rv : repository) (id : any) :=
  repository_first rv [id].

Definition repository_First `{TypeInfo} `{Store} (rv : repository) :=
  repository_first rv [].

Definition repository_FindOrFail `{TypeInfo} `{Store} (rv : repository) (id : any)
    : list store_call * result (Model * option error) :=
  match repository_Find rv id with
  | (calls, Ok (model, err)) => (calls, Ok (handleFindOrFailError model err))
  | other => other
  end.

Definition repository_FirstOrFail `{TypeInfo} `{Store} (rv : repository)
    : list store_call * result (Model * option error) :=
  match repository_First rv with
  | (calls, Ok (model, err)) => (calls, Ok (handleFindOrFailError model err))
  | other => other
  end.

Definition repository_Get `{TypeInfo} `{Store} (rv : repository) : result (list Model) :=
  let queryExecutor := fun dest : slice =>
    let c := call_Find (repo_db rv) dest in
    (store_Error c, mkSlice (slice_elem dest) (slice_items dest ++ store_rows c)) in
  executeQueryAndConvertToModels (repo_mdl rv) queryExecutor.

(** The update of one model: the handle narrowed to the row with the
    model's primary key, and [Updates] on it. *)
Definition update_call `{ModelMethods} (rv : repository) (model : value) : store_call :=
  call_Updates
    (gorm_Where (gorm_Model (repo_db rv) (Some model))
       (any_string (PrimaryKey model ++ " = ?")) [GetID model])
    (Some model).

(** The loop of [Update] over several models: the calls made and the
    error returned. *)
Fixpoint repository_Update_loop `{ModelMethods} `{Store}
    (rv : repository) (models : list Model) : list store_call * option error :=
  match models with
  | [] => ([], None)
  | model :: rest =>
      match model with
      | None => ([], Some (errors_New "model cannot be nil"))
      | Some v =>
          let c := update_call rv v in
          match store_Error c with
          | Some err => ([c], Some err)
          | None =>
              let '(calls, res) := repository_Update_loop rv rest in
              (c :: calls, res)
          end
      end
  end.

Definition repository_Update `{ModelMethods} `{Store}
    (rv : repository) (models : list Model) : list store_call * option error :=
  match models with
  | [] => ([], None)
  | [model] =>
      match model with
      | None => ([], Some (errors_New "model cannot be nil"))
      | Some v => let c := update_call rv v in ([c], store_Error c)
      end
  | _ => repository_Update_loop rv models
  end.

(** The body shared by [Delete] and [ForceDelete], which differ by the
    handle the finisher is called on. *)
Definition repository_delete_on `{TypeInfo} `{Store}
    (tx : gorm_DB) (rv : repository) (models : list Model)
    : list store_call * result (option error) :=
  match models with
  | [] => ([], Ok None)
  | [model] =>
      match model with
      | None => ([], Ok (Some (errors_New "model cannot be nil")))
      | Some _ =>
          let c := call_Delete tx (value_model model) in
          ([c], Ok (store_Error c))
      end
  | _ =>
      match repository_convertModelsToSlice rv models with
      | Err e => ([], Ok (Some (fmt_Errorf_w "failed to convert models: " e)))
      | Panic msg => ([], Panic msg)
      | Ok s =>
          let c := call_Delete tx (value_slice s) in
          ([c], Ok (store_Error c))
      end
  end.

Definition repository_Delete `{TypeInfo} `{Store} (rv : repository) (models : list Model) :=
  repository_delete_on (repo_db rv) rv models.

Definition repository_ForceDelete `{TypeInfo} `{Store} (rv : repository) (models : list Model) :=
  repository_delete_on (gorm_Unscoped (repo_db rv)) rv models.

(** *** The repository's query builder *)

(** The connection handed to a factory, of static type [any]. *)
Inductive connection_any : Type :=
| connection_gorm (db : gorm_DB)
| connection_other.

(** A [contract.QueryBuilderFactory] whose builders are those of this
    package. *)
Record QueryBuilderFactory : Type := mkFactory {
  factory_Name : string;
  factory_NewQueryBuilder :
    Model -> connection_any -> list gormQueryBuilder -> result (ptr * list gormQueryBuilder)
}.

(** [newGormQueryBuilder] with its type assertion on the connection. *)
Definition newGormQueryBuilder_any (model : Model) (connection : connection_any)
    (h : list gormQueryBuilder) : result (ptr * list gormQueryBuilder) :=
  match connection with
  | connection_gorm gormDB => Ok (newGormQueryBuilder model gormDB h)
  | connection_other => Panic "connection must be a *gorm.DB instance"
  end.

Definition GormQueryBuilderFactory : QueryBuilderFactory :=
  mkFactory "gorm" newGormQueryBuilder_any.


(** [Register()] of the adapter package: once, the adapter under its four
    names and the factory under "gorm".  The state is the flag of
    [registerOnce] and the two registries. *)
Definition gorm_Register {A : Type} (adapter : A)
    (st : bool * gmap string A * gmap string QueryBuilderFactory)
    : bool * gmap string A * gmap string QueryBuilderFactory :=
  let '(done, adapters, factories) := st in
  if done then st
  else
    let adapters :=
      (RegisterAdapter (Some adapter)
         ["gorm"; GormDriverMySQL; GormDriverPostgres; GormDriverSQLite] adapters).1 in
    let factories :=
      (queryBuilderRegistry_Register "gorm" (Some GormQueryBuilderFactory) factories).1 in
    (true, adapters, factories).

(** *** Further test doubles *)

(** A backend that has two rows of [TestModel] for every query. *)
Definition two_rows_store : Store := {|
  store_Error := fun _ => None;
  is_ErrRecordNotFound := fun _ => false;
  store_fields := fun _ => [("ID", "1"); ("Name", "a")];
  store_rows := fun _ =>
    [VPtr TestModel (Some (VNamed "utils.TestModel" [("ID", "1"); ("Name", "a")]));
     VPtr TestModel (Some (VNamed "utils.TestModel" [("ID", "2"); ("Name", "b")]))]
|}.


(** A backend that finds no record. *)
Definition no_record_store : Store := {|
  store_Error := fun _ => Some (errors_New "record not found");
  is_ErrRecordNotFound := fun _ => true;
  store_fields := fun _ => [];
  store_rows := fun _ => []
|}.


(** [&TestModel{ID: id, Name: name}] as a value. *)
Definition test_row (id name : string) : value :=
  VPtr TestModel (Some (VNamed "utils.TestModel" [("ID", id); ("Name", name)])).

Fixpoint field (name : string) (fields : content) : string :=
  match fields with
  | [] => ""
  | (k, v) :: rest => if String.eqb k name then v else field name rest
  end.

(** The methods of the test models: the primary key is "id" and [GetID]
    returns the field [ID]. *)
Definition test_methods : ModelMethods := {|
  PrimaryKey := fun _ => "id";
  GetID := fun v =>
    match Value_Elem v with
    | Some (VNamed _ fields) => any_string (field "ID" fields)
    | _ => any_string ""
    end
|}.

(** The heap after [gorm.Open]: one handle, whose counter is 1. *)
Definition opened_heap : Shared.heap :=
  Shared.mkHeap [Shared.mkHandle empty_DB 1] [] [].

(** The heap with, beside the opened handle, a repository and a query
    builder for [&TestModel{}], each on a handle of its own. *)
Definition shared_heap : Shared.heap :=
  Shared.mkHeap
    [Shared.mkHandle empty_DB 1;
     Shared.mkHandle (gorm_Model empty_DB (new_TestModel "0" "")) 0;
     Shared.mkHandle (gorm_Model empty_DB (new_TestModel "0" "")) 0]
    [Shared.mkRepository 1 (new_TestModel "0" "")]
    [Shared.mkQueryBuilder 2 (new_TestModel "0" "")].

(** Types whose models describe the relation "Profile" and hold a nil
    descriptor for "Broken". *)
Definition broken_relation_types : TypeInfo := {|
  AssignableTo := rtype_eqb;
  implementsModel := fun t => rtype_eqb t (TPtr TestModel);
  Relationships := fun _ => <["Profile" := Some HasOne]> (<["Broken" := None]> ∅)
|}.

(* ===================================================================== *)
(** * Part II: lemmas and theorems                                        *)
(* ===================================================================== *)

(** ** Bytes *)

Ltac each_byte c :=
  destruct c as [[] [] [] [] [] [] [] []]; vm_compute; try discriminate; auto.

Lemma ident_start_is_ident_char (c : ascii) :
  ident_start c = true -> ident_char c = true.
Proof.
  unfold ident_start, ident_char.
  destruct (is_lower c), (is_upper c), (is_digit c); simpl; auto.
Qed.

Lemma ident_char_is_no_dot (c : ascii) :
  ident_char c = true -> is_dot c = false.
Proof. each_byte c. Qed.

Lemma upper_letter_source (c : ascii) :
  is_upper (upper_byte c) = true ->
  is_ascii_byte c = true /\ asciiSpace c = false.
Proof. each_byte c. Qed.

(** ** The matcher decides what a pattern denotes *)

Lemma append_empty (s1 s2 : string) :
  s1 +:+ s2 = EmptyString -> s1 = EmptyString /\ s2 = EmptyString.
Proof. destruct s1; simpl; [auto|discriminate]. Qed.

Lemma append_cons (s1 s2 : string) (c : ascii) (s : string) :
  s1 +:+ s2 = String c s ->
  (s1 = EmptyString /\ s2 = String c s) \/
  (exists s1', s1 = String c s1' /\ s = s1' +:+ s2).
Proof.
  destruct s1 as [|c1 s1]; simpl; intros H.
  - left. auto.
  - right. injection H as -> <-. eauto.
Qed.

Lemma nullable_matches (r : regex) : nullable r = true <-> matches r EmptyString.
Proof.
  split.
  - induction r as [| |p|r1 IH1 r2 IH2|r1 IH1 r2 IH2|r IH]; simpl; intros H;
      try discriminate.
    + constructor.
    + apply andb_prop in H as [H1 H2].
      exact (matches_Cat r1 r2 EmptyString EmptyString (IH1 H1) (IH2 H2)).
    + apply orb_prop in H as [H|H];
        [apply matches_Alt_l | apply matches_Alt_r]; auto.
    + constructor.
  - intros H. remember EmptyString as w eqn:Hw.
    induction H as [|p c Hp|r1 r2 s1 s2 H1 IH1 H2 IH2|r1 r2 s H IH|r1 r2 s H IH
                    |r|r s1 s2 H1 IH1 H2 IH2]; simpl; auto.
    + discriminate.
    + apply append_empty in Hw as [-> ->]. rewrite IH1, IH2; auto.
    + rewrite IH; auto.
    + rewrite IH; auto using orb_true_r.
Qed.

Lemma deriv_sound (c : ascii) (r : regex) :
  forall s, matches (deriv c r) s -> matches r (String c s).
Proof.
  induction r as [| |p|r1 IH1 r2 IH2|r1 IH1 r2 IH2|r IH]; simpl; intros s H.
  - inversion H.
  - inversion H.
  - destruct (p c) eqn:Hp; inversion H; subst. constructor. exact Hp.
  - assert (Hleft : forall t, matches (Cat (deriv c r1) r2) t -> matches (Cat r1 r2) (String c t)).
    { intros t Ht. inversion Ht as [| |? ? s1 s2 H1 H2| | | |]; subst.
      exact (matches_Cat r1 r2 (String c s1) s2 (IH1 s1 H1) H2). }
    destruct (nullable r1) eqn:Hn; [|auto].
    inversion H as [| | |? ? ? Hl|? ? ? Hr| |]; subst; [auto|].
    apply nullable_matches in Hn.
    exact (matches_Cat r1 r2 EmptyString (String c s) Hn (IH2 s Hr)).
  - inversion H; subst; [apply matches_Alt_l | apply matches_Alt_r]; auto.
  - inversion H as [| |? ? s1 s2 H1 H2| | | |]; subst.
    exact (matches_Star_more r (String c s1) s2 (IH s1 H1) H2).
Qed.

Lemma deriv_complete (c : ascii) (r : regex) (w : string) :
  matches r w -> forall s, w = String c s -> matches (deriv c r) s.
Proof.
  intros H.
  induction H as [|p c' Hp|r1 r2 s1 s2 H1 IH1 H2 IH2|r1 r2 t H IH|r1 r2 t H IH
                  |r|r s1 s2 H1 IH1 H2 IH2]; intros s Hw; simpl.
  - discriminate.
  - injection Hw as -> <-. rewrite Hp. constructor.
  - destruct (append_cons s1 s2 c s Hw) as [[-> ->]|(s1' & -> & ->)].
    + rewrite (proj2 (nullable_matches r1) H1).
      apply matches_Alt_r. apply IH2. reflexivity.
    + pose proof (matches_Cat (deriv c r1) r2 s1' s2 (IH1 s1' eq_refl) H2) as Hcat.
      destruct (nullable r1); [apply matches_Alt_l|]; exact Hcat.
  - apply matches_Alt_l. auto.
  - apply matches_Alt_r. auto.
  - discriminate.
  - destruct (append_cons s1 s2 c s Hw) as [[-> ->]|(s1' & -> & ->)].
    + apply IH2. reflexivity.
    + exact (matches_Cat (deriv c r) (Star r) s1' s2 (IH1 s1' eq_refl) H2).
Qed.

(** [MatchString] returns true exactly on the strings the pattern
    denotes. *)
Lemma MatchString_matches (s : string) :
  forall r, MatchString r s = true <-> matches r s.
Proof.
  induction s as [|c s IH]; intros r; simpl.
  - apply nullable_matches.
  - rewrite IH. split.
    + apply deriv_sound.
    + intros H. exact (deriv_complete c r (String c s) H s eq_refl).
Qed.

(** ** The matcher on [validColumnNameRegex] *)

Lemma MatchString_Never (s : string) : MatchString Never s = false.
Proof. induction s as [|c s IH]; simpl; auto. Qed.

Lemma MatchString_Alt (a b : regex) (s : string) :
  MatchString (Alt a b) s = MatchString a s || MatchString b s.
Proof.
  revert a b. induction s as [|c s IH]; intros a b; simpl; auto.
Qed.

Lemma MatchString_Cat_Never (r : regex) (s : string) :
  MatchString (Cat Never r) s = false.
Proof. induction s as [|c s IH]; simpl; auto. Qed.

Lemma MatchString_Cat_Cat_Never (x r : regex) (s : string) :
  MatchString (Cat (Cat Never x) r) s = false.
Proof. induction s as [|c s IH]; simpl; auto. Qed.

Lemma MatchString_Cat_Alt (a b r : regex) (s : string) :
  MatchString (Cat (Alt a b) r) s = MatchString (Cat a r) s || MatchString (Cat b r) s.
Proof.
  revert a b. induction s as [|c s IH]; intros a b; simpl.
  - destruct (nullable a), (nullable b), (nullable r); reflexivity.
  - destruct (nullable a), (nullable b); simpl;
      rewrite ?MatchString_Alt, ?IH;
      destruct (MatchString (Cat (deriv c a) r) s),
               (MatchString (Cat (deriv c b) r) s),
               (MatchString (deriv c r) s); reflexivity.
Qed.

Lemma MatchString_Cat_Cat_Eps (x r : regex) (s : string) :
  MatchString (Cat (Cat Eps x) r) s = MatchString (Cat x r) s.
Proof.
  destruct s as [|c s]; simpl; [reflexivity|].
  destruct (nullable x); simpl;
    rewrite ?MatchString_Alt, ?MatchString_Cat_Alt, ?MatchString_Cat_Cat_Never;
    reflexivity.
Qed.

Lemma MatchString_states (s : string) :
  MatchString validColumnNameRegex s = safe_identifier_from false s /\
  MatchString inside_identifier s = safe_identifier_from true s.
Proof.
  induction s as [|c s [IH0 IH1]]; [split; reflexivity|].
  split.
  - change (MatchString validColumnNameRegex (String c s))
      with (MatchString
              (Cat (Cat (if ident_start c then Eps else Never) (Star (Class ident_char)))
                   (Star (Cat (Class is_dot) identifier_re))) s).
    simpl. destruct (ident_start c).
    + rewrite MatchString_Cat_Cat_Eps. exact IH1.
    + apply MatchString_Cat_Cat_Never.
  - change (MatchString inside_identifier (String c s))
      with (MatchString
              (Alt (Cat (Cat (if ident_char c then Eps else Never) (Star (Class ident_char)))
                        (Star (Cat (Class is_dot) identifier_re)))
                   (Cat (Cat (if is_dot c then Eps else Never) identifier_re)
                        (Star (Cat (Class is_dot) identifier_re)))) s).
    rewrite MatchString_Alt. simpl.
    destruct (ident_char c) eqn:Hc.
    + rewrite (ident_char_is_no_dot c Hc).
      rewrite MatchString_Cat_Cat_Eps, MatchString_Cat_Cat_Never, orb_false_r.
      exact IH1.
    + rewrite MatchString_Cat_Cat_Never. simpl.
      destruct (is_dot c).
      * rewrite MatchString_Cat_Cat_Eps. exact IH0.
      * apply MatchString_Cat_Cat_Never.
Qed.

(** The pattern accepts exactly the dot-separated identifiers. *)
Lemma validateColumnName_safe_identifier (column : string) :
  validateColumnName column = safe_identifier column.
Proof. apply MatchString_states. Qed.

Lemma validateColumnName_matches (column : string) :
  validateColumnName column = true <-> matches validColumnNameRegex column.
Proof. apply MatchString_matches. Qed.

(** ** Upper-casing and trimming *)

Lemma plain_isASCII (s : string) : plain s = true -> isASCII s = true.
Proof.
  induction s as [|c s IH]; simpl; [reflexivity|].
  intros H. apply andb_prop in H as [H1 H2]. apply andb_prop in H1 as [H0 _].
  rewrite H0. simpl. auto.
Qed.

Lemma plain_trim_left (s : string) : plain s = true -> trim_left s = s.
Proof.
  destruct s as [|c s]; simpl; [reflexivity|].
  intros H. apply andb_prop in H as [H1 _]. apply andb_prop in H1 as [_ Hs].
  apply negb_true_iff in Hs. rewrite Hs. reflexivity.
Qed.

Lemma plain_trim_right (s : string) : plain s = true -> trim_right s = s.
Proof.
  induction s as [|c s IH]; simpl; [reflexivity|].
  intros H. apply andb_prop in H as [H1 H2]. apply andb_prop in H1 as [_ Hs].
  apply negb_true_iff in Hs. rewrite (IH H2), Hs.
  destruct s; reflexivity.
Qed.

Lemma upper_image_plain (d w : string) :
  all_upper w = true -> map_bytes upper_byte d = w -> plain d = true.
Proof.
  revert w. induction d as [|c d IH]; intros w Hw Hd; simpl; [reflexivity|].
  destruct w as [|x w]; simpl in Hd; [discriminate|].
  injection Hd as Hc Hd. simpl in Hw. apply andb_prop in Hw as [Hx Hw].
  rewrite <- Hc in Hx. destruct (upper_letter_source c Hx) as [Ha Hs].
  rewrite Ha, Hs. simpl. eapply IH; eauto.
Qed.

Section Directions.
Context `{R : GoRuntime}.

(** A direction that is a word of upper-case letters up to case goes
    through [TrimSpace] untouched and [ToUpper] yields the word. *)
Lemma ToUpper_TrimSpace_word (d w : string) :
  all_upper w = true ->
  map_bytes upper_byte d = w ->
  ToUpper (TrimSpace d) = w.
Proof.
  intros Hw Hd. pose proof (upper_image_plain d w Hw Hd) as Hp.
  unfold TrimSpace. rewrite (plain_isASCII d Hp).
  rewrite (plain_trim_left d Hp), (plain_trim_right d Hp).
  unfold ToUpper. rewrite (plain_isASCII d Hp). exact Hd.
Qed.

Lemma validateOrderDirection_cases (direction : string) :
  validateOrderDirection direction "ASC" =
    if String.eqb (ToUpper (TrimSpace direction)) "DESC" then "DESC" else "ASC".
Proof.
  unfold validateOrderDirection.
  destruct (String.eqb (ToUpper (TrimSpace direction)) "ASC") eqn:Ha;
    destruct (String.eqb (ToUpper (TrimSpace direction)) "DESC") eqn:Hd; simpl.
  - apply String.eqb_eq in Ha, Hd. congruence.
  - apply String.eqb_eq in Ha. exact Ha.
  - apply String.eqb_eq in Hd. exact Hd.
  - reflexivity.
Qed.

Lemma validateOrderDirection_EqualFold_ASC (direction : string) :
  EqualFold direction "ASC" = true ->
  validateOrderDirection direction "ASC" = "ASC".
Proof.
  intros H. apply String.eqb_eq in H.
  rewrite validateOrderDirection_cases.
  rewrite (ToUpper_TrimSpace_word direction "ASC" eq_refl H). reflexivity.
Qed.

Lemma validateOrderDirection_EqualFold_DESC (direction : string) :
  EqualFold direction "DESC" = true ->
  validateOrderDirection direction "ASC" = "DESC".
Proof.
  intros H. apply String.eqb_eq in H.
  rewrite validateOrderDirection_cases.
  rewrite (ToUpper_TrimSpace_word direction "DESC" eq_refl H). reflexivity.
Qed.

End Directions.

(** ** The bridge *)

Lemma first_rejected {A : Type} (p : A -> bool) (l : list A) :
  forallb p l = true \/
  exists pre m post, l = (pre ++ m :: post)%list /\ forallb p pre = true /\ p m = false.
Proof.
  induction l as [|x l IH]; simpl; [left; reflexivity|].
  destruct (p x) eqn:Hx; simpl.
  - destruct IH as [IH|(pre & m & post & -> & Hpre & Hm)]; [left; exact IH|].
    right. exists (x :: pre), m, post. simpl. rewrite Hx. auto.
  - right. exists [], x, l. auto.
Qed.

Section Bridge.
Context `{T : TypeInfo}.

Lemma convertModelsToSlice_loop_accepts (elemType : rtype) (models : list Model) :
  forall done : list value,
  forallb (accepted elemType) models = true ->
  convertModelsToSlice_loop elemType (length done) models
    (mkSlice elemType (done ++ replicate (length models) (zero_value elemType)))
  = Ok (mkSlice elemType (done ++ map stored models)).
Proof.
  induction models as [|m models IH]; intros done Hall; simpl.
  - reflexivity.
  - simpl in Hall. apply andb_prop in Hall as [Hm Hall].
    destruct m as [v|]; [|discriminate]. unfold accepted in Hm.
    fold (concrete v). simpl. destruct (concrete v) as [mv|] eqn:Hv; [|discriminate].
    rewrite Hm. simpl. unfold Index_Set. simpl.
    rewrite insert_app_r_alt by lia. rewrite Nat.sub_diag. simpl.
    specialize (IH (done ++ [mv]) Hall).
    rewrite length_app in IH. simpl in IH. rewrite Nat.add_1_r in IH.
    rewrite <- !app_assoc in IH. simpl in IH. exact IH.
Qed.

Lemma convertModelsToSlice_loop_rejects (elemType : rtype)
    (pre : list Model) (m : Model) (post : list Model) :
  forall (i : nat) (s : slice),
  forallb (accepted elemType) pre = true ->
  accepted elemType m = false ->
  convertModelsToSlice_loop elemType i (pre ++ m :: post) s
  = rejection elemType (i + length pre) m.
Proof.
  induction pre as [|x pre IH]; intros i s Hpre Hm; simpl.
  - rewrite Nat.add_0_r. unfold rejection. destruct m as [v|]; [|reflexivity].
    unfold accepted in Hm. fold (concrete v).
    destruct (concrete v) as [mv|]; [|reflexivity].
    rewrite Hm. reflexivity.
  - simpl in Hpre. apply andb_prop in Hpre as [Hx Hpre].
    destruct x as [v|]; [|discriminate]. unfold accepted in Hx.
    fold (concrete v). destruct (concrete v) as [mv|]; [|discriminate].
    rewrite Hx. simpl. rewrite (IH (S i) _ Hpre Hm).
    f_equal. lia.
Qed.

(** A list of accepted entities that is not empty is converted, element
    by element, to what each entity holds. *)
Lemma convertModelsToSlice_accepts (models : list Model) (modelType : rtype) :
  models <> [] ->
  forallb (accepted (element_type modelType)) models = true ->
  convertModelsToSlice models modelType
  = Ok (mkSlice (element_type modelType) (map stored models)).
Proof.
  intros Hne Hall. unfold convertModelsToSlice.
  destruct models as [|m models]; [congruence|].
  change (Nat.eqb (length (m :: models)) 0) with false. cbv iota.
  fold (element_type modelType). unfold MakeSlice.
  exact (convertModelsToSlice_loop_accepts (element_type modelType) (m :: models) [] Hall).
Qed.

(** The first entity that is not accepted decides the outcome. *)
Lemma convertModelsToSlice_rejects
    (pre : list Model) (m : Model) (post : list Model) (modelType : rtype) :
  forallb (accepted (element_type modelType)) pre = true ->
  accepted (element_type modelType) m = false ->
  convertModelsToSlice (pre ++ m :: post) modelType
  = rejection (element_type modelType) (length pre) m.
Proof.
  intros Hpre Hm. unfold convertModelsToSlice.
  replace (Nat.eqb (length (pre ++ m :: post)) 0) with false
    by (rewrite length_app; simpl; symmetry; apply Nat.eqb_neq; lia).
  cbv iota. fold (element_type modelType).
  exact (convertModelsToSlice_loop_rejects _ pre m post 0 _ Hpre Hm).
Qed.

Lemma convertSliceToModels_loop_accepts (items : list value) :
  forall done : list Model,
  forallb (fun item => implementsModel (TypeOf item)) items = true ->
  convertSliceToModels_loop (length done) items
    (done ++ replicate (length items) (None : Model))
  = Ok (done ++ map Some items).
Proof.
  induction items as [|item items IH]; intros done Hall; simpl.
  - reflexivity.
  - simpl in Hall. apply andb_prop in Hall as [Hi Hall].
    unfold assert_Model. rewrite Hi.
    rewrite insert_app_r_alt by lia. rewrite Nat.sub_diag. simpl.
    specialize (IH (done ++ [Some item]) Hall).
    rewrite length_app in IH. simpl in IH. rewrite Nat.add_1_r in IH.
    rewrite <- !app_assoc in IH. simpl in IH. exact IH.
Qed.

Lemma convertSliceToModels_accepts (s : slice) :
  forallb (fun item => implementsModel (TypeOf item)) (slice_items s) = true ->
  convertSliceToModels s = Ok (map Some (slice_items s)).
Proof.
  intros Hall. unfold convertSliceToModels.
  exact (convertSliceToModels_loop_accepts (slice_items s) [] Hall).
Qed.

Lemma convertSliceToModels_first_fails (elem : rtype) (item : value) (items : list value) :
  implementsModel (TypeOf item) = false ->
  convertSliceToModels (mkSlice elem (item :: items))
  = Err (errors_New ("failed to assert item at index 0 to contract.Model, got type "
           ++ type_String (TypeOf item))).
Proof.
  intros Hi. unfold convertSliceToModels. simpl. unfold assert_Model.
  rewrite Hi. reflexivity.
Qed.

End Bridge.

(** Every call of [convertModelsToSlice] falls under one of three cases:
    the list is empty; every entity is accepted; or there is a first
    entity that is not accepted, and it decides the outcome. *)
Lemma convertModelsToSlice_outcomes `{T : TypeInfo} (models : list Model) (modelType : rtype) :
  (models = [] /\
   convertModelsToSlice models modelType = Err (errors_New "models slice cannot be empty")) \/
  (models <> [] /\
   forallb (accepted (element_type modelType)) models = true /\
   convertModelsToSlice models modelType
   = Ok (mkSlice (element_type modelType) (map stored models))) \/
  (exists pre m post,
     models = pre ++ m :: post /\
     forallb (accepted (element_type modelType)) pre = true /\
     accepted (element_type modelType) m = false /\
     convertModelsToSlice models modelType
     = rejection (element_type modelType) (length pre) m).
Proof.
  destruct models as [|m0 models]; [left; split; reflexivity|].
  destruct (first_rejected (accepted (element_type modelType)) (m0 :: models))
    as [Hall|(pre & m & post & Heq & Hpre & Hm)].
  - right; left. split; [discriminate|]. split; [exact Hall|].
    apply convertModelsToSlice_accepts; [discriminate|exact Hall].
  - right; right. exists pre, m, post. rewrite Heq.
    repeat split; auto. apply convertModelsToSlice_rejects; assumption.
Qed.

(** C1 (a defect of the code).  The specification has
    [convertModelsToSlice] fail with an error that names the index at a nil
    element.  An element that is a nil pointer held in the interface is not
    equal to nil: when it is the first element that is not accepted, the
    code follows the pointer, gets the zero [reflect.Value] and panics in
    [Type()], whatever comes after that element. *)
Theorem convertModelsToSlice_nil_pointer_panics `{T : TypeInfo}
    (pre post : list Model) (elem : rtype) (modelType : rtype) :
  forallb (accepted (element_type modelType)) pre = true ->
  convertModelsToSlice (pre ++ Some (VPtr elem None) :: post) modelType
  = Panic "reflect: call of reflect.Value.Type on zero Value".
Proof.
  intros Hpre.
  rewrite (convertModelsToSlice_rejects pre (Some (VPtr elem None)) post modelType Hpre eq_refl).
  reflexivity.
Qed.

Lemma convertModelsToSlice_nil_pointer_panics_witness :
  @convertModelsToSlice test_types [nil_TestModel] TestModel
    = Panic "reflect: call of reflect.Value.Type on zero Value" /\
  @convertModelsToSlice test_types
    ([new_TestModel "1" "test1"] ++ nil_TestModel :: [None]) TestModel
    = Panic "reflect: call of reflect.Value.Type on zero Value".
Proof.
  split.
  - apply (@convertModelsToSlice_nil_pointer_panics test_types [] [] TestModel TestModel).
    reflexivity.
  - apply (@convertModelsToSlice_nil_pointer_panics test_types
             [new_TestModel "1" "test1"] [None] TestModel TestModel).
    reflexivity.
Defined.

(** ** The round trip *)

Section RoundTrip.
Context `{T : TypeInfo}.

Lemma of_type_stored (name : string) (m : Model) :
  of_type name m = true ->
  TypeOf (stored m) = TNamed name /\
  fields_of (Some (stored m)) = fields_of m /\
  accepted (TNamed name) m = AssignableTo (TNamed name) (TNamed name).
Proof.
  unfold of_type, stored, fields_of, accepted.
  destruct m as [v|]; [|discriminate].
  destruct (concrete v) as [[n c|e t]|] eqn:Hv; try discriminate.
  intros Hn. apply String.eqb_eq in Hn. subst n. simpl. auto.
Qed.

Lemma of_type_all (name : string) (E : list Model) :
  forallb (of_type name) E = true ->
  AssignableTo (TNamed name) (TNamed name) = true ->
  forallb (accepted (TNamed name)) E = true /\
  map (fun v => fields_of (Some v)) (map stored E) = map fields_of E /\
  forallb (fun item => implementsModel (TypeOf item)) (map stored E)
    = implementsModel (TNamed name) || Nat.eqb (length E) 0.
Proof.
  intros HE Hrefl. induction E as [|m E IH].
  - simpl. rewrite orb_true_r. auto.
  - simpl in HE. apply andb_prop in HE as [Hm HE].
    destruct (IH HE) as (IH1 & IH2 & IH3).
    destruct (of_type_stored name m Hm) as (Ht & Hf & Ha).
    cbn [map forallb length Nat.eqb].
    rewrite Ha, Hrefl, IH1, Hf, IH2, Ht, IH3. repeat split.
    destruct (implementsModel (TNamed name)); reflexivity.
Qed.

End RoundTrip.

(** C2, as the specification states it, fails: [&TestModel{...}] is converted to a
    [TestModel] value, and [TestModel], whose [SetID] has a pointer
    receiver, is no [contract.Model]; the way back stops at index 0. *)
Lemma round_trip_stops_at_pointer_receivers :
  exists s,
    @convertModelsToSlice test_types [new_TestModel "1" "test1"] TestModel = Ok s /\
    @convertSliceToModels test_types s
    = Err (errors_New
        "failed to assert item at index 0 to contract.Model, got type utils.TestModel").
Proof. eexists. split; reflexivity. Qed.

(** C2 (amended).  For a collection that is not empty and whose entities
    are all of concrete type [name] (values of that type, or pointers that
    are not nil to such values), the conversion to a collection with
    element type [name] succeeds, keeping the length and the content of
    each entity.  The way back succeeds, with the same length and the same
    content per element (as values: a pointer is not restored), when the
    type [name] itself implements [contract.Model]; it fails at index 0
    when only the pointer type does. *)
Theorem round_trip `{T : TypeInfo} (name : string) (E : list Model) :
  E <> [] ->
  forallb (of_type name) E = true ->
  AssignableTo (TNamed name) (TNamed name) = true ->
  exists s,
    convertModelsToSlice E (TNamed name) = Ok s /\
    slice_elem s = TNamed name /\
    length (slice_items s) = length E /\
    map (fun v => fields_of (Some v)) (slice_items s) = map fields_of E /\
    (implementsModel (TNamed name) = true ->
       exists E',
         convertSliceToModels s = Ok E' /\
         length E' = length E /\
         map fields_of E' = map fields_of E) /\
    (implementsModel (TNamed name) = false ->
       convertSliceToModels s
       = Err (errors_New ("failed to assert item at index 0 to contract.Model, got type "
                ++ name))).
Proof.
  intros Hne HE Hrefl.
  destruct (of_type_all name E HE Hrefl) as (Hacc & Hfields & Himpl).
  exists (mkSlice (TNamed name) (map stored E)).
  split; [exact (convertModelsToSlice_accepts E (TNamed name) Hne Hacc)|].
  split; [reflexivity|].
  split; [apply length_map|].
  split; [exact Hfields|].
  split.
  - intros Hi. exists (map Some (map stored E)).
    split.
    + apply convertSliceToModels_accepts. simpl. rewrite Himpl, Hi. reflexivity.
    + split; [rewrite !length_map; reflexivity|].
      etransitivity; [apply map_map | exact Hfields].
  - intros Hi. destruct E as [|m E]; [congruence|]. simpl.
    simpl in HE. apply andb_prop in HE as [Hm _].
    destruct (of_type_stored name m Hm) as (Ht & _ & _).
    rewrite (convertSliceToModels_first_fails (TNamed name) (stored m) (map stored E)).
    + rewrite Ht. reflexivity.
    + rewrite Ht. exact Hi.
Qed.

Lemma round_trip_witness :
  ([a_ValueModel "1"; a_ValueModel "2"] <> []) /\
  exists s,
    @convertModelsToSlice test_types [a_ValueModel "1"; a_ValueModel "2"]
      (TNamed "utils.ValueModel") = Ok s /\
    slice_elem s = TNamed "utils.ValueModel" /\
    length (slice_items s) = 2 /\
    map (fun v => fields_of (Some v)) (slice_items s) = [Some [("ID", "1")]; Some [("ID", "2")]] /\
    (@implementsModel test_types (TNamed "utils.ValueModel") = true ->
       exists E',
         @convertSliceToModels test_types s = Ok E' /\
         length E' = 2 /\
         map fields_of E' = [Some [("ID", "1")]; Some [("ID", "2")]]) /\
    (@implementsModel test_types (TNamed "utils.ValueModel") = false ->
       @convertSliceToModels test_types s
       = Err (errors_New ("failed to assert item at index 0 to contract.Model, got type "
                ++ "utils.ValueModel"))).
Proof.
  split; [discriminate|].
  apply (@round_trip test_types "utils.ValueModel" [a_ValueModel "1"; a_ValueModel "2"]).
  - discriminate.
  - reflexivity.
  - reflexivity.
Defined.

(** ** The builders *)



(** *** Shared handles *)

Lemma alter_lookup_id {A : Type} (f : A -> A) (l : list A) :
  forall i x, l !! i = Some x -> f x = x -> alter f i l = l.
Proof.
  induction l as [|y l IH]; intros [|i] x Hx Hf; simpl in *; try discriminate.
  - injection Hx as ->. rewrite Hf. reflexivity.
  - f_equal. exact (IH i x Hx Hf).
Qed.

Lemma alter_Statement_twice (s1 s2 : gorm_DB) (l : list Shared.DB) :
  forall p,
  alter (fun o => Shared.mkHandle s2 (Shared.clone o)) p
    (alter (fun o => Shared.mkHandle s1 (Shared.clone o)) p l)
  = alter (fun o => Shared.mkHandle s2 (Shared.clone o)) p l.
Proof.
  induction l as [|y l IH]; intros [|p]; simpl; try reflexivity.
  f_equal. apply IH.
Qed.

Lemma with_Statement_twice (p : ptr) (s1 s2 : gorm_DB) (h : Shared.heap) :
  Shared.with_Statement p s2 (Shared.with_Statement p s1 h) = Shared.with_Statement p s2 h.
Proof. unfold Shared.with_Statement. simpl. rewrite alter_Statement_twice. reflexivity. Qed.

Lemma with_Statement_id (p : ptr) (o : Shared.DB) (h : Shared.heap) :
  Shared.handles h !! p = Some o ->
  Shared.with_Statement p (Shared.Statement o) h = h.
Proof.
  intros Ho. unfold Shared.with_Statement.
  rewrite (alter_lookup_id _ _ p o Ho) by (destruct o; reflexivity).
  destruct h; reflexivity.
Qed.

Lemma with_Statement_lookup (p : ptr) (s : gorm_DB) (o : Shared.DB) (h : Shared.heap) :
  Shared.handles h !! p = Some o ->
  Shared.handles (Shared.with_Statement p s h) !! p = Some (Shared.mkHandle s (Shared.clone o)).
Proof.
  intros Ho. unfold Shared.with_Statement. cbn [Shared.handles].
  rewrite list_lookup_alter_eq. unfold ptr in *. rewrite Ho. reflexivity.
Qed.

Lemma statement_of_with_Statement (p : ptr) (s : gorm_DB) (o : Shared.DB) (h : Shared.heap) :
  Shared.handles h !! p = Some o ->
  forall rs bs,
  Shared.statement_of
    (Shared.mkHeap (Shared.handles (Shared.with_Statement p s h)) rs bs) p = Some s.
Proof.
  intros Ho rs bs. unfold Shared.statement_of, Shared.with_Statement.
  cbn [Shared.handles]. rewrite list_lookup_alter_eq. unfold ptr in *.
  rewrite Ho. reflexivity.
Qed.

(** A chain method on a handle whose counter is 0 works on the statement
    of that handle and returns it. *)
Lemma chain_shared (clause : gorm_DB -> gorm_DB) (p : ptr) (o : Shared.DB) (h : Shared.heap) :
  Shared.handles h !! p = Some o ->
  Shared.clone o = 0 ->
  Shared.chain clause p h = (Ok p, Shared.with_Statement p (clause (Shared.Statement o)) h).
Proof.
  intros Ho Hclone.
  unfold Shared.chain, Shared.getInstance, Shared.bind, Shared.deref.
  rewrite Ho, Hclone. simpl. rewrite Ho. reflexivity.
Qed.

(** On a handle with another counter it returns a new handle, and leaves
    the statement of the receiver alone. *)
Lemma chain_session (clause : gorm_DB -> gorm_DB) (p : ptr) (o : Shared.DB) (h : Shared.heap) :
  Shared.handles h !! p = Some o ->
  Shared.clone o <> 0 ->
  Shared.chain clause p h
  = (Ok (length (Shared.handles h)),
     Shared.mkHeap
       (Shared.handles h
        ++ [Shared.mkHandle
              (clause (if Nat.eqb (Shared.clone o) 1 then mkDB None [] None None
                       else Shared.Statement o)) 0])
       (Shared.repositories h) (Shared.builders h)).
Proof.
  intros Ho Hclone.
  unfold Shared.chain, Shared.getInstance, Shared.bind, Shared.deref.
  rewrite Ho.
  destruct (Shared.clone o) as [|[|n]]; [congruence| |];
    simpl; rewrite list_lookup_middle by reflexivity; simpl;
    rewrite (alter_app_r_alt _ _ _ (length (Shared.handles h))) by lia;
    rewrite Nat.sub_diag; reflexivity.
Qed.

Lemma preload_each_shared (p : ptr) (relations : list string) :
  forall (h : Shared.heap) (o : Shared.DB),
  Shared.handles h !! p = Some o ->
  Shared.clone o = 0 ->
  Shared.preload_each p relations h
  = (Ok p, Shared.with_Statement p (foldl gorm_Preload (Shared.Statement o) relations) h).
Proof.
  induction relations as [|rel relations IH]; intros h o Ho Hclone; simpl.
  - rewrite (with_Statement_id p o h Ho). reflexivity.
  - unfold Shared.bind, Shared.DB_Preload. rewrite (chain_shared _ p o h Ho Hclone).
    rewrite (IH _ _ (with_Statement_lookup p _ o h Ho) Hclone).
    simpl. rewrite with_Statement_twice. reflexivity.
Qed.

(** Whatever the descriptor of a relation, if it is not nil the relation
    is preloaded by its name. *)
Lemma handleRelationshipPreload_step (p : ptr) (rel : string)
    (modelRelations : gmap string (option string)) :
  modelRelations !! rel <> Some None ->
  match modelRelations !! rel with
  | Some relationship =>
      match relationship with
      | None => Shared.panic nil_dereference
      | Some ty =>
          if String.eqb ty HasOne || String.eqb ty BelongsTo then Shared.DB_Preload p rel
          else if String.eqb ty HasMany || String.eqb ty BelongsToMany
          then Shared.DB_Preload p rel
          else if String.eqb ty Many2Many then Shared.DB_Preload p rel
          else Shared.DB_Preload p rel
      end
  | None => Shared.DB_Preload p rel
  end = Shared.DB_Preload p rel.
Proof.
  intros Hnil. destruct (modelRelations !! rel) as [[ty|]|]; [|congruence|reflexivity].
  destruct (String.eqb ty HasOne || String.eqb ty BelongsTo); [reflexivity|].
  destruct (String.eqb ty HasMany || String.eqb ty BelongsToMany); [reflexivity|].
  destruct (String.eqb ty Many2Many); reflexivity.
Qed.

Lemma described_not_nil (modelRelations : gmap string (option string)) (rel : string) :
  described modelRelations rel = true -> modelRelations !! rel <> Some None.
Proof. unfold described. destruct (modelRelations !! rel) as [[ty|]|]; congruence. Qed.

(** With every relation described, the loop of [handleRelationshipPreload]
    is the loop of [gormQueryBuilder.With]. *)
Lemma handleRelationshipPreload_loop_preload_each
    (modelRelations : gmap string (option string)) (relations : list string) :
  forallb (described modelRelations) relations = true ->
  forall p h,
  Shared.handleRelationshipPreload_loop p modelRelations relations h
  = Shared.preload_each p relations h.
Proof.
  induction relations as [|rel relations IH]; intros Hall p h; simpl; [reflexivity|].
  simpl in Hall. apply andb_prop in Hall as [Hrel Hall].
  rewrite (handleRelationshipPreload_step p rel modelRelations (described_not_nil _ _ Hrel)).
  unfold Shared.bind.
  destruct (Shared.DB_Preload p rel h) as [[tx|e|msg] h1]; try reflexivity.
  apply (IH Hall).
Qed.

Lemma handleRelationshipPreload_preload_each `{T : TypeInfo}
    (model : option value) (relations : list string) :
  preloadable model relations = true ->
  forall p h,
  Shared.handleRelationshipPreload p model relations h = Shared.preload_each p relations h.
Proof.
  intros Hpre p h. unfold Shared.handleRelationshipPreload.
  destruct relations as [|rel relations]; [reflexivity|].
  cbn [length Nat.eqb]. unfold preloadable in Hpre.
  destruct model as [v|]; [|discriminate].
  apply handleRelationshipPreload_loop_preload_each. exact Hpre.
Qed.

Lemma foldl_gorm_Preload (relations : list string) :
  forall tx,
  foldl gorm_Preload tx relations
  = mkDB (stmt_Model tx) (stmt_Clauses tx ++ map PreloadClause relations)
      (stmt_Limit tx) (stmt_Offset tx).
Proof.
  induction relations as [|rel relations IH]; intros tx; simpl.
  - rewrite app_nil_r. destruct tx; reflexivity.
  - rewrite IH. simpl. rewrite <- app_assoc. reflexivity.
Qed.

Ltac chain_in_place Ho Hclone :=
  unfold Shared.DB_Model, Shared.DB_Preload, Shared.DB_Where, Shared.DB_Or,
    Shared.DB_Select, Shared.DB_Joins, Shared.DB_Order, Shared.DB_Group, Shared.DB_Having,
    Shared.DB_Raw, Shared.DB_Unscoped, Shared.DB_Scopes, Shared.DB_Limit, Shared.DB_Offset;
  rewrite (chain_shared _ _ _ _ Ho Hclone); reflexivity.

(** The shape of the clause operations of the repository: when the
    method of the handle works in place, the new struct holds the handle
    and the model of the receiver. *)
Lemma repository_derive_shared (method : Shared.repository -> Shared.M ptr)
    (r : ptr) (rv : Shared.repository) (s : gorm_DB) (h : Shared.heap) :
  Shared.repositories h !! r = Some rv ->
  method rv h
    = (Ok (Shared.repo_db rv), Shared.with_Statement (Shared.repo_db rv) s h) ->
  Shared.bind (Shared.deref Shared.repositories r)
    (fun rv => Shared.bind (method rv)
       (fun tx => Shared.new_repository (Shared.mkRepository tx (Shared.repo_mdl rv)))) h
  = (Ok (length (Shared.repositories h)),
     Shared.mkHeap (Shared.handles (Shared.with_Statement (Shared.repo_db rv) s h))
       (Shared.repositories h ++ [rv]) (Shared.builders h)).
Proof.
  intros Hr Hm. unfold Shared.bind, Shared.deref. rewrite Hr, Hm.
  unfold Shared.new_repository, alloc. simpl. destruct rv; reflexivity.
Qed.

Lemma qb_derive_shared (method : ptr -> Shared.M ptr)
    (q : ptr) (qv : Shared.gormQueryBuilder) (s : gorm_DB) (h : Shared.heap) :
  Shared.builders h !! q = Some qv ->
  method (Shared.qb_db qv) h
    = (Ok (Shared.qb_db qv), Shared.with_Statement (Shared.qb_db qv) s h) ->
  Shared.qb_derive q method h
  = (Ok (length (Shared.builders h)),
     Shared.mkHeap (Shared.handles (Shared.with_Statement (Shared.qb_db qv) s h))
       (Shared.repositories h) (Shared.builders h ++ [qv])).
Proof.
  intros Hq Hm. unfold Shared.qb_derive, Shared.bind, Shared.deref. rewrite Hq, Hm.
  unfold Shared.new_builder, alloc. simpl. destruct qv; reflexivity.
Qed.

(** A clause operation of the repository on a handle that chains in
    place: the heap it leaves. *)
Lemma repository_call_shared `{R : GoRuntime} `{T : TypeInfo}
    (op : repository_op) (r : ptr) (rv : Shared.repository) (o : Shared.DB)
    (h : Shared.heap) :
  Shared.repositories h !! r = Some rv ->
  Shared.handles h !! Shared.repo_db rv = Some o ->
  Shared.clone o = 0 ->
  repository_returns (Shared.repo_mdl rv) op = true ->
  Shared.repository_call op r h
  = (Ok (length (Shared.repositories h)),
     Shared.mkHeap
       (Shared.handles
          (Shared.with_Statement (Shared.repo_db rv)
             (repository_effect op (Shared.Statement o)) h))
       (Shared.repositories h ++ [rv]) (Shared.builders h)).
Proof.
  intros Hr Ho Hclone Hret.
  destruct op as [relations|query args| |limit|offset|column direction]; simpl.
  - apply (repository_derive_shared
             (fun rv => Shared.handleRelationshipPreload (Shared.repo_db rv) (Shared.repo_mdl rv)
                          relations)
             r rv _ h Hr).
    rewrite (handleRelationshipPreload_preload_each _ _ Hret).
    apply (preload_each_shared _ _ h o Ho Hclone).
  - apply (repository_derive_shared (fun rv => Shared.DB_Where (Shared.repo_db rv) query args)
             r rv _ h Hr).
    chain_in_place Ho Hclone.
  - apply (repository_derive_shared (fun rv => Shared.DB_Unscoped (Shared.repo_db rv)) r rv _ h Hr).
    chain_in_place Ho Hclone.
  - apply (repository_derive_shared (fun rv => Shared.validateAndApplyLimit (Shared.repo_db rv) limit)
             r rv _ h Hr).
    unfold Shared.validateAndApplyLimit. destruct (limit <? 0)%Z.
    + rewrite (with_Statement_id _ o h Ho). reflexivity.
    + chain_in_place Ho Hclone.
  - apply (repository_derive_shared (fun rv => Shared.validateAndApplyOffset (Shared.repo_db rv) offset)
             r rv _ h Hr).
    unfold Shared.validateAndApplyOffset. destruct (offset <? 0)%Z.
    + rewrite (with_Statement_id _ o h Ho). reflexivity.
    + chain_in_place Ho Hclone.
  - apply (repository_derive_shared (fun rv => Shared.applyOrderBy (Shared.repo_db rv) column direction)
             r rv _ h Hr).
    unfold Shared.applyOrderBy. rewrite validateColumnName_safe_identifier.
    destruct (safe_identifier column); simpl.
    + rewrite validateOrderDirection_cases. chain_in_place Ho Hclone.
    + rewrite (with_Statement_id _ o h Ho). reflexivity.
Qed.

Lemma querybuilder_call_shared `{R : GoRuntime}
    (op : querybuilder_op) (q : ptr) (qv : Shared.gormQueryBuilder) (o : Shared.DB)
    (h : Shared.heap) :
  Shared.builders h !! q = Some qv ->
  Shared.handles h !! Shared.qb_db qv = Some o ->
  Shared.clone o = 0 ->
  Shared.querybuilder_call op q h
  = if returns_receiver op then (Ok q, h)
    else (Ok (length (Shared.builders h)),
          Shared.mkHeap
            (Shared.handles
               (Shared.with_Statement (Shared.qb_db qv)
                  (querybuilder_effect op (Shared.Statement o)) h))
            (Shared.repositories h) (Shared.builders h ++ [qv])).
Proof.
  intros Hq Ho Hclone.
  destruct op; simpl;
    try (apply (qb_derive_shared _ q qv _ h Hq); chain_in_place Ho Hclone).
  - unfold Shared.gormQueryBuilder_OrderBy.
    change (if negb (String.eqb (ToUpper (TrimSpace direction)) OrderDirectionASC)
               && negb (String.eqb (ToUpper (TrimSpace direction)) OrderDirectionDESC)
            then OrderDirectionASC else ToUpper (TrimSpace direction))
      with (validateOrderDirection direction "ASC").
    rewrite validateOrderDirection_cases.
    apply (qb_derive_shared _ q qv _ h Hq). chain_in_place Ho Hclone.
  - unfold Shared.gormQueryBuilder_Limit. destruct (limit <? 0)%Z; [reflexivity|].
    apply (qb_derive_shared _ q qv _ h Hq). chain_in_place Ho Hclone.
  - unfold Shared.gormQueryBuilder_Offset. destruct (offset <? 0)%Z; [reflexivity|].
    apply (qb_derive_shared _ q qv _ h Hq). chain_in_place Ho Hclone.
  - apply (qb_derive_shared _ q qv _ h Hq).
    rewrite (preload_each_shared _ _ h o Ho Hclone), foldl_gorm_Preload. reflexivity.
  - reflexivity.
Qed.

(** C3 (code bug).  A clause operation returns a new struct, but the
    struct holds the handle of the receiver: [r.db.Where(...)] and the
    other chain methods, called on the handle a builder holds, work on the
    statement of that handle and return it.  So after a call that returns
    (every call does, except [With] on relations the model cannot
    describe), the receiver is still the struct it was and its accumulated
    state is that of the builder returned: the state before the call with
    what the operation adds.  For [Where] that is a state with one clause
    more, not the state before the call.  On the query builder [Limit] and
    [Offset] with a negative argument and [WithCount] return the receiver
    itself; every other method behaves as those of the repository. *)
Theorem clause_operations_change_the_receiver `{R : GoRuntime} `{T : TypeInfo}
    (h : Shared.heap)
    (rop : repository_op) (r : ptr) (rv : Shared.repository) (ro : Shared.DB)
    (qop : querybuilder_op) (q : ptr) (qv : Shared.gormQueryBuilder) (qo : Shared.DB) :
  Shared.repositories h !! r = Some rv ->
  Shared.handles h !! Shared.repo_db rv = Some ro ->
  Shared.clone ro = 0 ->
  repository_returns (Shared.repo_mdl rv) rop = true ->
  Shared.builders h !! q = Some qv ->
  Shared.handles h !! Shared.qb_db qv = Some qo ->
  Shared.clone qo = 0 ->
  (exists r' h',
     Shared.repository_call rop r h = (Ok r', h') /\
     Shared.repositories h !! r' = None /\
     Shared.repositories h' !! r' = Some rv /\
     Shared.repositories h' !! r = Some rv /\
     Shared.repository_state h r = Some (Shared.Statement ro) /\
     Shared.repository_state h' r' = Some (repository_effect rop (Shared.Statement ro)) /\
     Shared.repository_state h' r = Some (repository_effect rop (Shared.Statement ro)) /\
     (forall query args,
        rop = Repo_Where query args ->
        Shared.repository_state h' r <> Shared.repository_state h r)) /\
  (exists q' h',
     Shared.querybuilder_call qop q h = (Ok q', h') /\
     (if returns_receiver qop
      then q' = q /\ h' = h
      else Shared.builders h !! q' = None /\ Shared.builders h' !! q' = Some qv) /\
     Shared.builders h' !! q = Some qv /\
     Shared.builder_state h q = Some (Shared.Statement qo) /\
     Shared.builder_state h' q' = Some (querybuilder_effect qop (Shared.Statement qo)) /\
     Shared.builder_state h' q = Some (querybuilder_effect qop (Shared.Statement qo)) /\
     (forall condition args,
        qop = QB_Where condition args ->
        Shared.builder_state h' q <> Shared.builder_state h q)).
Proof.
  intros Hr Hro Hrclone Hret Hq Hqo Hqclone. split.
  - eexists _, _. split; [apply (repository_call_shared rop r rv ro h Hr Hro Hrclone Hret)|].
    assert (Hbefore : Shared.repository_state h r = Some (Shared.Statement ro)).
    { unfold Shared.repository_state, Shared.statement_of. rewrite Hr, Hro. reflexivity. }
    assert (Hafter : Shared.repository_state
                       (Shared.mkHeap
                          (Shared.handles
                             (Shared.with_Statement (Shared.repo_db rv)
                                (repository_effect rop (Shared.Statement ro)) h))
                          (Shared.repositories h ++ [rv]) (Shared.builders h)) r
                     = Some (repository_effect rop (Shared.Statement ro))).
    { unfold Shared.repository_state. simpl.
      rewrite (lookup_app_l_Some _ _ _ _ Hr).
      apply (statement_of_with_Statement _ _ ro h Hro). }
    split; [apply lookup_ge_None_2; apply Nat.le_refl|].
    split; [simpl; apply list_lookup_middle; reflexivity|].
    split; [simpl; apply lookup_app_l_Some; exact Hr|].
    split; [exact Hbefore|].
    split.
    { unfold Shared.repository_state. simpl.
      rewrite list_lookup_middle by reflexivity.
      apply (statement_of_with_Statement _ _ ro h Hro). }
    split; [exact Hafter|].
    intros query args ->. rewrite Hafter, Hbefore. simpl. intros Heq.
    injection Heq as Heq. apply (f_equal (fun s => length (stmt_Clauses s))) in Heq.
    simpl in Heq. rewrite length_app in Heq. simpl in Heq. lia.
  - pose proof (querybuilder_call_shared qop q qv qo h Hq Hqo Hqclone) as Hcall.
    assert (Hbefore : Shared.builder_state h q = Some (Shared.Statement qo)).
    { unfold Shared.builder_state, Shared.statement_of. rewrite Hq, Hqo. reflexivity. }
    destruct (returns_receiver qop) eqn:Hrecv.
    + exists q, h. split; [exact Hcall|].
      assert (Hid : querybuilder_effect qop (Shared.Statement qo) = Shared.Statement qo).
      { destruct qop; simpl in *; try discriminate; rewrite ?Hrecv; reflexivity. }
      rewrite Hid.
      split; [split; reflexivity|]. split; [exact Hq|].
      split; [exact Hbefore|]. split; [exact Hbefore|]. split; [exact Hbefore|].
      intros condition args ->. discriminate.
    + eexists _, _. split; [exact Hcall|].
      assert (Hafter : Shared.builder_state
                         (Shared.mkHeap
                            (Shared.handles
                               (Shared.with_Statement (Shared.qb_db qv)
                                  (querybuilder_effect qop (Shared.Statement qo)) h))
                            (Shared.repositories h) (Shared.builders h ++ [qv])) q
                       = Some (querybuilder_effect qop (Shared.Statement qo))).
      { unfold Shared.builder_state. simpl.
        rewrite (lookup_app_l_Some _ _ _ _ Hq).
        apply (statement_of_with_Statement _ _ qo h Hqo). }
      split.
      { split; [apply lookup_ge_None_2; apply Nat.le_refl|].
        simpl. apply list_lookup_middle. reflexivity. }
      split; [simpl; apply lookup_app_l_Some; exact Hq|].
      split; [exact Hbefore|].
      split.
      { unfold Shared.builder_state. simpl.
        rewrite list_lookup_middle by reflexivity.
        apply (statement_of_with_Statement _ _ qo h Hqo). }
      split; [exact Hafter|].
      intros condition args ->. rewrite Hafter, Hbefore. simpl. intros Heq.
      injection Heq as Heq. apply (f_equal (fun s => length (stmt_Clauses s))) in Heq.
      simpl in Heq. rewrite length_app in Heq. simpl in Heq. lia.
Qed.

Lemma clause_operations_change_the_receiver_witness :
  (exists r' h',
     @Shared.repository_call ascii_runtime test_types
       (Repo_Where (any_string "age > ?") [any_int 18]) 0 shared_heap = (Ok r', h') /\
     Shared.repositories shared_heap !! r' = None /\
     Shared.repositories h' !! r' = Some (Shared.mkRepository 1 (new_TestModel "0" "")) /\
     Shared.repositories h' !! 0%nat = Some (Shared.mkRepository 1 (new_TestModel "0" "")) /\
     Shared.repository_state shared_heap 0
     = Some (gorm_Model empty_DB (new_TestModel "0" "")) /\
     Shared.repository_state h' r'
     = Some (@repository_effect ascii_runtime
               (Repo_Where (any_string "age > ?") [any_int 18])
               (gorm_Model empty_DB (new_TestModel "0" ""))) /\
     Shared.repository_state h' 0
     = Some (@repository_effect ascii_runtime
               (Repo_Where (any_string "age > ?") [any_int 18])
               (gorm_Model empty_DB (new_TestModel "0" ""))) /\
     (forall query args,
        Repo_Where (any_string "age > ?") [any_int 18] = Repo_Where query args ->
        Shared.repository_state h' 0 <> Shared.repository_state shared_heap 0)) /\
  (exists q' h',
     @Shared.querybuilder_call ascii_runtime (QB_Where "age > ?" [any_int 18]) 0 shared_heap
     = (Ok q', h') /\
     (if returns_receiver (QB_Where "age > ?" [any_int 18])
      then q' = 0%nat /\ h' = shared_heap
      else Shared.builders shared_heap !! q' = None /\
           Shared.builders h' !! q'
           = Some (Shared.mkQueryBuilder 2 (new_TestModel "0" ""))) /\
     Shared.builders h' !! 0%nat = Some (Shared.mkQueryBuilder 2 (new_TestModel "0" "")) /\
     Shared.builder_state shared_heap 0
     = Some (gorm_Model empty_DB (new_TestModel "0" "")) /\
     Shared.builder_state h' q'
     = Some (@querybuilder_effect ascii_runtime (QB_Where "age > ?" [any_int 18])
               (gorm_Model empty_DB (new_TestModel "0" ""))) /\
     Shared.builder_state h' 0
     = Some (@querybuilder_effect ascii_runtime (QB_Where "age > ?" [any_int 18])
               (gorm_Model empty_DB (new_TestModel "0" ""))) /\
     (forall condition args,
        QB_Where "age > ?" [any_int 18] = QB_Where condition args ->
        Shared.builder_state h' 0 <> Shared.builder_state shared_heap 0)).
Proof.
  apply (@clause_operations_change_the_receiver ascii_runtime test_types shared_heap
           (Repo_Where (any_string "age > ?") [any_int 18]) 0
           (Shared.mkRepository 1 (new_TestModel "0" ""))
           (Shared.mkHandle (gorm_Model empty_DB (new_TestModel "0" "")) 0)
           (QB_Where "age > ?" [any_int 18]) 0
           (Shared.mkQueryBuilder 2 (new_TestModel "0" ""))
           (Shared.mkHandle (gorm_Model empty_DB (new_TestModel "0" "")) 0));
    reflexivity.
Defined.

Lemma built_alloc {A : Type} (x : A) (h : list A) : built (Ok (alloc x h)) = Some x.
Proof. simpl. apply list_lookup_middle. reflexivity. Qed.

(** C8.  On a repository and on a query builder, [Limit] and [Offset]
    with a negative argument return without error a builder in the
    receiver's state; with an argument that is not negative they return a
    builder whose limit, respectively offset, is exactly the argument, the
    rest of the state being the receiver's. *)
Theorem Limit_Offset_clauses
    (n : Z) (r : ptr) (hr : list repository) (rv : repository)
    (q : ptr) (hq : list gormQueryBuilder) (qv : gormQueryBuilder) :
  hr !! r = Some rv ->
  hq !! q = Some qv ->
  (exists b, built (repository_Limit r n hr) = Some b /\
     ((n < 0)%Z -> b = rv) /\
     ((0 <= n)%Z ->
        stmt_Limit (repo_db b) = Some n /\
        stmt_Offset (repo_db b) = stmt_Offset (repo_db rv) /\
        stmt_Clauses (repo_db b) = stmt_Clauses (repo_db rv) /\
        stmt_Model (repo_db b) = stmt_Model (repo_db rv) /\
        repo_mdl b = repo_mdl rv)) /\
  (exists b, built (repository_Offset r n hr) = Some b /\
     ((n < 0)%Z -> b = rv) /\
     ((0 <= n)%Z ->
        stmt_Offset (repo_db b) = Some n /\
        stmt_Limit (repo_db b) = stmt_Limit (repo_db rv) /\
        stmt_Clauses (repo_db b) = stmt_Clauses (repo_db rv) /\
        stmt_Model (repo_db b) = stmt_Model (repo_db rv) /\
        repo_mdl b = repo_mdl rv)) /\
  (exists b, built (gormQueryBuilder_Limit q n hq) = Some b /\
     ((n < 0)%Z -> b = qv /\ gormQueryBuilder_Limit q n hq = Ok (q, hq)) /\
     ((0 <= n)%Z ->
        stmt_Limit (qb_db b) = Some n /\
        stmt_Offset (qb_db b) = stmt_Offset (qb_db qv) /\
        stmt_Clauses (qb_db b) = stmt_Clauses (qb_db qv) /\
        stmt_Model (qb_db b) = stmt_Model (qb_db qv) /\
        qb_model b = qb_model qv)) /\
  (exists b, built (gormQueryBuilder_Offset q n hq) = Some b /\
     ((n < 0)%Z -> b = qv /\ gormQueryBuilder_Offset q n hq = Ok (q, hq)) /\
     ((0 <= n)%Z ->
        stmt_Offset (qb_db b) = Some n /\
        stmt_Limit (qb_db b) = stmt_Limit (qb_db qv) /\
        stmt_Clauses (qb_db b) = stmt_Clauses (qb_db qv) /\
        stmt_Model (qb_db b) = stmt_Model (qb_db qv) /\
        qb_model b = qb_model qv)).
Proof.
  intros Hr Hq.
  unfold repository_Limit, repository_Offset, gormQueryBuilder_Limit, gormQueryBuilder_Offset, qb_derive,
    validateAndApplyLimit, validateAndApplyOffset.
  rewrite Hr, Hq.
  destruct (Z.ltb_spec n 0) as [Hneg|Hpos].
  - repeat split;
      (eexists; split; [first [apply built_alloc | exact Hq] |]);
      (split; [intros _; destruct rv, qv; auto | intros; lia]).
  - repeat split;
      (eexists; split; [apply built_alloc |]);
      (split; [intros; lia | intros _; simpl; auto 10]).
Qed.

Lemma Limit_Offset_clauses_witness :
  ([test_repository] !! 0%nat = Some test_repository) /\
  ([test_builder] !! 0%nat = Some test_builder) /\
  (exists b, built (repository_Limit 0 10 [test_repository]) = Some b /\
     stmt_Limit (repo_db b) = Some 10%Z) /\
  (exists b, built (gormQueryBuilder_Offset 0 (-5) [test_builder]) = Some b /\ b = test_builder).
Proof.
  split; [reflexivity|]. split; [reflexivity|].
  destruct (Limit_Offset_clauses 10 0 [test_repository] test_repository
              0 [test_builder] test_builder eq_refl eq_refl)
    as ((b & Hb & _ & Hset) & _).
  destruct (Limit_Offset_clauses (-5) 0 [test_repository] test_repository
              0 [test_builder] test_builder eq_refl eq_refl)
    as (_ & _ & _ & (b' & Hb' & Hkeep & _)).
  split.
  - exists b. split; [exact Hb|]. apply Hset. lia.
  - exists b'. split; [exact Hb'|]. apply Hkeep. lia.
Defined.

(** ** Ordering *)

Lemma orderings_gorm_Order (tx : gorm_DB) (v : string) :
  orderings (gorm_Order tx v) = orderings tx ++ [v].
Proof.
  unfold orderings, gorm_Order, add_clause. simpl.
  rewrite omap_app. reflexivity.
Qed.

(** C7, as the specification states it, fails: [" desc "] is equal to neither ["ASC"]
    nor ["DESC"] up to case, and yet it is not normalised to ["ASC"]: the
    code trims it first, and the ordering is descending. *)
Lemma OrderBy_trims_the_direction :
  EqualFold " desc " "ASC" = false /\
  EqualFold " desc " "DESC" = false /\
  @validateOrderDirection ascii_runtime " desc " "ASC" = "DESC" /\
  option_map (fun b => orderings (repo_db b))
    (built (@repository_OrderBy ascii_runtime 0 "name" " desc " [test_repository]))
  = Some ["name DESC"].
Proof. repeat split. Qed.

(** C7 (amended).  [OrderBy] on a repository returns a builder without
    error.  A column outside the safe-identifier grammar (parts separated
    by single dots, each a letter or underscore followed by letters, digits
    and underscores) leaves the ordering as the receiver has it.  A column
    inside the grammar adds the ordering made of the column, a space and
    the direction, where the direction is ["DESC"] when the argument,
    trimmed of surrounding white space and upper-cased, is ["DESC"], and
    ["ASC"] otherwise; in particular an argument equal up to case to
    ["ASC"] or ["DESC"] gives that direction in upper case. *)
Theorem OrderBy_normalization `{R : GoRuntime}
    (r : ptr) (h : list repository) (rv : repository) (column direction : string) :
  h !! r = Some rv ->
  validateColumnName column = safe_identifier column /\
  exists b,
    built (repository_OrderBy r column direction h) = Some b /\
    repo_mdl b = repo_mdl rv /\
    (safe_identifier column = false -> repo_db b = repo_db rv) /\
    (safe_identifier column = true ->
       repo_db b = gorm_Order (repo_db rv)
                     (column +:+ " " +:+
                      (if String.eqb (ToUpper (TrimSpace direction)) "DESC"
                       then "DESC" else "ASC")) /\
       orderings (repo_db b)
       = orderings (repo_db rv)
         ++ [column +:+ " " +:+
             (if String.eqb (ToUpper (TrimSpace direction)) "DESC"
              then "DESC" else "ASC")]) /\
    (safe_identifier column = true -> EqualFold direction "ASC" = true ->
       orderings (repo_db b) = orderings (repo_db rv) ++ [column +:+ " ASC"]) /\
    (safe_identifier column = true -> EqualFold direction "DESC" = true ->
       orderings (repo_db b) = orderings (repo_db rv) ++ [column +:+ " DESC"]).
Proof.
  intros Hr. split; [apply validateColumnName_safe_identifier|].
  unfold repository_OrderBy. rewrite Hr.
  eexists. split; [apply built_alloc|]. simpl.
  unfold applyOrderBy. rewrite validateColumnName_safe_identifier.
  split; [reflexivity|].
  destruct (safe_identifier column); simpl.
  - split; [discriminate|].
    split.
    + intros _. rewrite validateOrderDirection_cases.
      split; [reflexivity|apply orderings_gorm_Order].
    + split; intros _ Hd.
      * rewrite (validateOrderDirection_EqualFold_ASC direction Hd).
        apply orderings_gorm_Order.
      * rewrite (validateOrderDirection_EqualFold_DESC direction Hd).
        apply orderings_gorm_Order.
  - split; [reflexivity|]. repeat split; discriminate.
Qed.

Lemma OrderBy_normalization_witness :
  ([test_repository] !! 0%nat = Some test_repository) /\
  exists b,
    built (@repository_OrderBy ascii_runtime 0 "users.name" "Desc" [test_repository]) = Some b /\
    orderings (repo_db b) = ["users.name DESC"].
Proof.
  split; [reflexivity|].
  destruct (@OrderBy_normalization ascii_runtime 0 [test_repository] test_repository
              "users.name" "Desc" eq_refl)
    as (_ & b & Hb & _ & _ & _ & _ & Hdesc).
  exists b. split; [exact Hb|].
  exact (Hdesc eq_refl eq_refl).
Defined.

(** ** Create and CreateInBatches *)

Section Writes.
Context `{T : TypeInfo} `{B : Backend}.

Lemma repository_convertModelsToSlice_unfold (rv : repository) (mdl : value)
    (models : list Model) :
  repo_mdl rv = Some mdl ->
  repository_convertModelsToSlice rv models
  = convertModelsToSlice models (element_type (TypeOf mdl)).
Proof.
  intros Hm. unfold repository_convertModelsToSlice, getModelType, element_type.
  rewrite Hm. destruct (is_Ptr (TypeOf mdl)); reflexivity.
Qed.

Lemma repository_Create_many (rv : repository) (models : list Model) :
  2 <= length models ->
  repository_Create rv models =
    match repository_convertModelsToSlice rv models with
    | Ok s =>
        ([call_Create (repo_db rv) (value_slice s)],
         Ok (backend_Error (call_Create (repo_db rv) (value_slice s))))
    | failure => conversion_failure failure
    end.
Proof.
  intros Hlen. destruct models as [|m1 [|m2 models]]; simpl in Hlen; try lia.
  unfold repository_Create. simpl.
  destruct (repository_convertModelsToSlice rv (m1 :: m2 :: models)); reflexivity.
Qed.

End Writes.

(** C4, as the specification states it, fails: a single nil entity fails with a
    message that names no index; and of two nil entities only the index of
    the first is named. *)
Lemma Create_nil_index_not_always_named :
  (exists e,
     @repository_Create test_types quiet_backend test_repository [None]
       = ([], Ok (Some e)) /\
     Error e = "model cannot be nil" /\
     names_index (Error e) 0 = false) /\
  (exists e,
     @repository_Create test_types quiet_backend test_repository
       [new_TestModel "1" "a"; None; None] = ([], Ok (Some e)) /\
     Error e = "failed to convert models: model at index 1 cannot be nil" /\
     names_index (Error e) 2 = false).
Proof. split; eexists; repeat split. Qed.

(** C4 (amended).  On a repository whose model is not nil, [Create]
    - with no entity returns no error and makes no call to the backend;
    - with one entity that is nil fails with "model cannot be nil", which
      names no index, and makes no call to the backend;
    - with one entity that is not nil makes one call to the backend with
      that entity itself, whatever the bridge would say of it;
    - with two entities or more goes through [convertModelsToSlice]: when
      every entity is accepted it makes one call to the backend with the
      converted collection; when the first entity that is not accepted is
      nil, at index i, it fails with an error that names i and makes no
      call to the backend. *)
Theorem Create_arity `{T : TypeInfo} `{B : Backend}
    (rv : repository) (mdl : value) :
  repo_mdl rv = Some mdl ->
  repository_Create rv [] = ([], Ok None) /\
  repository_Create rv [None] = ([], Ok (Some (errors_New "model cannot be nil"))) /\
  (forall v : value,
     repository_Create rv [Some v]
     = ([call_Create (repo_db rv) (value_model (Some v))],
        Ok (backend_Error (call_Create (repo_db rv) (value_model (Some v)))))) /\
  (forall models : list Model,
     2 <= length models ->
     repository_Create rv models =
       match convertModelsToSlice models (element_type (TypeOf mdl)) with
       | Ok s =>
           ([call_Create (repo_db rv) (value_slice s)],
            Ok (backend_Error (call_Create (repo_db rv) (value_slice s))))
       | failure => conversion_failure failure
       end) /\
  (forall models : list Model,
     2 <= length models ->
     forallb (accepted (element_type (element_type (TypeOf mdl)))) models = true ->
     exists s,
       slice_items s = map stored models /\
       repository_Create rv models
       = ([call_Create (repo_db rv) (value_slice s)],
          Ok (backend_Error (call_Create (repo_db rv) (value_slice s))))) /\
  (forall pre post : list Model,
     2 <= length (pre ++ None :: post) ->
     forallb (accepted (element_type (element_type (TypeOf mdl)))) pre = true ->
     exists e,
       repository_Create rv (pre ++ None :: post) = ([], Ok (Some e)) /\
       Error e = "failed to convert models: model at index "
                 +:+ pretty (length pre) +:+ " cannot be nil").
Proof.
  intros Hm. split; [reflexivity|]. split; [reflexivity|]. split; [reflexivity|].
  assert (Hmany : forall models : list Model,
     2 <= length models ->
     repository_Create rv models =
       match convertModelsToSlice models (element_type (TypeOf mdl)) with
       | Ok s =>
           ([call_Create (repo_db rv) (value_slice s)],
            Ok (backend_Error (call_Create (repo_db rv) (value_slice s))))
       | failure => conversion_failure failure
       end).
  { intros models Hlen. rewrite (repository_Create_many rv models Hlen).
    rewrite (repository_convertModelsToSlice_unfold rv mdl models Hm). reflexivity. }
  split; [exact Hmany|]. split.
  - intros models Hlen Hall. rewrite (Hmany models Hlen).
    rewrite convertModelsToSlice_accepts; [|destruct models; simpl in *; [lia|discriminate]|exact Hall].
    eexists. split; [|reflexivity]. reflexivity.
  - intros pre post Hlen Hpre. rewrite (Hmany _ Hlen).
    rewrite (convertModelsToSlice_rejects pre None post _ Hpre eq_refl).
    eexists. split; reflexivity.
Qed.

Lemma Create_arity_witness :
  (repo_mdl test_repository = new_TestModel "0" "") /\
  (exists e,
     @repository_Create test_types quiet_backend test_repository
       ([new_TestModel "1" "a"; new_TestModel "2" "b"] ++ None :: [None])
     = ([], Ok (Some e)) /\
     Error e = "failed to convert models: model at index "
               +:+ pretty 2%nat +:+ " cannot be nil").
Proof.
  split; [reflexivity|].
  destruct (@Create_arity test_types quiet_backend test_repository _ eq_refl)
    as (_ & _ & _ & _ & _ & Hnil).
  apply (Hnil [new_TestModel "1" "a"; new_TestModel "2" "b"] [None]).
  - simpl. lia.
  - reflexivity.
Defined.

(** C5, as the specification states it, fails: with an empty list and a batch size
    of zero there is no error, although the batch size is not positive. *)
Lemma CreateInBatches_empty_list_wins :
  @repository_CreateInBatches test_types quiet_backend test_repository [] 0
  = ([], Ok None).
Proof. reflexivity. Qed.

(** C5 (amended).  [CreateInBatches] with an empty list returns no error
    and makes no call to the backend, whatever the batch size; with a list
    that is not empty and a batch size of zero or less it fails with
    "batch size must be positive" and makes no call to the backend. *)
Theorem CreateInBatches_guards `{T : TypeInfo} `{B : Backend}
    (rv : repository) (models : list Model) (batchSize : Z) :
  (models = [] ->
     repository_CreateInBatches rv models batchSize = ([], Ok None)) /\
  (models <> [] -> (batchSize <= 0)%Z ->
     repository_CreateInBatches rv models batchSize
     = ([], Ok (Some (errors_New "batch size must be positive")))).
Proof.
  split.
  - intros ->. reflexivity.
  - intros Hne Hb. unfold repository_CreateInBatches.
    destruct models as [|m models]; [congruence|]. simpl.
    destruct (Z.leb_spec batchSize 0); [reflexivity|lia].
Qed.

Lemma CreateInBatches_guards_witness :
  @repository_CreateInBatches test_types quiet_backend test_repository [] (-5)
    = ([], Ok None) /\
  @repository_CreateInBatches test_types quiet_backend test_repository
    [new_TestModel "0" "test"] 0
    = ([], Ok (Some (errors_New "batch size must be positive"))).
Proof.
  split.
  - apply (@CreateInBatches_guards test_types quiet_backend test_repository [] (-5)).
    reflexivity.
  - apply (@CreateInBatches_guards test_types quiet_backend test_repository
             [new_TestModel "0" "test"] 0).
    + discriminate.
    + lia.
Defined.

(** ** The registries *)

Lemma entered_lookup {A : Type} (adapter : A) (names : list string) :
  forall (adapters : gmap string A) (n : string),
  entered adapter names adapters !! n
  = if decide (n ∈ names) then Some adapter else adapters !! n.
Proof.
  unfold entered. induction names as [|name names IH]; intros adapters n; simpl.
  - destruct (decide (n ∈ [])) as [Hin|_]; [|reflexivity].
    apply elem_of_nil in Hin. contradiction.
  - rewrite IH.
    destruct (decide (n ∈ names)) as [Hin|Hout].
    + rewrite decide_True by (right; exact Hin). reflexivity.
    + destruct (decide (n = name)) as [->|Hne].
      * rewrite decide_True by left. apply lookup_insert_eq.
      * rewrite decide_False by (intros Hc; apply elem_of_cons in Hc as [?|?]; contradiction).
        apply lookup_insert_ne. congruence.
Qed.

Lemma RegisterAdapter_loop_all {A : Type} (adapter : A) (names : list string) :
  forall adapters : gmap string A,
  no_empty_name names = true ->
  RegisterAdapter_loop adapter names adapters = (entered adapter names adapters, None).
Proof.
  induction names as [|name names IH]; intros adapters Hne; simpl; [reflexivity|].
  simpl in Hne. apply andb_prop in Hne as [Hn Hne].
  apply negb_true_iff in Hn. rewrite Hn. exact (IH _ Hne).
Qed.

Lemma RegisterAdapter_loop_stops {A : Type} (adapter : A) (pre post : list string) :
  forall adapters : gmap string A,
  no_empty_name pre = true ->
  RegisterAdapter_loop adapter (pre ++ "" :: post) adapters
  = (entered adapter pre adapters, Some "cannot register adapter with an empty name").
Proof.
  induction pre as [|name pre IH]; intros adapters Hne; simpl; [reflexivity|].
  simpl in Hne. apply andb_prop in Hne as [Hn Hne].
  apply negb_true_iff in Hn. rewrite Hn. exact (IH _ Hne).
Qed.

Lemma no_empty_name_spec (names : list string) :
  no_empty_name names = false ->
  exists pre post, names = pre ++ "" :: post /\ no_empty_name pre = true.
Proof.
  intros H. unfold no_empty_name in *.
  destruct (first_rejected (fun name => negb (String.eqb name "")) names)
    as [Hall|(pre & m & post & -> & Hpre & Hm)]; [congruence|].
  apply negb_false_iff, String.eqb_eq in Hm. subst m. eauto.
Qed.

Lemma RegisterAdapter_names {A : Type} (adapter : A) (names : list string)
    (adapters : gmap string A) :
  names <> [] ->
  no_empty_name names = true ->
  RegisterAdapter (Some adapter) names adapters = (entered adapter names adapters, None).
Proof.
  intros Hne Hnames. unfold RegisterAdapter.
  destruct names as [|name names]; [congruence|].
  change (Nat.eqb (length (name :: names)) 0) with false. cbv iota.
  apply RegisterAdapter_loop_all. exact Hnames.
Qed.

Lemma RegisterAdapter_empty_name {A : Type} (adapter : A) (pre post : list string)
    (adapters : gmap string A) :
  no_empty_name pre = true ->
  RegisterAdapter (Some adapter) (pre ++ "" :: post) adapters
  = (entered adapter pre adapters, Some "cannot register adapter with an empty name").
Proof.
  intros Hpre. unfold RegisterAdapter.
  replace (Nat.eqb (length (pre ++ "" :: post)) 0) with false
    by (rewrite length_app; simpl; symmetry; apply Nat.eqb_neq; lia).
  apply RegisterAdapter_loop_stops. exact Hpre.
Qed.

Lemma queryBuilderRegistry_List_spec {F : Type} (factories : gmap string F) :
  NoDup (queryBuilderRegistry_List factories) /\
  forall name, name ∈ queryBuilderRegistry_List factories <-> is_Some (factories !! name).
Proof.
  unfold queryBuilderRegistry_List. split.
  - apply NoDup_fst_map_to_list.
  - intros name. rewrite list_elem_of_fmap. split.
    + intros [[k f] [-> Hin]]. apply elem_of_map_to_list in Hin. simpl. eauto.
    + intros [f Hf]. exists (name, f). split; [reflexivity|].
      apply elem_of_map_to_list. exact Hf.
Qed.

(** C6.  Both registries.  Registering a nil implementation, or under an
    empty name (for the adapters: with an empty name anywhere among the
    aliases), panics.  After a registration under a name that is not
    empty, [Get] of that name returns what was registered, and a second
    registration under the same name replaces it.  [Get] of a name that is
    not registered returns an error whose message holds the name (quoted,
    for the adapters).  [List], which only the registry of query-builder
    factories has, returns the registered names, each once. *)
Theorem registry_semantics `{R : GoRuntime} {A F : Type}
    (adapters : gmap string A) (factories : gmap string F)
    (name : string) (x y : A) (f g : F) (names : list string) :
  name <> "" ->
  (* the adapters *)
  RegisterAdapter None names adapters
    = (adapters, Some "cannot register a nil database adapter") /\
  RegisterAdapter (Some x) [""] adapters
    = (adapters, Some "cannot register adapter with an empty name") /\
  (no_empty_name names = false ->
     exists adapters',
       RegisterAdapter (Some x) names adapters
       = (adapters', Some "cannot register adapter with an empty name")) /\
  (exists adapters1,
     RegisterAdapter (Some x) [name] adapters = (adapters1, None) /\
     GetAdapter name adapters1 = Ok x /\
     exists adapters2,
       RegisterAdapter (Some y) [name] adapters1 = (adapters2, None) /\
       GetAdapter name adapters2 = Ok y) /\
  (names <> [] -> no_empty_name names = true ->
     exists adapters',
       RegisterAdapter (Some x) names adapters = (adapters', None) /\
       forall n, n ∈ names -> GetAdapter n adapters' = Ok x) /\
  (adapters !! name = None ->
     GetAdapter name adapters
     = Err (errors_New ("unknown database adapter " +:+ strconv_Quote name
              +:+ " (is the adapter package imported?)"))) /\
  (* the query-builder factories *)
  queryBuilderRegistry_Register name None factories
    = (factories, Some "factory cannot be nil") /\
  queryBuilderRegistry_Register "" (Some f) factories
    = (factories, Some "adapter name cannot be empty") /\
  (exists factories1,
     queryBuilderRegistry_Register name (Some f) factories = (factories1, None) /\
     queryBuilderRegistry_Get name factories1 = Ok f /\
     name ∈ queryBuilderRegistry_List factories1 /\
     exists factories2,
       queryBuilderRegistry_Register name (Some g) factories1 = (factories2, None) /\
       queryBuilderRegistry_Get name factories2 = Ok g) /\
  (factories !! name = None ->
     queryBuilderRegistry_Get name factories
     = Err (errors_New ("query builder factory not found for adapter: " +:+ name))) /\
  NoDup (queryBuilderRegistry_List factories) /\
  (forall n, n ∈ queryBuilderRegistry_List factories <-> is_Some (factories !! n)).
Proof.
  intros Hname.
  assert (Hneq : String.eqb name "" = false) by (apply String.eqb_neq; exact Hname).
  split; [reflexivity|]. split; [reflexivity|]. split.
  { intros Hbad. destruct (no_empty_name_spec names Hbad) as (pre & post & -> & Hpre).
    rewrite (RegisterAdapter_empty_name x pre post adapters Hpre). eauto. }
  split.
  { unfold RegisterAdapter, GetAdapter. simpl. rewrite Hneq.
    eexists. split; [reflexivity|]. rewrite lookup_insert_eq. split; [reflexivity|].
    eexists. split; [reflexivity|]. rewrite lookup_insert_eq. reflexivity. }
  split.
  { intros Hne Hnames. rewrite (RegisterAdapter_names x names adapters Hne Hnames).
    eexists. split; [reflexivity|]. intros n Hn. unfold GetAdapter.
    rewrite entered_lookup. rewrite decide_True by exact Hn. reflexivity. }
  split.
  { intros Hnone. unfold GetAdapter. rewrite Hnone. reflexivity. }
  split.
  { unfold queryBuilderRegistry_Register. rewrite Hneq. reflexivity. }
  split; [reflexivity|]. split.
  { unfold queryBuilderRegistry_Register, queryBuilderRegistry_Get. rewrite Hneq.
    eexists. split; [reflexivity|]. rewrite lookup_insert_eq. split; [reflexivity|].
    split.
    - apply queryBuilderRegistry_List_spec. rewrite lookup_insert_eq. eauto.
    - eexists. split; [reflexivity|]. rewrite lookup_insert_eq. reflexivity. }
  split.
  { intros Hnone. unfold queryBuilderRegistry_Get. rewrite Hnone. reflexivity. }
  apply queryBuilderRegistry_List_spec.
Qed.

Lemma registry_semantics_witness :
  ("fam:a" <> "") /\
  (exists adapters',
     RegisterAdapter (Some 7%nat) ["fam:a"; "fam:b"] (∅ : gmap string nat)
       = (adapters', None) /\
     forall n, n ∈ ["fam:a"; "fam:b"] -> @GetAdapter ascii_runtime nat n adapters' = Ok 7%nat) /\
  (exists factories1,
     queryBuilderRegistry_Register "fam:a" (Some 1%nat) (∅ : gmap string nat)
       = (factories1, None) /\
     queryBuilderRegistry_Get "fam:a" factories1 = Ok 1%nat /\
     "fam:a" ∈ queryBuilderRegistry_List factories1 /\
     exists factories2,
       queryBuilderRegistry_Register "fam:a" (Some 2%nat) factories1 = (factories2, None) /\
       queryBuilderRegistry_Get "fam:a" factories2 = Ok 2%nat).
Proof.
  assert (Hname : "fam:a" <> "") by discriminate.
  split; [exact Hname|].
  destruct (@registry_semantics ascii_runtime nat nat ∅ ∅ "fam:a" 7%nat 8%nat 1%nat 2%nat
              ["fam:a"; "fam:b"] Hname)
    as (_ & _ & _ & _ & Haliases & _ & _ & _ & Hfactories & _).
  split.
  - apply Haliases; [discriminate|reflexivity].
  - exact Hfactories.
Defined.

(** C10.  [RegisterAdapter] with several names.  A nil adapter and an
    empty list of names panic and leave the registry as it was.  When the
    name at position i is the first empty one, the call panics with the
    names before i entered in the registry: each of them is then bound to
    the adapter, and no other name has changed. *)
Theorem RegisterAdapter_is_not_atomic {A : Type}
    (adapter : A) (adapters : gmap string A) (pre post : list string) :
  no_empty_name pre = true ->
  (forall names,
     RegisterAdapter None names adapters
     = (adapters, Some "cannot register a nil database adapter")) /\
  RegisterAdapter (Some adapter) [] adapters
    = (adapters, Some "cannot register adapter without at least one name") /\
  exists adapters',
    RegisterAdapter (Some adapter) (pre ++ "" :: post) adapters
    = (adapters', Some "cannot register adapter with an empty name") /\
    (forall n, n ∈ pre -> adapters' !! n = Some adapter) /\
    (forall n, n ∉ pre -> adapters' !! n = adapters !! n).
Proof.
  intros Hpre. split; [reflexivity|]. split; [reflexivity|].
  exists (entered adapter pre adapters).
  split; [exact (RegisterAdapter_empty_name adapter pre post adapters Hpre)|].
  split; intros n Hn; rewrite entered_lookup.
  - rewrite decide_True by exact Hn. reflexivity.
  - rewrite decide_False by exact Hn. reflexivity.
Qed.

Lemma RegisterAdapter_is_not_atomic_witness :
  (no_empty_name ["dummy"] = true) /\
  exists adapters',
    RegisterAdapter (Some 7%nat) (["dummy"] ++ "" :: ["dummy-alias"]) (∅ : gmap string nat)
    = (adapters', Some "cannot register adapter with an empty name") /\
    adapters' !! "dummy" = Some 7%nat /\
    adapters' !! "dummy-alias" = None.
Proof.
  split; [reflexivity|].
  destruct (@RegisterAdapter_is_not_atomic nat 7%nat ∅ ["dummy"] ["dummy-alias"] eq_refl)
    as (_ & _ & adapters' & Hcall & Hin & Hout).
  exists adapters'. split; [exact Hcall|]. split.
  - apply Hin. left.
  - rewrite Hout; [reflexivity|].
    intros Hc. apply list_elem_of_singleton in Hc. discriminate.
Defined.

(** ** The Connect facade *)

(** C9.  When the configuration is valid, an adapter is resolved, its
    [Connect] returns a connection and no error, and the ping of that
    connection returns an error, then [Connect] returns the ping error
    wrapped as a connection-ping error and no connection; the calls it made
    are, in this order, the adapter's [Connect], the connection's [Ping]
    and the connection's [Close]: the connection is closed once, after the
    ping and before the return. *)
Theorem Connect_closes_after_failed_ping `{R : GoRuntime}
    (cfg : Config) (opts : list (Config -> Config))
    (adapters : gmap string DBAdapter) (log : list event)
    (adapter : DBAdapter) (conn : Connection) (pingErr : error) :
  Validate (apply_options cfg opts) = None ->
  resolve_adapter (apply_options cfg opts) adapters = Ok adapter ->
  adapter_Connect adapter (cfg_fields (apply_options cfg opts)) log = (Some conn, None) ->
  conn_Ping conn (log ++ [ev_Connect (adapter_id adapter)]) = Some pingErr ->
  exists calls,
    Connect cfg opts adapters log = (Err (NewConnectionPingError pingErr), log ++ calls) /\
    calls = [ev_Connect (adapter_id adapter); ev_Ping (conn_id conn); ev_Close (conn_id conn)] /\
    closes (conn_id conn) calls = 1 /\
    last (log ++ calls) = Some (ev_Close (conn_id conn)).
Proof.
  intros Hvalid Hresolve Hconnect Hping.
  exists [ev_Connect (adapter_id adapter); ev_Ping (conn_id conn); ev_Close (conn_id conn)].
  split.
  - unfold Connect. rewrite Hvalid, Hresolve, Hconnect, Hping.
    rewrite <- !app_assoc. reflexivity.
  - split; [reflexivity|]. split.
    + unfold closes. simpl. rewrite Nat.eqb_refl. reflexivity.
    + rewrite last_app. reflexivity.
Qed.

(** The other way round: after a ping without error the connection is
    returned and was not closed. *)
Lemma Connect_keeps_a_live_connection `{R : GoRuntime}
    (cfg : Config) (opts : list (Config -> Config))
    (adapters : gmap string DBAdapter) (log : list event)
    (adapter : DBAdapter) (conn : Connection) :
  Validate (apply_options cfg opts) = None ->
  resolve_adapter (apply_options cfg opts) adapters = Ok adapter ->
  adapter_Connect adapter (cfg_fields (apply_options cfg opts)) log = (Some conn, None) ->
  conn_Ping conn (log ++ [ev_Connect (adapter_id adapter)]) = None ->
  Connect cfg opts adapters log
  = (Ok conn, log ++ [ev_Connect (adapter_id adapter); ev_Ping (conn_id conn)]).
Proof.
  intros Hvalid Hresolve Hconnect Hping.
  unfold Connect. rewrite Hvalid, Hresolve, Hconnect, Hping.
  rewrite <- !app_assoc. reflexivity.
Qed.

Lemma Connect_closes_after_failed_ping_witness :
  exists calls,
    @Connect ascii_runtime fake_config
      [WithAdapter (Some (fakeAdapter (Some (fakeConn (Some (errors_New "ping failed")) None)) None))]
      ∅ []
    = (Err (NewConnectionPingError (errors_New "ping failed")), [] ++ calls) /\
    calls = [ev_Connect 0; ev_Ping 1; ev_Close 1] /\
    closes 1 calls = 1 /\
    last ([] ++ calls) = Some (ev_Close 1).
Proof.
  apply (@Connect_closes_after_failed_ping ascii_runtime fake_config
           [WithAdapter (Some (fakeAdapter (Some (fakeConn (Some (errors_New "ping failed")) None)) None))]
           ∅ []
           (fakeAdapter (Some (fakeConn (Some (errors_New "ping failed")) None)) None)
           (fakeConn (Some (errors_New "ping failed")) None)
           (errors_New "ping failed"));
    reflexivity.
Defined.

(* ===================================================================== *)
(** * Part III: further properties of the code                            *)
(* ===================================================================== *)

(** ** Driver names *)

Lemma Split_length (s : string) (sep : ascii) :
  length (Split s sep) = S (occurrences sep s).
Proof.
  induction s as [|c s IH]; simpl; [reflexivity|].
  destruct (Ascii.eqb c sep); simpl.
  - rewrite IH. reflexivity.
  - destruct (Split s sep) as [|part parts]; simpl in *; [discriminate|exact IH].
Qed.

Lemma Split_no_separator (s : string) (sep : ascii) :
  occurrences sep s = 0 -> Split s sep = [s].
Proof.
  induction s as [|c s IH]; simpl; [reflexivity|].
  destruct (Ascii.eqb c sep); simpl; [discriminate|].
  intros H. rewrite (IH H). reflexivity.
Qed.

Lemma Split_at_separator (a b : string) (sep : ascii) :
  occurrences sep a = 0 ->
  Split (a +:+ String sep b) sep = a :: Split b sep.
Proof.
  induction a as [|c a IH]; simpl.
  - intros _. rewrite Ascii.eqb_refl. reflexivity.
  - destruct (Ascii.eqb c sep); simpl; [discriminate|].
    intros H. rewrite (IH H). reflexivity.
Qed.

Lemma occurrences_append (sep : ascii) (a b : string) :
  occurrences sep (a +:+ b) = occurrences sep a + occurrences sep b.
Proof.
  induction a as [|c a IH]; simpl; [reflexivity|]. rewrite IH. lia.
Qed.

(** A string with one separator is a part, the separator and a part. *)
Lemma one_separator (s : string) (sep : ascii) :
  occurrences sep s = 1 ->
  exists a b, s = a +:+ String sep b /\ occurrences sep a = 0 /\ occurrences sep b = 0.
Proof.
  induction s as [|c s IH]; simpl; [discriminate|].
  destruct (Ascii.eqb c sep) eqn:Hc; simpl; intros H.
  - apply Ascii.eqb_eq in Hc. subst c.
    exists EmptyString, s. simpl. repeat split. lia.
  - destruct (IH H) as (a & b & -> & Ha & Hb).
    exists (String c a), b. simpl. rewrite Hc. auto.
Qed.

(** X1.  [NewDialectStrategy] takes a driver name exactly when it holds
    one colon, and then the dialect is what follows the colon, whatever
    stands before it: the prefix is not compared with "gorm".
    [ValidateDriverFormat] of package utils takes the same names and gives
    the same dialect. *)
Theorem driver_format (driver : string) :
  ((exists g, NewDialectStrategy driver = Ok g) <-> occurrences ":" driver = 1) /\
  (occurrences ":" driver <> 1 ->
     NewDialectStrategy driver = Err (invalid_driver_format driver)) /\
  (forall pre dialect,
     driver = pre +:+ String ":" dialect ->
     occurrences ":" pre = 0 -> occurrences ":" dialect = 0 ->
     NewDialectStrategy driver = Ok (mkDialectStrategy dialect)) /\
  ValidateDriverFormat driver
  = match NewDialectStrategy driver with
    | Ok g => Ok (dialectName g)
    | Err e => Err e
    | Panic msg => Panic msg
    end.
Proof.
  assert (Hbad : occurrences ":" driver <> 1 ->
            NewDialectStrategy driver = Err (invalid_driver_format driver)).
  { intros Hn. unfold NewDialectStrategy. rewrite Split_length.
    destruct (Nat.eqb_spec (S (occurrences ":" driver)) 2) as [Heq|Hne]; [lia|reflexivity]. }
  assert (Hgood : forall pre dialect,
     driver = pre +:+ String ":" dialect ->
     occurrences ":" pre = 0 -> occurrences ":" dialect = 0 ->
     NewDialectStrategy driver = Ok (mkDialectStrategy dialect)).
  { intros pre dialect -> Hp Hd. unfold NewDialectStrategy.
    rewrite (Split_at_separator pre dialect ":" Hp), (Split_no_separator dialect ":" Hd).
    reflexivity. }
  split; [|split; [exact Hbad|split; [exact Hgood|]]].
  - split.
    + intros [g Hg]. destruct (Nat.eq_dec (occurrences ":" driver) 1) as [H1|H1]; [exact H1|].
      rewrite (Hbad H1) in Hg. discriminate.
    + intros H1. destruct (one_separator driver ":" H1) as (a & b & Hs & Ha & Hb).
      exists (mkDialectStrategy b). exact (Hgood a b Hs Ha Hb).
  - unfold ValidateDriverFormat, NewDialectStrategy.
    destruct (negb (Nat.eqb (length (Split driver ":")) 2)); reflexivity.
Qed.

Lemma driver_format_witness :
  NewDialectStrategy "custom:sqlite" = Ok (mkDialectStrategy "sqlite") /\
  NewDialectStrategy "gorm" = Err (invalid_driver_format "gorm").
Proof.
  split.
  - destruct (driver_format "custom:sqlite") as (_ & _ & Hgood & _).
    apply (Hgood "custom" "sqlite"); reflexivity.
  - destruct (driver_format "gorm") as (_ & Hbad & _).
    apply Hbad. discriminate.
Defined.

(** X2.  [ValidateDriver] accepts a driver name exactly when
    [NewDialectStrategy] takes it and [CreateDialector] has a driver for
    its dialect, which is the case for mysql, postgres and sqlite only;
    the dialector then holds the connection string as given. *)
Theorem ValidateDriver_agrees_with_creation
    (g : DialectStrategy) (driver dsn : string) :
  (ValidateDriver g driver = None <->
   exists g' d, NewDialectStrategy driver = Ok g' /\ CreateDialector g' dsn = Ok d) /\
  (forall g', (exists d, CreateDialector g' dsn = Ok d) <-> supported_dialect (dialectName g') = true) /\
  (forall g' d, CreateDialector g' dsn = Ok d ->
     d = mysql_Open dsn \/ d = postgres_Open dsn \/ d = sqlite_Open dsn).
Proof.
  assert (Hcreate : forall g',
            (exists d, CreateDialector g' dsn = Ok d) <-> supported_dialect (dialectName g') = true).
  { intros g'. unfold CreateDialector, supported_dialect.
    destruct (String.eqb (dialectName g') DriverMySQL); simpl; [split; eauto|].
    destruct (String.eqb (dialectName g') DriverPostgres); simpl; [split; eauto|].
    destruct (String.eqb (dialectName g') DriverSQLite); simpl; [split; eauto|].
    split; [intros [d Hd]; discriminate|discriminate]. }
  split; [|split; [exact Hcreate|]].
  - unfold ValidateDriver, NewDialectStrategy.
    destruct (negb (Nat.eqb (length (Split driver ":")) 2)).
    + split; [discriminate|]. intros (g' & d & Hg & _). discriminate.
    + cbv zeta. fold (supported_dialect (nth 1 (Split driver ":") EmptyString)).
      specialize (Hcreate (mkDialectStrategy (nth 1 (Split driver ":") EmptyString))).
      simpl in Hcreate.
      destruct (supported_dialect (nth 1 (Split driver ":") EmptyString)).
      * split; [|reflexivity]. intros _.
        destruct (proj2 Hcreate eq_refl) as [d Hd]. eauto.
      * split; [discriminate|]. intros (g' & d & Hg & Hd).
        injection Hg as <-.
        pose proof (proj1 Hcreate (ex_intro _ d Hd)) as Habs. discriminate Habs.
  - intros g' d. unfold CreateDialector.
    destruct (String.eqb (dialectName g') DriverMySQL); [intros [= <-]; auto|].
    destruct (String.eqb (dialectName g') DriverPostgres); [intros [= <-]; auto|].
    destruct (String.eqb (dialectName g') DriverSQLite); [intros [= <-]; auto|].
    discriminate.
Qed.

Lemma ValidateDriver_agrees_with_creation_witness :
  ValidateDriver (mkDialectStrategy "mysql") "gorm:sqlite" = None /\
  (sqlite_Open "file.db" = mysql_Open "file.db" \/
   sqlite_Open "file.db" = postgres_Open "file.db" \/
   sqlite_Open "file.db" = sqlite_Open "file.db").
Proof.
  destruct (ValidateDriver_agrees_with_creation (mkDialectStrategy "mysql") "gorm:sqlite" "file.db")
    as (Hvalid & _ & Hdialector).
  split.
  - apply Hvalid. exists (mkDialectStrategy "sqlite"), (sqlite_Open "file.db").
    split; reflexivity.
  - apply (Hdialector (mkDialectStrategy "sqlite")). reflexivity.
Defined.

(** ** The connection pool *)

(** X3.  The two ways of the code to configure the pool agree: the
    setters [applyConnectionPoolOptions] calls on the options
    [configFromOptions] derives from a configuration are those
    [ConfigureConnectionPool] calls for it, in the same order: the lifetime
    always (ten seconds unless the configuration has a positive one), the
    idle and open limits only when positive. *)
Theorem pool_configurations_agree (cfg : ConfigFields) (ConnMaxLifetime : Z) :
  applyConnectionPoolOptions (configFromOptions cfg ConnMaxLifetime)
  = ConfigureConnectionPool cfg ConnMaxLifetime.
Proof.
  unfold applyConnectionPoolOptions, configFromOptions, ConfigureConnectionPool, pool_setters.
  destruct (0 <? MaxOpenConns cfg)%Z eqn:Ho, (0 <? MaxIdleConns cfg)%Z eqn:Hi,
           (0 <? ConnMaxLifetime)%Z eqn:Hl; simpl; rewrite ?Ho, ?Hi, ?Hl; reflexivity.
Qed.

Lemma foldl_options_snoc (options : list ConnectionPoolOption) (o : ConnectionPoolOption)
    (opts : ConnectionPoolOptions) :
  foldl (fun x option => option x) opts (options ++ [o])
  = o (foldl (fun x option => option x) opts options).
Proof. rewrite foldl_app. reflexivity. Qed.

Lemma last_written_snoc (written : pool_setting -> option Z) (initial : Z)
    (settings : list pool_setting) (s : pool_setting) :
  last_written written initial (settings ++ [s])
  = match written s with
    | Some v => v
    | None => last_written written initial settings
    end.
Proof.
  unfold last_written. rewrite omap_app. simpl.
  destruct (written s) as [v|]; simpl.
  - rewrite last_snoc. reflexivity.
  - rewrite app_nil_r. reflexivity.
Qed.

(** The options of a list, applied in order to the defaults, leave each
    setting at what the last option on that setting wrote. *)
Lemma pool_options_applied (settings : list pool_setting) :
  foldl (fun x option => option x) (mkPoolOptions 0 0 (10 * time_Second))
    (map pool_option settings)
  = mkPoolOptions
      (last_written written_MaxOpenConns 0 settings)
      (last_written written_MaxIdleConns 0 settings)
      (last_written written_ConnMaxLifetime (10 * time_Second) settings).
Proof.
  induction settings as [|s settings IH] using rev_ind; [reflexivity|].
  rewrite map_app. simpl map. rewrite foldl_options_snoc, IH, !last_written_snoc.
  destruct s; reflexivity.
Qed.

(** X4.  In [applyConnectionPoolOptions], for every list of the package's
    options in any order, the last option on a setting decides that
    setting and the options on the other settings do not touch it; a
    setting no option writes keeps its default (no limit; ten seconds of
    lifetime).  The setters are called in the order lifetime, idle, open,
    whatever the order of the options, each at most once, with the value
    so decided when it is positive and not at all otherwise: no value that
    is not positive is handed to [sql.DB], and a last lifetime option of
    zero or less also takes away the default of ten seconds. *)
Theorem last_pool_option_decides (settings : list pool_setting) :
  let lifetime := last_written written_ConnMaxLifetime (10 * time_Second) settings in
  let idle := last_written written_MaxIdleConns 0 settings in
  let open := last_written written_MaxOpenConns 0 settings in
  applyConnectionPoolOptions (map pool_option settings)
  = (if (0 <? lifetime)%Z then [SetConnMaxLifetime lifetime] else [])
    ++ (if (0 <? idle)%Z then [SetMaxIdleConns idle] else [])
    ++ (if (0 <? open)%Z then [SetMaxOpenConns open] else []) /\
  (forall m, In (SetMaxOpenConns m) (applyConnectionPoolOptions (map pool_option settings))
     <-> m = open /\ (0 < open)%Z) /\
  (forall m, In (SetMaxIdleConns m) (applyConnectionPoolOptions (map pool_option settings))
     <-> m = idle /\ (0 < idle)%Z) /\
  (forall m, In (SetConnMaxLifetime m) (applyConnectionPoolOptions (map pool_option settings))
     <-> m = lifetime /\ (0 < lifetime)%Z) /\
  Forall (fun c => (0 < sql_argument c)%Z) (applyConnectionPoolOptions (map pool_option settings)).
Proof.
  intros lifetime idle open.
  assert (Hcalls : applyConnectionPoolOptions (map pool_option settings)
                   = (if (0 <? lifetime)%Z then [SetConnMaxLifetime lifetime] else [])
                     ++ (if (0 <? idle)%Z then [SetMaxIdleConns idle] else [])
                     ++ (if (0 <? open)%Z then [SetMaxOpenConns open] else [])).
  { unfold applyConnectionPoolOptions. cbv zeta. rewrite pool_options_applied. reflexivity. }
  rewrite Hcalls. clear Hcalls. clearbody lifetime idle open.
  split; [reflexivity|].
  destruct (Z.ltb_spec 0 lifetime), (Z.ltb_spec 0 idle), (Z.ltb_spec 0 open); simpl;
    (split; [|split; [|split]]);
    try (intros m; split;
         [ intros Hin; repeat (destruct Hin as [Hin|Hin]); try discriminate Hin;
           try contradiction; injection Hin as <-; (split; [reflexivity|lia])
         | intros [-> Hn]; try lia; auto 6 ]);
    repeat constructor; simpl; lia.
Qed.

Lemma last_pool_option_decides_witness :
  In (SetMaxOpenConns 5)
    (applyConnectionPoolOptions
       (map pool_option [set_MaxOpenConns 3; set_MaxOpenConns 5; set_MaxIdleConns 2;
                         set_ConnMaxLifetime 0])) /\
  ~ In (SetConnMaxLifetime (10 * time_Second))
      (applyConnectionPoolOptions
         (map pool_option [set_MaxOpenConns 3; set_MaxOpenConns 5; set_MaxIdleConns 2;
                           set_ConnMaxLifetime 0])).
Proof.
  destruct (last_pool_option_decides
              [set_MaxOpenConns 3; set_MaxOpenConns 5; set_MaxIdleConns 2;
               set_ConnMaxLifetime 0]) as (_ & Hopen & _ & Hlife & _).
  split.
  - apply Hopen. split; [reflexivity|]. vm_compute. reflexivity.
  - intros Hin. apply Hlife in Hin. destruct Hin as [_ Hpos].
    vm_compute in Hpos. discriminate Hpos.
Defined.

(** ** Relationships *)

(** X5.  Whatever the constructor, a relationship carries either key
    columns or a join table, never both: a join table that is not empty
    goes with the type BelongsToMany, whose foreign and owner keys are
    empty, and the three other types have an empty join table.  Each
    constructor keeps the related model and the names it was given, and no
    constructor gives the type Many2Many that [handleRelationshipPreload]
    also looks for. *)
Theorem relationship_carries_keys_or_join_table (r : Relationship) :
  (ManyToManyJoinTable r <> "" -> Relationship_Type r = BelongsToMany) /\
  (Relationship_Type r = BelongsToMany -> ForeignKey r = "" /\ OwnerKey r = "") /\
  (Relationship_Type r <> BelongsToMany -> ManyToManyJoinTable r = "") /\
  Relationship_Type r <> Many2Many /\
  (forall related fk ok,
     let checks (mk : Model -> string -> string -> Relationship) :=
       RelatedModel (mk related fk ok) = related /\
       ForeignKey (mk related fk ok) = fk /\ OwnerKey (mk related fk ok) = ok in
     checks NewHasOne /\ checks NewHasMany /\ checks NewBelongsTo) /\
  (forall related joinTable,
     RelatedModel (NewBelongsToMany related joinTable) = related /\
     ManyToManyJoinTable (NewBelongsToMany related joinTable) = joinTable).
Proof.
  repeat split; destruct r; simpl; try congruence; try discriminate; auto.
Qed.

Lemma relationship_carries_keys_or_join_table_witness :
  Relationship_Type (NewBelongsToMany None "user_roles") = BelongsToMany /\
  ForeignKey (NewBelongsToMany None "user_roles") = "" /\
  ManyToManyJoinTable (NewHasOne None "user_id" "id") = "".
Proof.
  destruct (relationship_carries_keys_or_join_table (NewBelongsToMany None "user_roles"))
    as (Hjoin & Hkeys & _).
  destruct (relationship_carries_keys_or_join_table (NewHasOne None "user_id" "id"))
    as (_ & _ & Hnojoin & _).
  split; [apply Hjoin; discriminate|].
  split; [apply Hkeys; reflexivity|].
  apply Hnojoin. discriminate.
Defined.

(** ** Validators of package utils *)

Lemma TrimSpace_not_empty `{R : GoRuntime} (s : string) :
  String.eqb (TrimSpace s) "" = false -> String.eqb s "" = false.
Proof.
  destruct s as [|c s]; [|reflexivity].
  intros H. exact H.
Qed.

(** X6.  [ValidateConfigForMigration] is at least as strict as
    [Config.Validate]: a configuration it accepts has a driver and a
    connection string that are not empty, so [Validate] accepts it too.  It
    accepts exactly when the migrations path, the connection string and the
    driver are not blank once trimmed. *)
Theorem migration_validation_implies_validation `{R : GoRuntime} (c : Config) :
  (ValidateConfigForMigration (cfg_fields c) = None ->
   Validate c = None) /\
  (ValidateConfigForMigration (cfg_fields c) = None <->
   String.eqb (TrimSpace (MigrationsPath (cfg_fields c))) "" = false /\
   String.eqb (TrimSpace (DSN (cfg_fields c))) "" = false /\
   String.eqb (TrimSpace (Driver (cfg_fields c))) "" = false).
Proof.
  assert (Hiff : ValidateConfigForMigration (cfg_fields c) = None <->
     String.eqb (TrimSpace (MigrationsPath (cfg_fields c))) "" = false /\
     String.eqb (TrimSpace (DSN (cfg_fields c))) "" = false /\
     String.eqb (TrimSpace (Driver (cfg_fields c))) "" = false).
  { unfold ValidateConfigForMigration.
    destruct (String.eqb (TrimSpace (MigrationsPath (cfg_fields c))) "");
      [split; [discriminate|intros (H & _); discriminate]|].
    destruct (String.eqb (TrimSpace (DSN (cfg_fields c))) "");
      [split; [discriminate|intros (_ & H & _); discriminate]|].
    destruct (String.eqb (TrimSpace (Driver (cfg_fields c))) "");
      [split; [discriminate|intros (_ & _ & H); discriminate]|].
    split; auto. }
  split; [|exact Hiff].
  intros H. apply Hiff in H as (_ & Hdsn & Hdrv).
  unfold Validate.
  rewrite (TrimSpace_not_empty _ Hdrv), (TrimSpace_not_empty _ Hdsn). reflexivity.
Qed.

Lemma migration_validation_implies_validation_witness :
  @ValidateConfigForMigration ascii_runtime
    (mkFields "gorm:sqlite" ":memory:" "database/migrations" "domain" 10 100) = None /\
  Validate (mkConfig (mkFields "gorm:sqlite" ":memory:" "database/migrations" "domain" 10 100) None)
  = None.
Proof.
  split; [reflexivity|].
  destruct (@migration_validation_implies_validation ascii_runtime
           (mkConfig (mkFields "gorm:sqlite" ":memory:" "database/migrations" "domain" 10 100) None))
    as [Himpl _].
  apply Himpl. reflexivity.
Defined.

Lemma ValidateModelsSlice_loop_first_nil {A : Type}
    (pre : list (option A)) (post : list (option A)) (operation : string) :
  forall i,
  forallb (fun m => match m with Some _ => true | None => false end) pre = true ->
  ValidateModelsSlice_loop i (pre ++ None :: post) operation
  = Some (errors_New ("model at index " +:+ pretty (i + length pre) +:+ " cannot be nil for "
            +:+ operation +:+ " operation")).
Proof.
  induction pre as [|m pre IH]; intros i Hpre; simpl.
  - rewrite Nat.add_0_r. reflexivity.
  - simpl in Hpre. destruct m as [a|]; [|discriminate].
    rewrite (IH (S i) Hpre).
    replace (S i + length pre) with (i + S (length pre)) by lia. reflexivity.
Qed.

Lemma ValidateModelsSlice_loop_no_nil {A : Type} (models : list (option A)) (operation : string) :
  forall i,
  forallb (fun m => match m with Some _ => true | None => false end) models = true ->
  ValidateModelsSlice_loop i models operation = None.
Proof.
  induction models as [|m models IH]; intros i Hall; simpl; [reflexivity|].
  simpl in Hall. destruct m as [a|]; [|discriminate]. apply IH. exact Hall.
Qed.

(** X7.  [ValidateModelsSlice] returns no error exactly for a slice that
    is not empty and holds no nil; otherwise the error names the index of
    the first nil.  [ValidateModelsSliceForOperation] does the same except
    that it takes the empty slice. *)
Theorem ValidateModelsSlice_first_nil (models : list Model) (operation : string) :
  (ValidateModelsSlice models operation = None <->
   models <> [] /\
   forallb (fun m : Model => match m with Some _ => true | None => false end) models = true) /\
  (forall pre post,
     models = pre ++ None :: post ->
     forallb (fun m : Model => match m with Some _ => true | None => false end) pre = true ->
     ValidateModelsSlice models operation
     = Some (errors_New ("model at index " +:+ pretty (length pre) +:+ " cannot be nil for "
               +:+ operation +:+ " operation")) /\
     ValidateModelsSliceForOperation models operation = ValidateModelsSlice models operation) /\
  (models <> [] ->
     ValidateModelsSliceForOperation models operation = ValidateModelsSlice models operation) /\
  ValidateModelsSliceForOperation [] operation = None /\
  ValidateModelsSlice ([] : list Model) operation
  = Some (errors_New ("models slice cannot be empty for " +:+ operation +:+ " operation")).
Proof.
  assert (Hnil : forall pre post,
     models = pre ++ None :: post ->
     forallb (fun m : Model => match m with Some _ => true | None => false end) pre = true ->
     ValidateModelsSlice models operation
     = Some (errors_New ("model at index " +:+ pretty (length pre) +:+ " cannot be nil for "
               +:+ operation +:+ " operation")) /\
     ValidateModelsSliceForOperation models operation = ValidateModelsSlice models operation).
  { intros pre post -> Hpre. unfold ValidateModelsSliceForOperation, ValidateModelsSlice.
    replace (Nat.eqb (length (pre ++ None :: post)) 0) with false
      by (rewrite length_app; simpl; symmetry; apply Nat.eqb_neq; lia).
    split; [|reflexivity].
    exact (ValidateModelsSlice_loop_first_nil pre post operation 0 Hpre). }
  split; [|split; [exact Hnil|split; [|split; reflexivity]]].
  - split.
    + intros Hok. destruct models as [|m models]; [discriminate|].
      split; [discriminate|].
      destruct (first_rejected (fun m : Model => match m with Some _ => true | None => false end)
                  (m :: models)) as [Hall|(pre & x & post & Heq & Hpre & Hx)]; [exact Hall|].
      destruct x as [v|]; [discriminate|].
      destruct (Hnil pre post Heq Hpre) as [Herr _]. rewrite Herr in Hok. discriminate.
    + intros [Hne Hall]. unfold ValidateModelsSlice.
      destruct models as [|m models]; [congruence|].
      change (Nat.eqb (length (m :: models)) 0) with false. cbv iota.
      apply ValidateModelsSlice_loop_no_nil. exact Hall.
  - intros Hne. unfold ValidateModelsSliceForOperation, ValidateModelsSlice.
    destruct models; [congruence|reflexivity].
Qed.

Lemma ValidateModelsSlice_first_nil_witness :
  ValidateModelsSlice [new_TestModel "1" "a"; None; None] "create"
  = Some (errors_New "model at index 1 cannot be nil for create operation").
Proof.
  destruct (ValidateModelsSlice_first_nil [new_TestModel "1" "a"; None; None] "create")
    as (_ & Hnil & _).
  destruct (Hnil [new_TestModel "1" "a"] [None] eq_refl eq_refl) as [Herr _].
  exact Herr.
Defined.

(** ** The read path of the bridge *)

Lemma convertSliceToModels_loop_fails `{T : TypeInfo}
    (pre : list value) (item : value) (post : list value) :
  forall (i : nat) (models : list Model),
  forallb (fun x => implementsModel (TypeOf x)) pre = true ->
  implementsModel (TypeOf item) = false ->
  convertSliceToModels_loop i (pre ++ item :: post) models
  = Err (errors_New ("failed to assert item at index " +:+ pretty (i + length pre)
           +:+ " to contract.Model, got type " +:+ type_String (TypeOf item))).
Proof.
  induction pre as [|x pre IH]; intros i models Hpre Hitem; simpl.
  - unfold assert_Model. rewrite Hitem, Nat.add_0_r. reflexivity.
  - simpl in Hpre. apply andb_prop in Hpre as [Hx Hpre].
    unfold assert_Model at 1. rewrite Hx. rewrite (IH (S i) _ Hpre Hitem).
    replace (S i + length pre) with (i + S (length pre)) by lia. reflexivity.
Qed.

(** X8.  [convertSliceToModels] never panics and takes the empty slice.
    It succeeds exactly when the type of every element implements
    contract.Model, and then returns the elements themselves, in order;
    otherwise it fails at the first element whose type does not, with an
    error that holds its index and its type. *)
Theorem convertSliceToModels_outcomes `{T : TypeInfo} (s : slice) :
  (forallb (fun x => implementsModel (TypeOf x)) (slice_items s) = true /\
   convertSliceToModels s = Ok (map Some (slice_items s))) \/
  (exists pre item post,
     slice_items s = pre ++ item :: post /\
     forallb (fun x => implementsModel (TypeOf x)) pre = true /\
     implementsModel (TypeOf item) = false /\
     convertSliceToModels s
     = Err (errors_New ("failed to assert item at index " +:+ pretty (length pre)
              +:+ " to contract.Model, got type " +:+ type_String (TypeOf item)))).
Proof.
  destruct (first_rejected (fun x => implementsModel (TypeOf x)) (slice_items s))
    as [Hall|(pre & item & post & Heq & Hpre & Hitem)].
  - left. split; [exact Hall|]. apply convertSliceToModels_accepts. exact Hall.
  - right. exists pre, item, post. repeat split; auto.
    unfold convertSliceToModels. rewrite Heq.
    exact (convertSliceToModels_loop_fails pre item post 0 _ Hpre Hitem).
Qed.

(** X9.  [Get] on a repository whose model is a pointer hands the backend
    an empty slice of pointers to the model's type.  An error of the
    backend is returned as it is, without a list.  Without an error, and
    when the rows are of a type that implements contract.Model, the result
    is the rows the backend decoded, in order and as they are; no row at
    all gives the empty list and no error. *)
Theorem Get_returns_the_rows `{T : TypeInfo} `{S : Store}
    (rv : repository) (elem : rtype) (target : option value) :
  repo_mdl rv = Some (VPtr elem target) ->
  let c := call_Find (repo_db rv) (mkSlice (TPtr elem) []) in
  (forall err, store_Error c = Some err -> repository_Get rv = Err err) /\
  (store_Error c = None ->
   forallb (fun x => implementsModel (TypeOf x)) (store_rows c) = true ->
   repository_Get rv = Ok (map Some (store_rows c))) /\
  (store_Error c = None -> store_rows c = [] -> repository_Get rv = Ok []).
Proof.
  intros Hm c. subst c.
  assert (Hunfold : repository_Get rv =
     match store_Error (call_Find (repo_db rv) (mkSlice (TPtr elem) [])) with
     | Some err => Err err
     | None =>
         convertSliceToModels
           (mkSlice (TPtr elem)
              (store_rows (call_Find (repo_db rv) (mkSlice (TPtr elem) []))))
     end).
  { unfold repository_Get, executeQueryAndConvertToModels, getModelType,
      createSliceOfModelType.
    rewrite Hm. simpl.
    destruct (store_Error (call_Find (repo_db rv) (mkSlice (TPtr elem) []))); reflexivity. }
  rewrite Hunfold.
  split; [|split].
  - intros err Herr. rewrite Herr. reflexivity.
  - intros Hok Hall. rewrite Hok.
    apply (convertSliceToModels_accepts
             (mkSlice (TPtr elem)
                (store_rows (call_Find (repo_db rv) (mkSlice (TPtr elem) []))))).
    exact Hall.
  - intros Hok Hnone. rewrite Hok, Hnone. reflexivity.
Qed.

Lemma Get_returns_the_rows_witness :
  @repository_Get test_types two_rows_store test_repository
  = Ok [new_TestModel "1" "a"; new_TestModel "2" "b"].
Proof.
  destruct (@Get_returns_the_rows test_types two_rows_store test_repository TestModel
              _ eq_refl) as (_ & Hrows & _).
  apply Hrows; reflexivity.
Defined.

(** ** Find and FindOrFail *)

(** X10.  On a repository whose model is a pointer of a type that
    implements contract.Model, [Find] makes one call to the backend, on a
    new zero entity of the model's type (the fields of the model the
    repository is bound to are not copied).  When the backend reports that
    no record was found, [Find] returns neither an entity nor an error and
    [FindOrFail] returns db.ErrRecordNotFound.  On any other error [Find]
    returns the error together with the entity, and [FindOrFail] the error
    alone.  Without an error both return the decoded entity.  [FindOrFail]
    always returns an entity or an error, and never both. *)
Theorem Find_and_FindOrFail `{T : TypeInfo} `{S : Store}
    (rv : repository) (elem : rtype) (target : option value) (id : any) :
  repo_mdl rv = Some (VPtr elem target) ->
  implementsModel (TPtr elem) = true ->
  let entity := VPtr elem (Some (zero_value elem)) in
  let c := call_First (repo_db rv) entity [id] in
  (repository_Find rv id).1 = [c] /\
  (repository_FindOrFail rv id).1 = [c] /\
  (forall e, store_Error c = Some e -> is_ErrRecordNotFound e = true ->
     (repository_Find rv id).2 = Ok (None, None) /\
     (repository_FindOrFail rv id).2 = Ok (None, Some ErrRecordNotFound)) /\
  (forall e, store_Error c = Some e -> is_ErrRecordNotFound e = false ->
     (exists found, (repository_Find rv id).2 = Ok (Some found, Some e)) /\
     (repository_FindOrFail rv id).2 = Ok (None, Some e)) /\
  (store_Error c = None ->
     (repository_Find rv id).2 = Ok (Some (decoded entity (store_fields c)), None) /\
     (repository_FindOrFail rv id).2 = Ok (Some (decoded entity (store_fields c)), None)) /\
  (exists model err,
     (repository_FindOrFail rv id).2 = Ok (model, err) /\
     (model = None <-> err <> None)).
Proof.
  intros Hm Himpl entity c.
  assert (Hfind : repository_Find rv id =
     match store_Error c with
     | Some e =>
         if is_ErrRecordNotFound e then ([c], Ok (None, None))
         else ([c], Ok (Some (decoded entity (store_fields c)), Some e))
     | None => ([c], Ok (Some (decoded entity (store_fields c)), None))
     end).
  { unfold repository_Find, repository_first, createEntityFromModel, assert_Model.
    rewrite Hm. simpl. rewrite Himpl. fold entity. fold c.
    destruct (store_Error c) as [e|]; reflexivity. }
  assert (Hfail : repository_FindOrFail rv id =
     match store_Error c with
     | Some e =>
         if is_ErrRecordNotFound e then ([c], Ok (None, Some ErrRecordNotFound))
         else ([c], Ok (None, Some e))
     | None => ([c], Ok (Some (decoded entity (store_fields c)), None))
     end).
  { unfold repository_FindOrFail. rewrite Hfind.
    destruct (store_Error c) as [e|]; [destruct (is_ErrRecordNotFound e)|]; reflexivity. }
  rewrite Hfind, Hfail.
  split; [destruct (store_Error c) as [e|]; [destruct (is_ErrRecordNotFound e)|]; reflexivity|].
  split; [destruct (store_Error c) as [e|]; [destruct (is_ErrRecordNotFound e)|]; reflexivity|].
  split.
  { intros e He Hnf. rewrite He, Hnf. split; reflexivity. }
  split.
  { intros e He Hnf. rewrite He, Hnf. split; [eexists|]; reflexivity. }
  split.
  { intros He. rewrite He. split; reflexivity. }
  destruct (store_Error c) as [e|]; [destruct (is_ErrRecordNotFound e)|]; simpl.
  - exists None, (Some ErrRecordNotFound). split; [reflexivity|]. split; congruence.
  - exists None, (Some e). split; [reflexivity|]. split; congruence.
  - exists (Some (decoded entity (store_fields c))), None.
    split; [reflexivity|]. split; [discriminate|congruence].
Qed.

Lemma Find_and_FindOrFail_witness :
  (@repository_Find test_types no_record_store test_repository (any_int 7)).2
    = Ok (None, None) /\
  (@repository_FindOrFail test_types no_record_store test_repository (any_int 7)).2
    = Ok (None, Some ErrRecordNotFound).
Proof.
  destruct (@Find_and_FindOrFail test_types no_record_store test_repository TestModel
              _ (any_int 7) eq_refl eq_refl) as (_ & _ & Hnf & _).
  apply (Hnf (errors_New "record not found")); reflexivity.
Defined.

(** ** Repositories from a connection, and chains of clauses *)

(** X11.  [NewRepository] on a model that is a struct value or a pointer.
    The nil interface and a nil pointer give the error "model cannot be
    nil" and a struct value panics in [reflect.Value.IsNil], the heap being
    left as it was.  A pointer that is not nil gives a new repository bound
    to the model.  Its handle comes from [Model] on the connection's
    handle: a new handle with an empty statement for a handle as
    [gorm.Open] returns it (counter 1), a new handle with a copy of the
    statement for a session handle, and the connection's handle itself,
    which then carries the model, for a handle that chains in place.  In
    every case the repository's handle chains in place. *)
Theorem NewRepository_takes_live_pointers
    (c_db : ptr) (o : Shared.DB) (h : Shared.heap) :
  Shared.handles h !! c_db = Some o ->
  (forall model,
     model = None \/ (exists elem, model = Some (VPtr elem None)) ->
     Shared.connection_NewRepository c_db model h
     = (Err (errors_New "model cannot be nil"), h)) /\
  (forall name fields,
     Shared.connection_NewRepository c_db (Some (VNamed name fields)) h
     = (Panic "reflect: call of reflect.Value.IsNil on struct Value", h)) /\
  (forall elem v,
     exists tx h',
       Shared.connection_NewRepository c_db (Some (VPtr elem (Some v))) h
       = (Ok (length (Shared.repositories h)), h') /\
       Shared.repositories h'
       = Shared.repositories h ++ [Shared.mkRepository tx (Some (VPtr elem (Some v)))] /\
       Shared.builders h' = Shared.builders h /\
       Shared.handles h' !! tx
       = Some (Shared.mkHandle
                 (gorm_Model
                    (if Nat.eqb (Shared.clone o) 1 then mkDB None [] None None
                     else Shared.Statement o)
                    (Some (VPtr elem (Some v)))) 0) /\
       (Shared.clone o = 0 ->
        tx = c_db /\ length (Shared.handles h') = length (Shared.handles h)) /\
       (Shared.clone o <> 0 ->
        tx = length (Shared.handles h) /\
        Shared.handles h' !! c_db = Some o /\
        length (Shared.handles h') = S (length (Shared.handles h)))).
Proof.
  intros Ho. split; [|split].
  - intros model [->|[elem ->]]; reflexivity.
  - intros name fields. reflexivity.
  - intros elem v. simpl.
    unfold Shared.newGormRepository, Shared.bind, Shared.DB_Model.
    destruct (Nat.eq_dec (Shared.clone o) 0) as [Hzero|Hpos].
    + rewrite (chain_shared _ _ o h Ho Hzero).
      eexists c_db, _. split; [reflexivity|]. simpl.
      split; [reflexivity|]. split; [reflexivity|].
      split.
      { rewrite list_lookup_alter_eq. unfold ptr in *. rewrite Ho. simpl.
        rewrite Hzero. reflexivity. }
      split; [|congruence].
      intros _. split; [reflexivity|]. apply length_alter.
    + rewrite (chain_session _ _ o h Ho Hpos).
      eexists (length (Shared.handles h)), _. split; [reflexivity|]. simpl.
      split; [reflexivity|]. split; [reflexivity|].
      split; [apply list_lookup_middle; reflexivity|].
      split; [congruence|].
      intros _. split; [reflexivity|].
      split; [apply lookup_app_l_Some; exact Ho|].
      rewrite length_app. simpl. lia.
Qed.

Lemma NewRepository_takes_live_pointers_witness :
  Shared.connection_NewRepository 0 nil_TestModel opened_heap
  = (Err (errors_New "model cannot be nil"), opened_heap) /\
  Shared.connection_NewRepository 0 (new_TestModel "0" "") opened_heap
  = (Ok 0%nat,
     Shared.mkHeap
       [Shared.mkHandle empty_DB 1;
        Shared.mkHandle (gorm_Model empty_DB (new_TestModel "0" "")) 0]
       [Shared.mkRepository 1 (new_TestModel "0" "")] []).
Proof.
  destruct (NewRepository_takes_live_pointers 0 (Shared.mkHandle empty_DB 1) opened_heap
              eq_refl) as (Hnil & _ & _).
  split.
  - apply Hnil. right. exists TestModel. reflexivity.
  - reflexivity.
Defined.

(** X12.  A chain of clause operations on a repository whose handle
    chains in place, each applied to the builder the one before returned,
    with every [With] of the chain on relations the model describes.  The
    chain returns; it allocates one struct per operation and no handle:
    every struct of the chain holds the handle and the model of the first.
    So every builder of the chain, the first included, ends with the same
    accumulated state, which is the state the first had before the chain
    with what the operations add, in order. *)
Theorem clause_chains_share_one_handle `{R : GoRuntime} `{T : TypeInfo}
    (ops : list repository_op) :
  forall (h : Shared.heap) (r : ptr) (rv : Shared.repository) (o : Shared.DB),
  Shared.repositories h !! r = Some rv ->
  Shared.handles h !! Shared.repo_db rv = Some o ->
  Shared.clone o = 0 ->
  forallb (repository_returns (Shared.repo_mdl rv)) ops = true ->
  exists r' h',
    Shared.repository_chain ops r h = (Ok r', h') /\
    Shared.repositories h' = Shared.repositories h ++ replicate (length ops) rv /\
    Shared.repositories h' !! r' = Some rv /\
    length (Shared.handles h') = length (Shared.handles h) /\
    Shared.builders h' = Shared.builders h /\
    (forall b,
       Shared.repositories h' !! b = Some rv ->
       Shared.repository_state h' b
       = Some (foldl (fun s op => repository_effect op s) (Shared.Statement o) ops)).
Proof.
  induction ops as [|op ops IH]; intros h r rv o Hr Ho Hclone Hret.
  - exists r, h. simpl. rewrite app_nil_r.
    repeat split; auto.
    intros b Hb. unfold Shared.repository_state, Shared.statement_of.
    rewrite Hb, Ho. reflexivity.
  - simpl in Hret. apply andb_prop in Hret as [Hop Hret].
    simpl. unfold Shared.bind.
    rewrite (repository_call_shared op r rv o h Hr Ho Hclone Hop).
    set (h1 := Shared.mkHeap
                 (Shared.handles
                    (Shared.with_Statement (Shared.repo_db rv)
                       (repository_effect op (Shared.Statement o)) h))
                 (Shared.repositories h ++ [rv]) (Shared.builders h)).
    assert (Hr1 : Shared.repositories h1 !! length (Shared.repositories h) = Some rv)
      by (apply list_lookup_middle; reflexivity).
    assert (Ho1 : Shared.handles h1 !! Shared.repo_db rv
                  = Some (Shared.mkHandle (repository_effect op (Shared.Statement o))
                            (Shared.clone o)))
      by (apply (with_Statement_lookup _ _ o h Ho)).
    destruct (IH h1 _ rv _ Hr1 Ho1 Hclone Hret)
      as (r' & h' & Hchain & Hrepos & Hr' & Hlen & Hbuilders & Hstate).
    exists r', h'. split; [exact Hchain|].
    split.
    { rewrite Hrepos. subst h1. simpl. rewrite <- app_assoc. reflexivity. }
    split; [exact Hr'|].
    split.
    { rewrite Hlen. subst h1. simpl. apply length_alter. }
    split; [rewrite Hbuilders; reflexivity|].
    exact Hstate.
Qed.

Lemma clause_chains_share_one_handle_witness :
  exists r' h',
    @Shared.repository_chain ascii_runtime test_types
      [Repo_Where (any_string "age > ?") [any_int 18]; Repo_OrderBy "name" "desc";
       Repo_Limit 10] 0 shared_heap = (Ok r', h') /\
    Shared.repositories h'
    = Shared.repositories shared_heap
      ++ replicate 3 (Shared.mkRepository 1 (new_TestModel "0" "")) /\
    Shared.repositories h' !! r' = Some (Shared.mkRepository 1 (new_TestModel "0" "")) /\
    length (Shared.handles h') = length (Shared.handles shared_heap) /\
    Shared.builders h' = Shared.builders shared_heap /\
    (forall b,
       Shared.repositories h' !! b = Some (Shared.mkRepository 1 (new_TestModel "0" "")) ->
       Shared.repository_state h' b
       = Some (foldl (fun s op => @repository_effect ascii_runtime op s)
                 (gorm_Model empty_DB (new_TestModel "0" ""))
                 [Repo_Where (any_string "age > ?") [any_int 18]; Repo_OrderBy "name" "desc";
                  Repo_Limit 10])).
Proof.
  apply (@clause_chains_share_one_handle ascii_runtime test_types
           [Repo_Where (any_string "age > ?") [any_int 18]; Repo_OrderBy "name" "desc";
            Repo_Limit 10] shared_heap 0
           (Shared.mkRepository 1 (new_TestModel "0" ""))
           (Shared.mkHandle (gorm_Model empty_DB (new_TestModel "0" "")) 0));
    reflexivity.
Defined.

(** ** Eager loading and ordering: the repository and the query builder *)

Lemma handleRelationshipPreload_loop_nil_descriptor (p : ptr)
    (modelRelations : gmap string (option string)) (rel : string) (post : list string) :
  modelRelations !! rel = Some None ->
  forall (pre : list string) (h : Shared.heap) (o : Shared.DB),
  Shared.handles h !! p = Some o ->
  Shared.clone o = 0 ->
  forallb (described modelRelations) pre = true ->
  Shared.handleRelationshipPreload_loop p modelRelations (pre ++ rel :: post) h
  = (Panic nil_dereference,
     Shared.with_Statement p (foldl gorm_Preload (Shared.Statement o) pre) h).
Proof.
  intros Hnil. induction pre as [|x pre IH]; intros h o Ho Hclone Hpre; simpl.
  - unfold Shared.bind. rewrite Hnil. simpl.
    rewrite (with_Statement_id p o h Ho). reflexivity.
  - simpl in Hpre. apply andb_prop in Hpre as [Hx Hpre].
    rewrite (handleRelationshipPreload_step p x modelRelations (described_not_nil _ _ Hx)).
    unfold Shared.bind, Shared.DB_Preload. rewrite (chain_shared _ p o h Ho Hclone).
    rewrite (IH _ _ (with_Statement_lookup p _ o h Ho) Hclone Hpre).
    simpl. rewrite with_Statement_twice. reflexivity.
Qed.

(** X13.  [handleRelationshipPreload], the body of [repository.With], on
    a handle that chains in place.  When no relation named has a nil
    descriptor it does what the loop of [gormQueryBuilder.With] does,
    whatever the descriptors say (all branches of its switch make the same
    call): it adds one preload per relation, in order, to the statement of
    the handle and returns the handle.  At the first relation whose
    descriptor is nil it panics, the relations before it having been
    preloaded on the handle; with a nil model it panics before any preload
    unless no relation is given.  [gormQueryBuilder.With] does not consult
    the model. *)
Theorem With_preloads_every_relation `{T : TypeInfo}
    (tx : ptr) (o : Shared.DB) (h : Shared.heap) (v : value) (relations : list string) :
  Shared.handles h !! tx = Some o ->
  Shared.clone o = 0 ->
  (forallb (described (Relationships v)) relations = true ->
   Shared.handleRelationshipPreload tx (Some v) relations h
   = Shared.preload_each tx relations h /\
   Shared.preload_each tx relations h
   = (Ok tx,
      Shared.with_Statement tx
        (mkDB (stmt_Model (Shared.Statement o))
           (stmt_Clauses (Shared.Statement o) ++ map PreloadClause relations)
           (stmt_Limit (Shared.Statement o)) (stmt_Offset (Shared.Statement o))) h)) /\
  (forall pre rel post,
     relations = pre ++ rel :: post ->
     forallb (described (Relationships v)) pre = true ->
     Relationships v !! rel = Some None ->
     Shared.handleRelationshipPreload tx (Some v) relations h
     = (Panic nil_dereference,
        Shared.with_Statement tx
          (mkDB (stmt_Model (Shared.Statement o))
             (stmt_Clauses (Shared.Statement o) ++ map PreloadClause pre)
             (stmt_Limit (Shared.Statement o)) (stmt_Offset (Shared.Statement o))) h)) /\
  (relations <> [] ->
   Shared.handleRelationshipPreload tx None relations h = (Panic nil_dereference, h)) /\
  Shared.handleRelationshipPreload tx None [] h = (Ok tx, h).
Proof.
  intros Ho Hclone. split; [|split; [|split]].
  - intros Hall. split.
    + apply handleRelationshipPreload_preload_each.
      unfold preloadable. destruct relations; [reflexivity|exact Hall].
    + rewrite (preload_each_shared tx relations h o Ho Hclone), foldl_gorm_Preload.
      reflexivity.
  - intros pre rel post -> Hpre Hnil. unfold Shared.handleRelationshipPreload.
    destruct (Nat.eqb (length (pre ++ rel :: post)) 0) eqn:Hlen.
    { apply Nat.eqb_eq in Hlen. rewrite length_app in Hlen. simpl in Hlen. lia. }
    rewrite (handleRelationshipPreload_loop_nil_descriptor tx _ rel post Hnil pre h o
               Ho Hclone Hpre), foldl_gorm_Preload.
    reflexivity.
  - intros Hne. unfold Shared.handleRelationshipPreload.
    destruct relations as [|rel relations]; [congruence|reflexivity].
  - reflexivity.
Qed.

Lemma With_preloads_every_relation_witness :
  @Shared.handleRelationshipPreload broken_relation_types 1 (new_TestModel "0" "")
    ["Profile"; "Broken"; "Orders"] shared_heap
  = (Panic nil_dereference,
     Shared.with_Statement 1
       (mkDB (new_TestModel "0" "") ([] ++ map PreloadClause ["Profile"]) None None)
       shared_heap) /\
  @Shared.handleRelationshipPreload broken_relation_types 1 (new_TestModel "0" "")
    ["Profile"; "Orders"] shared_heap
  = Shared.preload_each 1 ["Profile"; "Orders"] shared_heap.
Proof.
  split.
  - destruct (@With_preloads_every_relation broken_relation_types 1
                (Shared.mkHandle (gorm_Model empty_DB (new_TestModel "0" "")) 0) shared_heap
                (VPtr TestModel (Some (VNamed "utils.TestModel" [("ID", "0"); ("Name", "")])))
                ["Profile"; "Broken"; "Orders"] eq_refl eq_refl) as (_ & Hbroken & _).
    apply (Hbroken ["Profile"] "Broken" ["Orders"]); reflexivity.
  - destruct (@With_preloads_every_relation broken_relation_types 1
                (Shared.mkHandle (gorm_Model empty_DB (new_TestModel "0" "")) 0) shared_heap
                (VPtr TestModel (Some (VNamed "utils.TestModel" [("ID", "0"); ("Name", "")])))
                ["Profile"; "Orders"] eq_refl eq_refl) as (Hdescribed & _).
    destruct (Hdescribed eq_refl) as [Hsame _]. exact Hsame.
Defined.

(** X14.  [gormQueryBuilder.OrderBy] checks the direction but never the
    column: for every column, safe identifier or not, the new builder has
    one more ordering clause, the column followed by DESC when the direction
    trimmed and upper-cased is DESC and by ASC otherwise.  It agrees with
    the repository's [applyOrderBy] on the same handle exactly when the
    column is a safe identifier. *)
Theorem QueryBuilder_OrderBy_takes_any_column `{R : GoRuntime}
    (q : ptr) (hq : list gormQueryBuilder) (qv : gormQueryBuilder)
    (column direction : string) :
  hq !! q = Some qv ->
  exists bq,
    built (gormQueryBuilder_OrderBy q column direction hq) = Some bq /\
    qb_model bq = qb_model qv /\
    orderings (qb_db bq)
    = orderings (qb_db qv)
      ++ [column +:+ " " +:+
          (if String.eqb (ToUpper (TrimSpace direction)) "DESC" then "DESC" else "ASC")] /\
    (qb_db bq = applyOrderBy (qb_db qv) column direction <->
     safe_identifier column = true).
Proof.
  intros Hq.
  exists (mkQueryBuilder
            (gorm_Order (qb_db qv) (column +:+ " " +:+ validateOrderDirection direction "ASC"))
            (qb_model qv)).
  split.
  { unfold gormQueryBuilder_OrderBy, qb_derive. rewrite Hq. unfold built, alloc.
    rewrite list_lookup_middle by reflexivity. reflexivity. }
  split; [reflexivity|]. cbn [qb_db].
  split; [rewrite orderings_gorm_Order, validateOrderDirection_cases; reflexivity|].
  unfold applyOrderBy. rewrite validateColumnName_safe_identifier.
  destruct (safe_identifier column); simpl.
  - split; reflexivity || auto.
  - split; [|discriminate]. intros Heq.
    apply (f_equal (fun d => length (stmt_Clauses d))) in Heq.
    simpl in Heq. rewrite length_app in Heq. simpl in Heq. lia.
Qed.

Lemma QueryBuilder_OrderBy_takes_any_column_witness :
  exists bq,
    built (@gormQueryBuilder_OrderBy ascii_runtime 0 "name; DROP TABLE users" "down"
             [test_builder]) = Some bq /\
    qb_model bq = qb_model test_builder /\
    orderings (qb_db bq)
    = orderings (qb_db test_builder)
      ++ ["name; DROP TABLE users" +:+ " " +:+
          (if String.eqb (@ToUpper ascii_runtime (@TrimSpace ascii_runtime "down")) "DESC"
           then "DESC" else "ASC")] /\
    (qb_db bq = @applyOrderBy ascii_runtime (qb_db test_builder) "name; DROP TABLE users" "down"
     <-> safe_identifier "name; DROP TABLE users" = true).
Proof.
  apply (@QueryBuilder_OrderBy_takes_any_column ascii_runtime 0 [test_builder] test_builder).
  reflexivity.
Defined.

(** ** Update, Delete and ForceDelete *)

Lemma repository_Update_is_the_loop `{M : ModelMethods} `{S : Store}
    (rv : repository) (models : list (option value)) :
  repository_Update rv models = repository_Update_loop rv models.
Proof.
  destruct models as [|[v|] [|m rest]]; try reflexivity.
  simpl. destruct (store_Error (update_call rv v)); reflexivity.
Qed.

Lemma repository_Update_loop_app `{M : ModelMethods} `{S : Store}
    (rv : repository) (pre : list value) (rest : list (option value)) :
  Forall (fun v => store_Error (update_call rv v) = None) pre ->
  repository_Update_loop rv (map Some pre ++ rest)
  = (map (update_call rv) pre ++ (repository_Update_loop rv rest).1,
     (repository_Update_loop rv rest).2).
Proof.
  induction 1 as [|v pre Hv _ IH]; simpl.
  - destruct (repository_Update_loop rv rest); reflexivity.
  - rewrite Hv, IH. reflexivity.
Qed.

(** X15.  [Update] is not atomic and stops at the first failure.  For
    models whose methods return: when the backend accepts the update of
    each of the models [pre], these are updated one by one in order, each
    on the handle narrowed to its own primary key; a nil model after them
    ends the call with "model cannot be nil", and a model the backend
    rejects ends it with the backend's error, in both cases after the
    updates of [pre] have been made and without looking at the models that
    follow.  The single-model path behaves as the loop does. *)
Theorem Update_stops_at_the_first_failure `{M : ModelMethods} `{S : Store}
    (rv : repository) (pre : list value) (post : list (option value)) :
  Forall (fun v => store_Error (update_call rv v) = None) pre ->
  repository_Update rv (map Some pre) = (map (update_call rv) pre, None) /\
  repository_Update rv (map Some pre ++ None :: post)
    = (map (update_call rv) pre, Some (errors_New "model cannot be nil")) /\
  (forall v e,
     store_Error (update_call rv v) = Some e ->
     repository_Update rv (map Some pre ++ Some v :: post)
     = (map (update_call rv) pre ++ [update_call rv v], Some e)) /\
  (forall v,
     update_call rv v
     = call_Updates
         (mkDB (Some v)
            (stmt_Clauses (repo_db rv)
             ++ [WhereClause (any_string (PrimaryKey v +:+ " = ?")) [GetID v]])
            (stmt_Limit (repo_db rv)) (stmt_Offset (repo_db rv)))
         (Some v)).
Proof.
  intros Hpre. split; [|split; [|split]].
  - rewrite repository_Update_is_the_loop.
    rewrite <- (app_nil_r (map Some pre)).
    rewrite (repository_Update_loop_app rv pre [] Hpre). simpl.
    rewrite app_nil_r. reflexivity.
  - rewrite repository_Update_is_the_loop.
    rewrite (repository_Update_loop_app rv pre _ Hpre). simpl.
    rewrite app_nil_r. reflexivity.
  - intros v e He. rewrite repository_Update_is_the_loop.
    rewrite (repository_Update_loop_app rv pre _ Hpre). simpl.
    rewrite He. reflexivity.
  - intros v. reflexivity.
Qed.

Lemma Update_stops_at_the_first_failure_witness :
  @repository_Update test_methods two_rows_store test_repository
    (map Some [test_row "1" "a"; test_row "2" "b"] ++ None :: [Some (test_row "3" "c")])
  = (map (@update_call test_methods test_repository) [test_row "1" "a"; test_row "2" "b"],
     Some (errors_New "model cannot be nil")).
Proof.
  destruct (@Update_stops_at_the_first_failure test_methods two_rows_store test_repository
              [test_row "1" "a"; test_row "2" "b"] [Some (test_row "3" "c")])
    as (_ & Hnil & _).
  - repeat constructor.
  - exact Hnil.
Defined.

Lemma repository_delete_on_cases `{T : TypeInfo} `{S : Store}
    (rv : repository) (models : list (option value)) :
  (exists res, forall tx, repository_delete_on tx rv models = ([], res)) \/
  (exists v, forall tx,
     repository_delete_on tx rv models
     = ([call_Delete tx v], Ok (store_Error (call_Delete tx v)))).
Proof.
  destruct models as [|m [|m' rest]].
  - left. eexists. intros tx. reflexivity.
  - destruct m as [v|].
    + right. eexists. intros tx. reflexivity.
    + left. eexists. intros tx. reflexivity.
  - unfold repository_delete_on.
    destruct (repository_convertModelsToSlice rv (m :: m' :: rest)) as [s|e|msg].
    + right. eexists. intros tx. reflexivity.
    + left. eexists. intros tx. reflexivity.
    + left. eexists. intros tx. reflexivity.
Qed.

(** X16.  [Delete] and [ForceDelete] take the same path on the same models.
    Either both return without a call to the backend, and then with the same
    result (nothing to delete, "model cannot be nil", a failed conversion or
    its panic), or each makes exactly one call, deleting the same value:
    [Delete] on the repository's handle and [ForceDelete] on that handle
    unscoped, and each returns what the backend answers to its call.  A
    single model that is not the nil interface is handed to the backend as
    it is, without the conversion: also a nil pointer, on which the
    conversion of a longer list panics. *)
Theorem Delete_and_ForceDelete `{T : TypeInfo} `{S : Store}
    (rv : repository) (models : list (option value)) :
  ((exists res,
      repository_Delete rv models = ([], res) /\
      repository_ForceDelete rv models = ([], res)) \/
   (exists v,
      repository_Delete rv models
      = ([call_Delete (repo_db rv) v], Ok (store_Error (call_Delete (repo_db rv) v))) /\
      repository_ForceDelete rv models
      = ([call_Delete (add_clause (repo_db rv) UnscopedClause) v],
         Ok (store_Error (call_Delete (add_clause (repo_db rv) UnscopedClause) v))))) /\
  (forall v,
     models = [Some v] ->
     repository_Delete rv models
     = ([call_Delete (repo_db rv) (value_model (Some v))],
        Ok (store_Error (call_Delete (repo_db rv) (value_model (Some v)))))).
Proof.
  split.
  - unfold repository_Delete, repository_ForceDelete.
    destruct (repository_delete_on_cases rv models) as [[res H]|[v H]].
    + left. exists res. rewrite !H. split; reflexivity.
    + right. exists v. rewrite !H. split; reflexivity.
  - intros v ->. reflexivity.
Qed.

Lemma Delete_and_ForceDelete_witness :
  @repository_Delete test_types two_rows_store test_repository [nil_TestModel]
  = ([call_Delete (repo_db test_repository) (value_model nil_TestModel)],
     Ok (@store_Error two_rows_store
           (call_Delete (repo_db test_repository) (value_model nil_TestModel)))).
Proof.
  destruct (@Delete_and_ForceDelete test_types two_rows_store test_repository [nil_TestModel])
    as [_ Hone].
  apply Hone. reflexivity.
Defined.

(** ** The Connect facade: calls made and configurations refused *)

(** X17.  The calls [Connect] makes, whatever the configuration, the
    options, the registry and the behaviour of the adapter and of the
    connection: at most one [Connect] on the adapter, then at most one
    [Ping], then at most one [Close], appended to the log in that order.
    A connection is returned only pinged and never closed; an error comes
    with no call, with the adapter's [Connect] alone, or with [Connect],
    [Ping] and [Close] of the same connection; a panic comes after the
    adapter's [Connect] alone.  A connection the adapter returns together
    with an error is neither pinged nor closed. *)
Theorem Connect_call_discipline `{R : GoRuntime}
    (cfg : Config) (opts : list (Config -> Config))
    (adapters : gmap string DBAdapter) (log : list event) :
  exists new,
    (Connect cfg opts adapters log).2 = log ++ new /\
    match (Connect cfg opts adapters log).1 with
    | Ok conn => exists a, new = [ev_Connect a; ev_Ping (conn_id conn)]
    | Err e =>
        new = [] \/
        (exists a, new = [ev_Connect a]) \/
        (exists a c, new = [ev_Connect a; ev_Ping c; ev_Close c])
    | Panic msg => exists a, new = [ev_Connect a]
    end /\
    (forall adapter conn err,
       Validate (apply_options cfg opts) = None ->
       resolve_adapter (apply_options cfg opts) adapters = Ok adapter ->
       adapter_Connect adapter (cfg_fields (apply_options cfg opts)) log
       = (Some conn, Some err) ->
       new = [ev_Connect (adapter_id adapter)] /\
       (Connect cfg opts adapters log).1 = Err (NewAdapterConnectError err)).
Proof.
  unfold Connect.
  destruct (Validate (apply_options cfg opts)) as [verr|] eqn:Hv.
  { exists []. simpl. rewrite app_nil_r. split; [reflexivity|].
    split; [left; reflexivity|]. intros; discriminate. }
  destruct (resolve_adapter (apply_options cfg opts) adapters) as [adapter|e|msg] eqn:Hres.
  - destruct (adapter_Connect adapter (cfg_fields (apply_options cfg opts)) log)
      as [[conn|] [cerr|]] eqn:Hc.
    + exists [ev_Connect (adapter_id adapter)]. simpl. split; [reflexivity|].
      split; [right; left; eauto|].
      intros a c err _ Ha Hac. injection Ha as <-. rewrite Hc in Hac.
      injection Hac as <- <-. split; reflexivity.
    + destruct (conn_Ping conn (log ++ [ev_Connect (adapter_id adapter)])) as [perr|].
      * exists [ev_Connect (adapter_id adapter); ev_Ping (conn_id conn); ev_Close (conn_id conn)].
        simpl. rewrite <- !app_assoc. split; [reflexivity|].
        split; [right; right; eauto|].
        intros a c err _ Ha Hac. injection Ha as <-. rewrite Hc in Hac. discriminate.
      * exists [ev_Connect (adapter_id adapter); ev_Ping (conn_id conn)].
        simpl. rewrite <- !app_assoc. split; [reflexivity|].
        split; [eauto|].
        intros a c err _ Ha Hac. injection Ha as <-. rewrite Hc in Hac. discriminate.
    + exists [ev_Connect (adapter_id adapter)]. simpl. split; [reflexivity|].
      split; [right; left; eauto|].
      intros a c err _ Ha Hac. injection Ha as <-. rewrite Hc in Hac. discriminate.
    + exists [ev_Connect (adapter_id adapter)]. simpl. split; [reflexivity|].
      split; [eauto|].
      intros a c err _ Ha Hac. injection Ha as <-. rewrite Hc in Hac. discriminate.
  - exists []. simpl. rewrite app_nil_r. split; [reflexivity|].
    split; [left; reflexivity|]. intros; discriminate.
  - exfalso. unfold resolve_adapter, GetAdapter in Hres.
    destruct (cfg_Adapter (apply_options cfg opts)) as [[a|]|]; try discriminate.
    destruct (adapters !! Driver (cfg_fields (apply_options cfg opts))); discriminate.
Qed.

Lemma Connect_call_discipline_witness :
  exists new,
    (@Connect ascii_runtime fake_config
       [WithAdapter (Some (fakeAdapter (Some (fakeConn None None)) (Some (errors_New "refused"))))]
       ∅ []).2 = [] ++ new /\
    new = [ev_Connect 0] /\
    (@Connect ascii_runtime fake_config
       [WithAdapter (Some (fakeAdapter (Some (fakeConn None None)) (Some (errors_New "refused"))))]
       ∅ []).1 = Err (NewAdapterConnectError (errors_New "refused")).
Proof.
  destruct (@Connect_call_discipline ascii_runtime fake_config
              [WithAdapter (Some (fakeAdapter (Some (fakeConn None None)) (Some (errors_New "refused"))))]
              ∅ []) as (new & Hlog & _ & Hboth).
  exists new. split; [exact Hlog|].
  apply (Hboth (fakeAdapter (Some (fakeConn None None)) (Some (errors_New "refused")))
           (fakeConn None None) (errors_New "refused")); reflexivity.
Defined.

(** X18.  [WithAdapter] and the registry.  With an adapter that is not
    nil injected by the last option, [Connect] gives the same result and
    makes the same calls for every registry, and the adapter it calls, if
    it calls one, is the injected one.  [WithAdapter] of a nil adapter
    leaves the field nil: it also erases what an earlier option injected,
    and the registry decides, as for a configuration without adapter.  In
    both cases a configuration without driver or without DSN is refused,
    with the validation error as the cause of a [db.Error] and with no call
    made. *)
Theorem injected_adapter_bypasses_the_registry `{R : GoRuntime}
    (cfg : Config) (opts : list (Config -> Config)) (injected : option DBAdapter)
    (adapters adapters' : gmap string DBAdapter) (log : list event) :
  (forall adapter,
     injected = Some adapter ->
     Connect cfg (opts ++ [WithAdapter injected]) adapters log
     = Connect cfg (opts ++ [WithAdapter injected]) adapters' log /\
     (Driver (cfg_fields (apply_options cfg opts)) <> "" ->
      DSN (cfg_fields (apply_options cfg opts)) <> "" ->
      exists new,
        (Connect cfg (opts ++ [WithAdapter injected]) adapters log).2
        = log ++ ev_Connect (adapter_id adapter) :: new)) /\
  (injected = None ->
   Connect cfg (opts ++ [WithAdapter injected]) adapters log
   = Connect (mkConfig (cfg_fields (apply_options cfg opts)) None) [] adapters log /\
   (Validate (apply_options cfg opts) = None ->
    adapters !! Driver (cfg_fields (apply_options cfg opts)) = None ->
    exists cause,
      Connect cfg (opts ++ [WithAdapter injected]) adapters log
      = (Err (NewAdapterLookupError cause), log))) /\
  (Driver (cfg_fields (apply_options cfg opts)) = "" \/
   DSN (cfg_fields (apply_options cfg opts)) = "" ->
   exists e cause,
     Connect cfg (opts ++ [WithAdapter injected]) adapters log = (Err e, log) /\
     Unwrap e = Some cause /\
     Validate (apply_options cfg opts) = Some cause /\
     Error e = "db operation 'Connect' failed: config validation failed: " +:+ Error cause).
Proof.
  assert (Hopts : apply_options cfg (opts ++ [WithAdapter injected])
                  = mkConfig (cfg_fields (apply_options cfg opts))
                      (option_map injected_adapter injected)).
  { unfold apply_options. rewrite foldl_app. reflexivity. }
  assert (Hvalid : Validate (apply_options cfg (opts ++ [WithAdapter injected]))
                   = Validate (apply_options cfg opts)).
  { rewrite Hopts. reflexivity. }
  split; [|split].
  - intros adapter ->.
    assert (Hres : forall m,
              resolve_adapter (apply_options cfg (opts ++ [WithAdapter (Some adapter)])) m
              = Ok adapter).
    { intros m. rewrite Hopts. reflexivity. }
    split.
    + unfold Connect. rewrite !Hres. reflexivity.
    + intros Hdriver Hdsn. unfold Connect. rewrite Hvalid, Hres.
      unfold Validate.
      destruct (String.eqb_spec (Driver (cfg_fields (apply_options cfg opts))) "")
        as [Heq|_]; [contradiction|].
      destruct (String.eqb_spec (DSN (cfg_fields (apply_options cfg opts))) "")
        as [Heq|_]; [contradiction|].
      destruct (adapter_Connect adapter _ log) as [[conn|] [cerr|]]; simpl;
        try (exists []; reflexivity).
      destruct (conn_Ping conn _); simpl; rewrite <- !app_assoc; eexists; reflexivity.
  - intros ->.
    assert (Hsame : Connect cfg (opts ++ [WithAdapter None]) adapters log
                    = Connect (mkConfig (cfg_fields (apply_options cfg opts)) None) []
                        adapters log).
    { unfold Connect. rewrite Hopts. reflexivity. }
    split; [exact Hsame|].
    intros Hv Hnone. rewrite Hsame. unfold Connect. simpl apply_options.
    change (Validate (mkConfig (cfg_fields (apply_options cfg opts)) None))
      with (Validate (apply_options cfg opts)).
    rewrite Hv. unfold resolve_adapter, GetAdapter. simpl. rewrite Hnone.
    eexists. reflexivity.
  - intros Hmissing. unfold Connect. rewrite Hvalid.
    destruct (Validate (apply_options cfg opts)) as [cause|] eqn:Hv.
    + exists (NewConfigValidationError cause), cause. repeat split; reflexivity.
    + exfalso. unfold Validate in Hv.
      destruct (String.eqb_spec (Driver (cfg_fields (apply_options cfg opts))) "")
        as [|Hd]; [discriminate|].
      destruct (String.eqb_spec (DSN (cfg_fields (apply_options cfg opts))) "")
        as [|Hs]; [discriminate|].
      destruct Hmissing; contradiction.
Qed.

Lemma injected_adapter_bypasses_the_registry_witness :
  (exists cause,
     @Connect ascii_runtime fake_config
       ([WithAdapter (Some (fakeAdapter (Some (fakeConn None None)) None))]
        ++ [WithAdapter None]) ∅ []
     = (Err (NewAdapterLookupError cause), [])) /\
  @Connect ascii_runtime fake_config
    ([] ++ [WithAdapter (Some (fakeAdapter (Some (fakeConn None None)) None))]) ∅ []
  = @Connect ascii_runtime fake_config
      ([] ++ [WithAdapter (Some (fakeAdapter (Some (fakeConn None None)) None))])
      (<["fake" := fakeAdapter None (Some (errors_New "refused"))]> ∅) [].
Proof.
  split.
  - destruct (@injected_adapter_bypasses_the_registry ascii_runtime fake_config
                [WithAdapter (Some (fakeAdapter (Some (fakeConn None None)) None))]
                None ∅ ∅ []) as (_ & Hnil & _).
    destruct (Hnil eq_refl) as [_ Hlookup]. apply Hlookup; reflexivity.
  - destruct (@injected_adapter_bypasses_the_registry ascii_runtime fake_config
                [] (Some (fakeAdapter (Some (fakeConn None None)) None)) ∅
                (<["fake" := fakeAdapter None (Some (errors_New "refused"))]> ∅) [])
      as (Hinjected & _).
    destruct (Hinjected _ eq_refl) as [Hsame _]. exact Hsame.
Defined.

(** X19.  Every error [Connect] returns is a [db.Error] of the operation
    "Connect" that wraps its cause: the validation error, the sentinel
    "invalid adapter type", the registry's lookup error, the adapter's
    error or the error of the ping; [Unwrap] gives the cause back and the
    message ends with the cause's message. *)
Theorem Connect_errors_wrap_their_cause `{R : GoRuntime}
    (cfg : Config) (opts : list (Config -> Config))
    (adapters : gmap string DBAdapter) (log : list event) (e : error) :
  (Connect cfg opts adapters log).1 = Err e ->
  exists message cause,
    e = db_Error "Connect" message (Some cause) /\
    Unwrap e = Some cause /\
    Error e = "db operation 'Connect' failed: " +:+ message +:+ ": " +:+ Error cause /\
    In message ["config validation failed"; "invalid adapter type provided in config";
                "adapter lookup failed"; "adapter connect failed";
                "initial database ping failed"] /\
    (message = "config validation failed" <->
     Validate (apply_options cfg opts) = Some cause).
Proof.
  unfold Connect.
  destruct (Validate (apply_options cfg opts)) as [verr|] eqn:Hv; simpl.
  { intros [= <-]. exists "config validation failed", verr.
    repeat split; simpl; auto. }
  destruct (resolve_adapter (apply_options cfg opts) adapters) as [adapter|e'|msg] eqn:Hres;
    simpl; [| |discriminate].
  - destruct (adapter_Connect adapter (cfg_fields (apply_options cfg opts)) log)
      as [[conn|] [cerr|]]; simpl; try discriminate.
    + intros [= <-]. exists "adapter connect failed", cerr.
      repeat split; simpl; auto 6; discriminate.
    + destruct (conn_Ping conn (log ++ [ev_Connect (adapter_id adapter)])) as [perr|];
        simpl; [|discriminate].
      intros [= <-]. exists "initial database ping failed", perr.
      repeat split; simpl; auto 6; discriminate.
    + intros [= <-]. exists "adapter connect failed", cerr.
      repeat split; simpl; auto 6; discriminate.
  - intros [= <-]. unfold resolve_adapter, GetAdapter in Hres.
    destruct (cfg_Adapter (apply_options cfg opts)) as [[a|]|].
    + discriminate.
    + injection Hres as <-. exists "invalid adapter type provided in config", ErrInvalidAdapter.
      repeat split; simpl; auto 6; discriminate.
    + destruct (adapters !! Driver (cfg_fields (apply_options cfg opts))); [discriminate|].
      injection Hres as <-. eexists "adapter lookup failed", _.
      repeat split; simpl; auto 6; discriminate.
Qed.

Lemma Connect_errors_wrap_their_cause_witness :
  exists message cause,
    NewAdapterLookupError
      (errors_New ("unknown database adapter " +:+ @strconv_Quote ascii_runtime "fake"
                   +:+ " (is the adapter package imported?)"))
    = db_Error "Connect" message (Some cause) /\
    Unwrap (NewAdapterLookupError
      (errors_New ("unknown database adapter " +:+ @strconv_Quote ascii_runtime "fake"
                   +:+ " (is the adapter package imported?)"))) = Some cause /\
    Error (NewAdapterLookupError
      (errors_New ("unknown database adapter " +:+ @strconv_Quote ascii_runtime "fake"
                   +:+ " (is the adapter package imported?)")))
    = "db operation 'Connect' failed: " +:+ message +:+ ": " +:+ Error cause /\
    In message ["config validation failed"; "invalid adapter type provided in config";
                "adapter lookup failed"; "adapter connect failed";
                "initial database ping failed"] /\
    (message = "config validation failed" <->
     Validate (apply_options fake_config []) = Some cause).
Proof.
  apply (@Connect_errors_wrap_their_cause ascii_runtime fake_config [] ∅ []).
  reflexivity.
Defined.

(** ** The registries: other names, and the list of names *)

Lemma RegisterAdapter_loop_other {A : Type} (adapter : A) (names : list string) (name : string) :
  name ∉ names ->
  forall adapters : gmap string A,
  (RegisterAdapter_loop adapter names adapters).1 !! name = adapters !! name.
Proof.
  induction names as [|n names IH]; intros Hout adapters; simpl; [reflexivity|].
  apply not_elem_of_cons in Hout as [Hne Hout].
  destruct (String.eqb n ""); [reflexivity|].
  rewrite (IH Hout). apply lookup_insert_ne. congruence.
Qed.

(** X20.  A registration changes nothing under the names it is not given:
    after [RegisterAdapter], whether it returns or panics, [GetAdapter] of
    a name that is not among the names registered answers as before, and
    so does [Get] of the query-builder registry for a name other than the
    one registered. *)
Theorem registration_leaves_other_names `{R : GoRuntime} {A F : Type}
    (adapter : option A) (names : list string) (adapters : gmap string A)
    (factory : option F) (adapterName : string) (factories : gmap string F)
    (name : string) :
  (name ∉ names ->
   GetAdapter name (RegisterAdapter adapter names adapters).1 = GetAdapter name adapters) /\
  (name <> adapterName ->
   queryBuilderRegistry_Get name
     (queryBuilderRegistry_Register adapterName factory factories).1
   = queryBuilderRegistry_Get name factories).
Proof.
  split.
  - intros Hout. unfold GetAdapter, RegisterAdapter.
    destruct adapter as [a|]; [|reflexivity].
    destruct (Nat.eqb (length names) 0); [reflexivity|].
    rewrite (RegisterAdapter_loop_other a names name Hout). reflexivity.
  - intros Hne. unfold queryBuilderRegistry_Get, queryBuilderRegistry_Register.
    destruct (String.eqb adapterName ""); [reflexivity|].
    destruct factory as [f|]; [|reflexivity].
    simpl. rewrite lookup_insert_ne by congruence. reflexivity.
Qed.

Lemma registration_leaves_other_names_witness :
  @GetAdapter ascii_runtime nat "gorm"
    (RegisterAdapter (Some 7) ["sqlx"; ""; "pgx"] (<["gorm" := 1]> ∅)).1
  = @GetAdapter ascii_runtime nat "gorm" (<["gorm" := 1]> ∅) /\
  queryBuilderRegistry_Get "gorm"
    (queryBuilderRegistry_Register "sqlx" (Some 7) (<["gorm" := 1]> ∅)).1
  = queryBuilderRegistry_Get "gorm" (<["gorm" := 1]> ∅).
Proof.
  destruct (@registration_leaves_other_names ascii_runtime nat nat
              (Some 7) ["sqlx"; ""; "pgx"] (<["gorm" := 1]> ∅)
              (Some 7) "sqlx" (<["gorm" := 1]> ∅) "gorm") as [Hadapters Hfactories].
  split.
  - apply Hadapters. intros Hin.
    repeat (apply elem_of_cons in Hin as [Hin|Hin]; [discriminate Hin|]).
    apply elem_of_nil in Hin. exact Hin.
  - apply Hfactories. discriminate.
Defined.

(** X21.  [List] after a registration in the query-builder registry: a
    name that was not registered is added to the names, once; a name that
    was registered leaves the names as they were (up to the order, which
    is that of a map iteration); and the number of names grows by one or
    not at all accordingly. *)
Theorem List_after_Register {F : Type}
    (name : string) (f : F) (factories : gmap string F) :
  name <> "" ->
  (factories !! name = None ->
   queryBuilderRegistry_List (queryBuilderRegistry_Register name (Some f) factories).1
   ≡ₚ name :: queryBuilderRegistry_List factories) /\
  (is_Some (factories !! name) ->
   queryBuilderRegistry_List (queryBuilderRegistry_Register name (Some f) factories).1
   ≡ₚ queryBuilderRegistry_List factories) /\
  length (queryBuilderRegistry_List (queryBuilderRegistry_Register name (Some f) factories).1)
  = length (queryBuilderRegistry_List factories)
    + match factories !! name with Some _ => 0 | None => 1 end.
Proof.
  intros Hname.
  assert (Hreg : (queryBuilderRegistry_Register name (Some f) factories).1
                 = <[name := f]> factories).
  { unfold queryBuilderRegistry_Register.
    destruct (String.eqb_spec name ""); [contradiction|reflexivity]. }
  rewrite Hreg. unfold queryBuilderRegistry_List.
  assert (Hnew : factories !! name = None ->
                 (map_to_list (<[name := f]> factories)).*1
                 ≡ₚ name :: (map_to_list factories).*1).
  { intros Hnone. rewrite (map_to_list_insert factories name f Hnone). reflexivity. }
  assert (Hold : is_Some (factories !! name) ->
                 (map_to_list (<[name := f]> factories)).*1 ≡ₚ (map_to_list factories).*1).
  { intros [g Hg]. rewrite <- (insert_delete_eq factories name f).
    rewrite (map_to_list_insert (delete name factories) name f)
      by apply lookup_delete_eq.
    rewrite <- (map_to_list_delete factories name g Hg). reflexivity. }
  split; [exact Hnew|]. split; [exact Hold|].
  destruct (factories !! name) as [g|] eqn:Hg.
  - rewrite (Hold (ex_intro _ g eq_refl)). lia.
  - rewrite (Hnew eq_refl). simpl. lia.
Qed.

Lemma List_after_Register_witness :
  queryBuilderRegistry_List
    (queryBuilderRegistry_Register "gorm" (Some 2) (<["gorm" := 1]> (∅ : gmap string nat))).1
  ≡ₚ queryBuilderRegistry_List (<["gorm" := 1]> (∅ : gmap string nat)).
Proof.
  destruct (@List_after_Register nat "gorm" 2 (<["gorm" := 1]> ∅)) as (_ & Hold & _).
  - discriminate.
  - apply Hold. exists 1. reflexivity.
Defined.

(** ** The adapter's registration and the repository's query builder *)

(** X22.  [Register] of the gorm adapter registers once.  The first call
    enters the adapter under "gorm", "gorm:mysql", "gorm:postgres" and
    "gorm:sqlite", without a panic, and the gorm factory under "gorm" in the
    query-builder registry; it leaves every other name of both registries
    as it was.  Every later call, with whatever adapter, changes nothing. *)
Theorem Register_registers_once `{R : GoRuntime} {A : Type}
    (a b : A) (done : bool) (adapters : gmap string A)
    (factories : gmap string QueryBuilderFactory) :
  gorm_Register b (gorm_Register a (done, adapters, factories))
    = gorm_Register a (done, adapters, factories) /\
  (done = true ->
   gorm_Register a (done, adapters, factories) = (done, adapters, factories)) /\
  (done = false ->
   exists adapters' factories',
     gorm_Register a (done, adapters, factories) = (true, adapters', factories') /\
     RegisterAdapter (Some a) ["gorm"; "gorm:mysql"; "gorm:postgres"; "gorm:sqlite"] adapters
       = (adapters', None) /\
     (forall n, n ∈ ["gorm"; "gorm:mysql"; "gorm:postgres"; "gorm:sqlite"] ->
        GetAdapter n adapters' = Ok a) /\
     (forall n, n ∉ ["gorm"; "gorm:mysql"; "gorm:postgres"; "gorm:sqlite"] ->
        GetAdapter n adapters' = GetAdapter n adapters) /\
     queryBuilderRegistry_Get "gorm" factories' = Ok GormQueryBuilderFactory /\
     (forall n, n <> "gorm" ->
        queryBuilderRegistry_Get n factories' = queryBuilderRegistry_Get n factories)).
Proof.
  split; [|split].
  - destruct done; reflexivity.
  - intros ->. reflexivity.
  - intros ->.
    set (names := ["gorm"; "gorm:mysql"; "gorm:postgres"; "gorm:sqlite"]).
    assert (Hreg : RegisterAdapter (Some a) names adapters = (entered a names adapters, None)).
    { apply RegisterAdapter_names; [discriminate|reflexivity]. }
    exists (entered a names adapters), (<["gorm" := GormQueryBuilderFactory]> factories).
    split.
    { unfold gorm_Register, GormDriverMySQL, GormDriverPostgres, GormDriverSQLite.
      fold names. rewrite Hreg. reflexivity. }
    split; [exact Hreg|].
    split.
    { intros n Hin. unfold GetAdapter. rewrite entered_lookup.
      rewrite decide_True by exact Hin. reflexivity. }
    split.
    { intros n Hout. unfold GetAdapter. rewrite entered_lookup.
      rewrite decide_False by exact Hout. reflexivity. }
    split.
    { unfold queryBuilderRegistry_Get. rewrite lookup_insert_eq. reflexivity. }
    intros n Hn. unfold queryBuilderRegistry_Get.
    rewrite lookup_insert_ne by congruence. reflexivity.
Qed.

Lemma Register_registers_once_witness :
  exists adapters' factories',
    gorm_Register 1 (false, (∅ : gmap string nat), ∅) = (true, adapters', factories') /\
    RegisterAdapter (Some 1) ["gorm"; "gorm:mysql"; "gorm:postgres"; "gorm:sqlite"] ∅
      = (adapters', None) /\
    (forall n, n ∈ ["gorm"; "gorm:mysql"; "gorm:postgres"; "gorm:sqlite"] ->
       @GetAdapter ascii_runtime nat n adapters' = Ok 1) /\
    (forall n, n ∉ ["gorm"; "gorm:mysql"; "gorm:postgres"; "gorm:sqlite"] ->
       @GetAdapter ascii_runtime nat n adapters' = @GetAdapter ascii_runtime nat n ∅) /\
    queryBuilderRegistry_Get "gorm" factories' = Ok GormQueryBuilderFactory /\
    (forall n, n <> "gorm" ->
       queryBuilderRegistry_Get n factories' = queryBuilderRegistry_Get n ∅).
Proof.
  destruct (@Register_registers_once ascii_runtime nat 1 2 false ∅ ∅) as (_ & _ & Hfirst).
  apply Hfirst. reflexivity.
Defined.


